(** * TwitterBot: a shallow embedding of [aiService.js] and [twitterService.js]

    The development models the two service modules of the bot:
    - [src/services/aiService.js]: tweet generation ([generateTweet]),
      the choice of the AI service ([initializeAI]), the predefined texts
      ([getAlternativeAIText]) and [detectLanguage];
    - [src/services/twitterService.js]: history store, failure queue, delay
      policy, the error classifier, the posting primitive with its bounded
      retry, the loop over all accounts, the retry pass over the failure
      queue, and the eager and lazy client loaders.

    JavaScript strings are sequences of UTF-16 code units, numbers that the
    code uses as integers are [Z], and the division and the comparisons of
    the delay policy are carried out on binary64 floats.  Effects (the
    provider, the clock, the JSON files, timers) are threaded through an
    explicit [World]; exceptions are an explicit completion.  The two
    posting functions are also given as a caller reaches them, with a
    client object and a configuration that may be [null] or [undefined]
    ([Nullable]). *)

From Stdlib Require Import Ascii String.
From Stdlib Require Import ZArith NArith List Bool Lia.
From Stdlib Require Import QArith Qround DecimalString.
From Stdlib Require Import Floats.PrimFloat Numbers.Cyclic.Int63.Uint63.
From Equations Require Import Equations.
Import ListNotations.

#[local] Set Warnings "-inexact-float".
Close Scope Q_scope.
Open Scope Z_scope.

(* ===================================================================== *)
(** * Part I: the embedding                                               *)
(* ===================================================================== *)

(** ** JavaScript strings *)

(** A string is its sequence of UTF-16 code units; [length] of the list is
    the [.length] of the string. *)
Definition jsstring := list N.

(** A literal of the source whose characters are all ASCII. *)
Definition js (s : string) : jsstring := map N_of_ascii (list_ascii_of_string s).
Arguments js s%_string.

Definition jslength (s : jsstring) : Z := Z.of_nat (length s).

Fixpoint jseqb (s t : jsstring) : bool :=
  match s, t with
  | [], [] => true
  | c :: s', d :: t' => (c =? d)%N && jseqb s' t'
  | _, _ => false
  end.

(** [ToIntegerOrInfinity] followed by the clamp to [0, len] that [substring]
    applies to each of its arguments. *)
Definition clampIndex (len : nat) (i : Z) : nat :=
  Z.to_nat (Z.min (Z.max i 0) (Z.of_nat len)).

(** [s.substring(indexStart, indexEnd)]: both ends clamped, swapped when
    out of order. *)
Definition substring (s : jsstring) (indexStart indexEnd : Z) : jsstring :=
  let a := clampIndex (length s) indexStart in
  let b := clampIndex (length s) indexEnd in
  firstn (Nat.max a b - Nat.min a b) (skipn (Nat.min a b) s).

(** [s.substring(indexStart)]. *)
Definition substringFrom (s : jsstring) (indexStart : Z) : jsstring :=
  skipn (clampIndex (length s) indexStart) s.

(** [s.slice(start, end)]: negative indices count from the end. *)
Definition slice (s : jsstring) (start stop : Z) : jsstring :=
  let len := jslength s in
  let from := if start <? 0 then Z.max (len + start) 0 else Z.min start len in
  let to := if stop <? 0 then Z.max (len + stop) 0 else Z.min stop len in
  firstn (Z.to_nat (to - from)) (skipn (Z.to_nat from) s).

(** [s.startsWith(pat)]. *)
Fixpoint startsWith (s pat : jsstring) {struct pat} : bool :=
  match pat, s with
  | [], _ => true
  | p :: pat', c :: s' => (c =? p)%N && startsWith s' pat'
  | _ :: _, [] => false
  end.

Fixpoint indexOfFrom (pat s : jsstring) (i : Z) : Z :=
  if startsWith s pat then i
  else match s with
       | [] => -1
       | _ :: s' => indexOfFrom pat s' (i + 1)
       end.

(** [s.indexOf(pat)]: position of the first occurrence, [-1] when none. *)
Definition indexOf (s pat : jsstring) : Z := indexOfFrom pat s 0.

(** [s.includes(pat)]. *)
Definition includes (s pat : jsstring) : bool := negb (indexOf s pat =? -1).

(** ECMAScript [WhiteSpace] and [LineTerminator] code points, all of which
    are single code units. *)
Definition isWhiteSpace (c : N) : bool :=
  ((c =? 9) || (c =? 10) || (c =? 11) || (c =? 12) || (c =? 13) || (c =? 32)
   || (c =? 160) || (c =? 5760) || ((8192 <=? c) && (c <=? 8202))
   || (c =? 8232) || (c =? 8233) || (c =? 8239) || (c =? 8287)
   || (c =? 12288) || (c =? 65279))%N.

Fixpoint trimStart (s : jsstring) : jsstring :=
  match s with
  | [] => []
  | c :: s' => if isWhiteSpace c then trimStart s' else s
  end.

Definition trimEnd (s : jsstring) : jsstring := rev (trimStart (rev s)).

(** [s.trim()]. *)
Definition trim (s : jsstring) : jsstring := trimEnd (trimStart s).

(** [s.split(sep)] for a separator of one code unit (the source splits on
    a line feed and on a comma).  The result is never empty. *)
Fixpoint split (sep : N) (s : jsstring) : list jsstring :=
  match s with
  | [] => [[]]
  | c :: s' =>
      if (c =? sep)%N then [] :: split sep s'
      else match split sep s' with
           | [] => [[c]]
           | cur :: more => (c :: cur) :: more
           end
  end.

(** Code units of the characters the source names. *)
Definition LF : N := 10.
Definition COMMA : N := 44.
Definition HASH : N := 35.

(* --------------------------------------------------------------------- *)
(** ** aiService.js                                                       *)
(* --------------------------------------------------------------------- *)

Definition REQUIRED_TAGS : jsstring := js "@giverep @PawtatoFinance $REP".

(** What the text-generation collaborator (the HTTP call to the AI
    provider, then [message.content]) hands back: a content string, or a
    failure of any kind, which the inner [try] of [generateTweet] catches. *)
Inductive AiReply :=
| AiContent (content : jsstring)
| AiFailure.

(** The fallback branches: [alternativeText] followed by the tags, the text
    cut to [maxMainTextLength] and followed by an ellipsis when too long. *)
Definition alternativeTweet (alternativeText : jsstring) : jsstring :=
  let tweetText := alternativeText ++ js " " ++ REQUIRED_TAGS in
  if jslength tweetText >? 280 then
    let maxMainTextLength := 280 - jslength REQUIRED_TAGS - 1 in
    substring alternativeText 0 maxMainTextLength ++ js "... " ++ REQUIRED_TAGS
  else tweetText.

(** The AI branch, from the generated text on. *)
Definition taggedTweet (generatedText : jsstring) : jsstring :=
  let tweetText := generatedText ++ js " " ++ REQUIRED_TAGS in
  if jslength tweetText >? 280 then
    let maxMainTextLength := 280 - jslength REQUIRED_TAGS - 1 in
    let truncatedText := substring generatedText 0 maxMainTextLength ++ js "..." in
    let finalTweet := truncatedText ++ js " " ++ REQUIRED_TAGS in
    finalTweet
  else tweetText.

(** [generateTweet(aiClient, aiServiceName, template)].  The reply of the
    AI provider and the text picked by [getAlternativeAIText] are inputs;
    the template only shapes a prompt that the request does not use. *)
Definition generateTweet (aiServiceName : jsstring) (reply : AiReply)
    (alternativeText : jsstring) : jsstring :=
  if jseqb aiServiceName (js "Fallback") then alternativeTweet alternativeText
  else match reply with
       | AiContent content =>
           let generatedText := trim content in
           taggedTweet generatedText
       | AiFailure => alternativeTweet alternativeText
       end.

(* --------------------------------------------------------------------- *)
(** ** Dates: [new Date().toISOString()]                                  *)
(* --------------------------------------------------------------------- *)

(** A [Date] is its time value: milliseconds since the epoch, UTC.  The
    clock of a running process never reads before 1970, so [N] holds it. *)
Definition Date := N.

Section TimeValue.
Local Open Scope N_scope.

Definition msPerDay : N := 86400000.
Definition Day (t : Date) : N := t / msPerDay.
Definition HourFromTime (t : Date) : N := (t / 3600000) mod 24.
Definition MinFromTime (t : Date) : N := (t / 60000) mod 60.
Definition SecFromTime (t : Date) : N := (t / 1000) mod 60.
Definition msFromTime (t : Date) : N := t mod 1000.

(** Year, month (1 to 12) and day of the month of a day number, in the
    proleptic Gregorian calendar: days are counted in 400-year eras that
    start on the first of March. *)
Definition civilFromDays (days : N) : N * N * N :=
  let z := days + 719468 in
  let era := z / 146097 in
  let doe := z - era * 146097 in
  let yoe := (doe - doe / 1460 + doe / 36524 - doe / 146096) / 365 in
  let doy := doe - (365 * yoe + yoe / 4 - yoe / 100) in
  let mp := (5 * doy + 2) / 153 in
  let d := doy - (153 * mp + 2) / 5 + 1 in
  let m := if mp <? 10 then mp + 3 else mp - 9 in
  let y := yoe + era * 400 in
  (if m <=? 2 then y + 1 else y, m, d).

Definition YearFromTime (t : Date) : N := fst (fst (civilFromDays (Day t))).
Definition MonthFromTime (t : Date) : N := snd (fst (civilFromDays (Day t))).
Definition DateFromTime (t : Date) : N := snd (civilFromDays (Day t)).

Definition digit (d : N) : N := 48 + d.

(** Decimal fields of fixed width, for values that fit the width. *)
Definition twoDigits (n : N) : jsstring := [digit (n / 10); digit (n mod 10)].
Definition threeDigits (n : N) : jsstring := digit (n / 100) :: twoDigits (n mod 100).
Definition fourDigits (n : N) : jsstring := twoDigits (n / 100) ++ twoDigits (n mod 100).
Definition sixDigits (n : N) : jsstring := twoDigits (n / 10000) ++ fourDigits (n mod 10000).

(** Years 0 to 9999 print as four digits, later ones as a sign and six. *)
Definition yearString (y : N) : jsstring :=
  if y <=? 9999 then fourDigits y else js "+" ++ sixDigits y.

(** [HH:mm:ss] of a time value. *)
Definition timeOfDay (t : Date) : jsstring :=
  twoDigits (HourFromTime t) ++ js ":" ++ twoDigits (MinFromTime t)
  ++ js ":" ++ twoDigits (SecFromTime t).

(** [d.toISOString()]: [YYYY-MM-DDTHH:mm:ss.sssZ]. *)
Definition toISOString (t : Date) : jsstring :=
  yearString (YearFromTime t) ++ js "-" ++ twoDigits (MonthFromTime t)
  ++ js "-" ++ twoDigits (DateFromTime t) ++ js "T" ++ timeOfDay t
  ++ js "." ++ threeDigits (msFromTime t) ++ js "Z".

End TimeValue.

(* --------------------------------------------------------------------- *)
(** ** twitterService.js: data                                            *)
(* --------------------------------------------------------------------- *)

(** The [code] property of a thrown object: absent, a number (the
    provider's codes) or a string (Node's system errors). *)
Inductive ErrorCode :=
| NoCode
| NumericCode (n : Z)
| TextCode (s : jsstring).

(** An error object, by the two properties the service reads. *)
Record JsError := { message : option jsstring; code : ErrorCode }.

(** Anything a [catch] can receive: [null] or [undefined], or a value with
    properties (an object, or a primitive, on which a missing property
    reads as [undefined]). *)
Inductive Thrown :=
| ThrownNullish
| ThrownError (e : JsError).

(** [new Error(msg)]. *)
Definition Error (msg : jsstring) : Thrown :=
  ThrownError {| message := Some msg; code := NoCode |}.

(** The engine's [TypeError] for a property read on [null] or [undefined]. *)
Definition TypeError : Thrown :=
  Error (js "Cannot read properties of undefined").

(** [JSON.parse]'s [SyntaxError] and [readFileSync]'s missing-file error. *)
Definition SyntaxError : Thrown := Error (js "Unexpected token in JSON").
Definition ENOENT : Thrown :=
  ThrownError {| message := Some (js "ENOENT: no such file or directory");
                 code := TextCode (js "ENOENT") |}.

(** The credentials of one account, which is all a [TwitterApi] session
    object is built from. *)
Record TwitterApi := {
  appKey : jsstring;
  appSecret : jsstring;
  accessToken : jsstring;
  accessSecret : jsstring
}.

Module Account.
Record t := {
  appKey : jsstring;
  appSecret : jsstring;
  accessToken : jsstring;
  accessSecret : jsstring;
  accountNumber : Z
}.
End Account.

(** [{ client, accountNumber }]. *)
Module ClientObj.
Record t := { client : TwitterApi; accountNumber : Z }.
End ClientObj.

(** What [client.v2.tweet] resolves to: [response.data.id], each level of
    which may be missing. *)
Record TweetData := { id : option jsstring }.
Record TweetResponse := { data : option TweetData }.

Inductive ProviderOutcome :=
| Resolved (response : option TweetResponse)
| Rejected (reason : Thrown).

(** The object [postTweetWithClient] returns. *)
Module PostResult.
Record t := {
  success : bool;
  response : option TweetResponse;
  error : option Thrown;
  accountNumber : Z
}.
End PostResult.

(** One element of a history record's [accounts]. *)
Module AccountOutcome.
Record t := {
  accountNumber : Z;
  success : bool;
  simulated : bool;
  tweetId : option jsstring;
  error : option jsstring
}.
End AccountOutcome.

Module HistoryEntry.
Record t := {
  timestamp : jsstring;
  text : jsstring;
  accounts : list AccountOutcome.t
}.
End HistoryEntry.

Module FailedTweet.
Record t := {
  timestamp : jsstring;
  text : jsstring;
  accountNumber : Z
}.
End FailedTweet.

(** [config.twitterConfig?.maxRetries] and [?.retryDelay]. *)
Record TwitterConfig := { maxRetries : option Z; retryDelay : option Z }.
Record Config := { twitterConfig : option TwitterConfig }.

(** The contents of a JSON file that exists: text that does not parse, or
    the array of records that every write of the service produces. *)
Inductive FileData (A : Type) :=
| Malformed
| Items (items : list A).
Arguments Malformed {A}.
Arguments Items {A} items.

(** What the service does to the outside, in order. *)
Inductive Event :=
| Tweeted (session : TwitterApi) (text : jsstring)
| Slept (ms : Z)
| WroteHistory (history : list HistoryEntry.t)
| WroteFailedTweets (failedTweets : list FailedTweet.t).

(** The state the service runs in.  The provider answers a call as a
    function of the session, of everything done so far and of the text;
    the clock gives the value of its k-th reading. *)
Record World := {
  provider : TwitterApi -> list Event -> jsstring -> ProviderOutcome;
  clock : nat -> Date;
  clockReads : nat;
  tweet_history_json : option (FileData HistoryEntry.t);
  failed_tweets_json : option (FileData FailedTweet.t);
  trace : list Event
}.

Definition logEvent (e : Event) (w : World) : World :=
  {| provider := provider w; clock := clock w; clockReads := clockReads w;
     tweet_history_json := tweet_history_json w;
     failed_tweets_json := failed_tweets_json w;
     trace := trace w ++ [e] |}.

Definition tick (w : World) : World :=
  {| provider := provider w; clock := clock w; clockReads := S (clockReads w);
     tweet_history_json := tweet_history_json w;
     failed_tweets_json := failed_tweets_json w;
     trace := trace w |}.

Definition setHistoryFile (h : list HistoryEntry.t) (w : World) : World :=
  {| provider := provider w; clock := clock w; clockReads := clockReads w;
     tweet_history_json := Some (Items h);
     failed_tweets_json := failed_tweets_json w;
     trace := trace w ++ [WroteHistory h] |}.

Definition setFailedFile (q : list FailedTweet.t) (w : World) : World :=
  {| provider := provider w; clock := clock w; clockReads := clockReads w;
     tweet_history_json := tweet_history_json w;
     failed_tweets_json := Some (Items q);
     trace := trace w ++ [WroteFailedTweets q] |}.

(* --------------------------------------------------------------------- *)
(** ** Completions: state and exceptions                                  *)
(* --------------------------------------------------------------------- *)

Inductive Completion (A : Type) :=
| Normal (a : A)
| Throw (e : Thrown).
Arguments Normal {A} a.
Arguments Throw {A} e.

Definition M (A : Type) : Type := World -> Completion A * World.

Definition ret {A} (a : A) : M A := fun w => (Normal a, w).

Definition throw {A} (e : Thrown) : M A := fun w => (Throw e, w).

Definition bind {A B} (m : M A) (k : A -> M B) : M B :=
  fun w => match m w with
           | (Normal a, w') => k a w'
           | (Throw e, w') => (Throw e, w')
           end.

(** [try { body } catch (e) { handler e }]. *)
Definition try_catch {A} (body : M A) (handler : Thrown -> M A) : M A :=
  fun w => match body w with
           | (Normal a, w') => (Normal a, w')
           | (Throw e, w') => handler e w'
           end.

Declare Scope js_scope.
Delimit Scope js_scope with js.
Notation "x <- m ;; k" := (bind m (fun x => k))
  (at level 100, m at next level, right associativity) : js_scope.
Notation "m ;; k" := (bind m (fun _ => k))
  (at level 100, right associativity) : js_scope.
Open Scope js_scope.

(** [for (const x of xs) body x]. *)
Fixpoint forOf {A} (xs : list A) (body : A -> M unit) : M unit :=
  match xs with
  | [] => ret tt
  | x :: xs' => body x ;; forOf xs' body
  end.

(** [new Date()]: one more reading of the clock. *)
Definition newDate : M Date :=
  fun w => (Normal (clock w (clockReads w)), tick w).

(** [await sleep(ms)]. *)
Definition sleep (ms : Z) : M unit :=
  fun w => (Normal tt, logEvent (Slept ms) w).

(** [await twitterClient.v2.tweet(text)]. *)
Definition v2_tweet (twitterClient : TwitterApi) (text : jsstring)
  : M (option TweetResponse) :=
  fun w =>
    let w' := logEvent (Tweeted twitterClient text) w in
    match provider w twitterClient (trace w) text with
    | Resolved response => (Normal response, w')
    | Rejected reason => (Throw reason, w')
    end.

(** [fs.existsSync], [fs.readFileSync] and [JSON.parse] on either file. *)
Definition existsSync {A} (file : World -> option (FileData A)) : M bool :=
  fun w => (Normal (match file w with Some _ => true | None => false end), w).

Definition readFileSync {A} (file : World -> option (FileData A)) : M (FileData A) :=
  fun w => match file w with
           | Some d => (Normal d, w)
           | None => (Throw ENOENT, w)
           end.

Definition JSON_parse {A} (d : FileData A) : M (list A) :=
  match d with
  | Items l => ret l
  | Malformed => throw SyntaxError
  end.

(** [fs.writeFileSync(path, JSON.stringify(value, null, 2))]. *)
Definition writeHistoryFile (h : list HistoryEntry.t) : M unit :=
  fun w => (Normal tt, setHistoryFile h w).

Definition writeFailedFile (q : list FailedTweet.t) : M unit :=
  fun w => (Normal tt, setFailedFile q w).

(* --------------------------------------------------------------------- *)
(** ** twitterService.js: history store and failure queue                 *)
(* --------------------------------------------------------------------- *)

(** [xs.slice(start)] on an array. *)
Definition arraySlice {A} (xs : list A) (start : Z) : list A :=
  let len := Z.of_nat (length xs) in
  let from := if start <? 0 then Z.max (len + start) 0 else Z.min start len in
  skipn (Z.to_nat from) xs.

(** [s || fallback] on an optional string: the empty string is falsy. *)
Definition orElse (s : option jsstring) (fallback : jsstring) : jsstring :=
  match s with
  | Some (c :: s') => c :: s'
  | _ => fallback
  end.

(** [result.response?.data?.id]. *)
Definition responseId (response : option TweetResponse) : option jsstring :=
  match response with
  | Some {| data := Some {| id := Some i |} |} => Some i
  | _ => None
  end.

(** [result.error?.message]. *)
Definition thrownMessage (error : option Thrown) : option jsstring :=
  match error with
  | Some (ThrownError e) => message e
  | _ => None
  end.

(** The element that [results.map] builds for one result.  A result never
    carries [simulated], so [result.simulated || false] is [false]. *)
Definition accountSummary (result : PostResult.t) : AccountOutcome.t :=
  let simulated := false in
  {| AccountOutcome.accountNumber := PostResult.accountNumber result;
     AccountOutcome.success := PostResult.success result;
     AccountOutcome.simulated := simulated;
     AccountOutcome.tweetId :=
       if PostResult.success result || simulated
       then Some (orElse (responseId (PostResult.response result)) (js "unknown"))
       else None;
     AccountOutcome.error :=
       if PostResult.success result then None
       else Some (orElse (thrownMessage (PostResult.error result)) (js "Unknown error")) |}.

(** [saveTweetHistory(tweetText, results)]. *)
Definition saveTweetHistory (tweetText : jsstring) (results : list PostResult.t)
  : M (list HistoryEntry.t) :=
  try_catch
    (present <- existsSync tweet_history_json ;;
     history <- (if present : bool then
                   historyData <- readFileSync tweet_history_json ;;
                   try_catch (JSON_parse historyData) (fun _ => ret [])
                 else ret []) ;;
     now <- newDate ;;
     let tweetRecord :=
       {| HistoryEntry.timestamp := toISOString now;
          HistoryEntry.text := tweetText;
          HistoryEntry.accounts := map accountSummary results |} in
     let history := history ++ [tweetRecord] in
     let history :=
       if Z.of_nat (length history) >? 100
       then arraySlice history (Z.of_nat (length history) - 100)
       else history in
     writeHistoryFile history ;;
     ret history)
    (fun _ => ret []).

(** [saveFailedTweet(tweetText, accountNumber)]. *)
Definition saveFailedTweet (tweetText : jsstring) (accountNumber : Z) : M unit :=
  try_catch
    (present <- existsSync failed_tweets_json ;;
     failedTweets <- (if present : bool then
                        failedData <- readFileSync failed_tweets_json ;;
                        try_catch (JSON_parse failedData) (fun _ => ret [])
                      else ret []) ;;
     now <- newDate ;;
     let failedTweets :=
       failedTweets ++ [ {| FailedTweet.timestamp := toISOString now;
                            FailedTweet.text := tweetText;
                            FailedTweet.accountNumber := accountNumber |} ] in
     writeFailedFile failedTweets)
    (fun _ => ret tt).

(* --------------------------------------------------------------------- *)
(** ** twitterService.js: delay policy                                    *)
(* --------------------------------------------------------------------- *)

(** A count as a JavaScript number. *)
Definition toNumber (n : nat) : float :=
  PrimFloat.of_uint63 (Uint63.of_Z (Z.of_nat n)).

(** [tweet.accounts.find(a => a.accountNumber === accountNumber)]. *)
Definition findAccount (accountNumber : Z) (tweet : HistoryEntry.t)
  : option AccountOutcome.t :=
  find (fun a => AccountOutcome.accountNumber a =? accountNumber)
       (HistoryEntry.accounts tweet).

(** The [for] loop of [calculateSmartDelay]: [newestFirst] are the entries
    [history[i]] for [i] from [history.length - 1] down to [0] that the
    loop has not reached yet. *)
Fixpoint collectAccountHistory (accountNumber : Z)
    (newestFirst : list HistoryEntry.t) (accountHistory : list AccountOutcome.t)
  : list AccountOutcome.t :=
  match newestFirst with
  | [] => accountHistory
  | tweet :: older =>
      if (length accountHistory <? 10)%nat then
        match findAccount accountNumber tweet with
        | Some accountTweet =>
            collectAccountHistory accountNumber older (accountHistory ++ [accountTweet])
        | None => collectAccountHistory accountNumber older accountHistory
        end
      else accountHistory
  end.

(** [calculateSmartDelay(accountNumber, history)]; [None] is a [history]
    that is [null] or [undefined].  Nothing in the body can throw on
    well-formed entries, so the [catch] fallback is not reached. *)
Definition calculateSmartDelay (accountNumber : Z)
    (history : option (list HistoryEntry.t)) : Z :=
  let defaultDelay := 30000 in
  match history with
  | None => defaultDelay
  | Some [] => defaultDelay
  | Some history =>
      let accountHistory := collectAccountHistory accountNumber (rev history) [] in
      if (length accountHistory <? 3)%nat then defaultDelay
      else
        let errorCount :=
          length (filter (fun t => negb (AccountOutcome.success t)) accountHistory) in
        let errorRate := PrimFloat.div (toNumber errorCount)
                                       (toNumber (length accountHistory)) in
        if PrimFloat.ltb 0.5%float errorRate then 120000
        else if PrimFloat.ltb 0.3%float errorRate then 60000
        else if PrimFloat.ltb 0.1%float errorRate then 45000
        else 30000
  end.

(* --------------------------------------------------------------------- *)
(** ** twitterService.js: error classifier                                *)
(* --------------------------------------------------------------------- *)

(** [String(n)] for an integer (of magnitude below 10^21, where JavaScript
    still prints plain decimal digits). *)
Definition NumberToString (n : Z) : jsstring :=
  js (NilZero.string_of_int (Z.to_int n)).

(** [`${error.code}`]. *)
Definition codeToString (c : ErrorCode) : jsstring :=
  match c with
  | NoCode => js "undefined"
  | NumericCode n => NumberToString n
  | TextCode s => s
  end.

(** Truthiness of [error.code]. *)
Definition codeIsTruthy (c : ErrorCode) : bool :=
  match c with
  | NoCode => false
  | NumericCode n => negb (n =? 0)
  | TextCode s => negb (jseqb s [])
  end.

(** [error.code === n]. *)
Definition codeIs (c : ErrorCode) (n : Z) : bool :=
  match c with
  | NumericCode m => m =? n
  | _ => false
  end.

(** The [switch] over [error.code]: explanation and suggestion.  The
    default case leaves the suggestion it is given. *)
Definition explainCode (c : ErrorCode) (suggestion : jsstring)
  : jsstring * jsstring :=
  if codeIs c 32 then
    (js "Authentication error.",
     js "Check your Twitter API credentials in accounts.txt.")
  else if codeIs c 88 then
    (js "Rate limit exceeded.",
     js "Wait a while before trying again or increase the delay between requests.")
  else if codeIs c 89 then
    (js "Token invalid or expired.",
     js "Regenerate your access token and update accounts.txt.")
  else if codeIs c 99 then
    (js "Invalid or expired token.",
     js "Regenerate your access token and update accounts.txt.")
  else if codeIs c 161 then
    (js "You don't have permission to follow.",
     js "Check if your app has the proper permissions.")
  else if codeIs c 179 then
    (js "Not authorized to view this tweet or account.",
     js "The account may be private or suspended.")
  else if codeIs c 187 then
    (js "Duplicate tweet content.",
     js "Modify the tweet text to make it unique.")
  else if codeIs c 215 then
    (js "Bad authentication data.",
     js "Verify your API credentials in accounts.txt.")
  else if codeIs c 226 then
    (js "Tweet content appears automated.",
     js "Make your tweet content more unique.")
  else if codeIs c 261 then
    (js "Application is not permitted to perform this action.",
     js "Verify your app has the necessary permissions.")
  else if codeIs c 326 then
    (js "Account temporarily locked.",
     js "Check your Twitter account for any security notices.")
  else if codeIs c 401 then
    (js "Unauthorized access.",
     js "Check your API credentials and account permissions.")
  else if codeIs c 403 then
    (js "Forbidden - Access denied.",
     js "Your app may lack write permissions. Check Twitter Developer Portal.")
  else if codeIs c 404 then
    (js "Resource not found.",
     js "The endpoint or resource you're trying to access doesn't exist.")
  else if codeIs c 429 then
    (js "Too many requests / Rate limit exceeded.",
     js "Increase the delay between requests and reduce posting frequency.")
  else if codeIs c 503 then
    (js "Twitter service unavailable.",
     js "Twitter is experiencing issues. Try again later.")
  else (js "Twitter error code: " ++ codeToString c, suggestion).

(** U+274C, the cross mark that opens the message. *)
Definition CROSS_MARK : jsstring := [10060%N].

(** The message that [parseTwitterError] builds for an error object. *)
Definition describeError (error : JsError) (accountNumber : Z) : jsstring :=
  let errorMessage := orElse (message error) [] in
  let explanation :=
    js "Twitter account #" ++ NumberToString accountNumber
    ++ js " encountered an error." in
  let suggestion := js "Please try again later." in
  let '(explanation, suggestion) :=
    if codeIsTruthy (code error) then explainCode (code error) suggestion
    else if includes errorMessage (js "duplicate") then
      (js "Duplicate tweet content.",
       js "Modify the tweet content to make it unique or add a timestamp/random characters.")
    else if includes errorMessage (js "authenticate") then
      (js "Authentication failed.",
       js "Check your Twitter API credentials in accounts.txt.")
    else if includes errorMessage (js "rate limit") then
      (js "Rate limit exceeded.",
       js "Wait a while before trying again or increase delay between requests.")
    else (explanation, suggestion) in
  CROSS_MARK ++ js " " ++ explanation ++ js " " ++ suggestion.

(** [parseTwitterError(error, accountNumber)].  Reading [error.message] of
    [null] or [undefined] is a [TypeError]. *)
Definition parseTwitterError (error : Thrown) (accountNumber : Z) : M jsstring :=
  match error with
  | ThrownNullish => throw TypeError
  | ThrownError error => ret (describeError error accountNumber)
  end.

(** [twitterError.code]. *)
Definition thrownCode (error : Thrown) : M ErrorCode :=
  match error with
  | ThrownNullish => throw TypeError
  | ThrownError e => ret (code e)
  end.

(* --------------------------------------------------------------------- *)
(** ** twitterService.js: the posting primitive                           *)
(* --------------------------------------------------------------------- *)

(** [config.twitterConfig?.retryDelay || 300]: a missing or zero delay
    falls back to 300 seconds. *)
Definition retryDelayOr300 (config : Config) : Z :=
  match twitterConfig config with
  | Some {| retryDelay := Some d |} => if d =? 0 then 300 else d
  | _ => 300
  end.

(** [config.twitterConfig?.maxRetries || 1]. *)
Definition maxRetriesOr1 (config : Config) : Z :=
  match twitterConfig config with
  | Some {| maxRetries := Some r |} => if r =? 0 then 1 else r
  | _ => 1
  end.

(** [!response || !response.data || !response.data.id] is false. *)
Definition hasTweetId (response : option TweetResponse) : bool :=
  match responseId response with
  | Some (_ :: _) => true
  | _ => false
  end.

(** The text that the duplicate-content branch retries with. *)
Definition uniqueTweet (tweetText timestamp : jsstring) : jsstring :=
  if includes tweetText (js "@giverep") then
    let tagIndex := indexOf tweetText (js "@giverep") in
    substring tweetText 0 tagIndex ++ js "[" ++ timestamp ++ js "] "
    ++ substringFrom tweetText tagIndex
  else tweetText ++ js " [" ++ timestamp ++ js "]".

(** How one activation of [postTweetWithClient] ends: with a result
    object, or with [return postTweetWithClient(...)], a call that is made
    outside both [try] blocks of the activation that returns it. *)
Inductive Returned :=
| ReturnValue (result : PostResult.t)
| ReturnCall (tweetText : jsstring) (retryCount : Z).

Definition failedResult (error : Thrown) (accountNumber : Z) : PostResult.t :=
  {| PostResult.success := false;
     PostResult.response := None;
     PostResult.error := Some error;
     PostResult.accountNumber := accountNumber |}.

(** The body of [postTweetWithClient], up to its [return]. *)
Definition postTweetWithClient_body (tweetText : jsstring)
    (twitterClientObj : ClientObj.t) (config : Config) (retryCount : Z)
  : M Returned :=
  let twitterClient := ClientObj.client twitterClientObj in
  let accountNumber := ClientObj.accountNumber twitterClientObj in
  let maxRetries := maxRetriesOr1 config in
  try_catch
    (try_catch
       ((if jslength tweetText =? 0
         then throw (Error (js "Tweet text is empty")) else ret tt) ;;
        (if jslength tweetText >? 280
         then throw (Error (js "Tweet text exceeds maximum length of 280 characters"))
         else ret tt) ;;
        response <- v2_tweet twitterClient tweetText ;;
        (if negb (hasTweetId response)
         then throw (Error (js "Invalid response from Twitter API")) else ret tt) ;;
        ret (ReturnValue {| PostResult.success := true;
                            PostResult.response := response;
                            PostResult.error := None;
                            PostResult.accountNumber := accountNumber |}))
       (fun twitterError =>
          detailedError <- parseTwitterError twitterError accountNumber ;;
          errorCode <- thrownCode twitterError ;;
          if codeIs errorCode 429 && (retryCount >? 0) then
            (let waitTime := retryDelayOr300 config * 1000 in
             sleep waitTime ;;
             ret (ReturnCall tweetText (retryCount - 1)))
          else if codeIs errorCode 187 && (retryCount >? 0) then
            (now <- newDate ;;
             let timestamp := slice (toISOString now) 11 19 in
             sleep 2000 ;;
             ret (ReturnCall (uniqueTweet tweetText timestamp) (retryCount - 1)))
          else
            (saveFailedTweet tweetText accountNumber ;;
             ret (ReturnValue (failedResult twitterError accountNumber)))))
    (fun error =>
       ret (ReturnValue (failedResult error accountNumber))).

(** Case analysis on a scrutinee of the goal that has no [match] inside. *)
Ltac case_innermost :=
  match goal with
  | |- context [match ?scrutinee with _ => _ end] =>
      tryif (match scrutinee with context [match _ with _ => _ end] => idtac end)
      then fail
      else destruct scrutinee eqn:?
  end.

(** A retry is returned only from a positive budget, with one unit less. *)
Lemma postTweetWithClient_body_call tweetText obj config retryCount w text' retry' w' :
  postTweetWithClient_body tweetText obj config retryCount w
  = (Normal (ReturnCall text' retry'), w') ->
  retry' = retryCount - 1 /\ 0 < retryCount.
Proof.
  unfold postTweetWithClient_body, try_catch, bind, ret, throw, sleep, newDate.
  repeat case_innermost;
    intros H; inversion H; subst;
    repeat match goal with
           | E : _ && _ = true |- _ => apply andb_prop in E; destruct E
           end;
    split; try reflexivity; try lia.
Qed.

Definition inspect {A} (a : A) : { b : A | a = b } := exist _ a eq_refl.

(** [postTweetWithClient(tweetText, twitterClientObj, config, retryCount)]:
    the body, then the call it returned, if any. *)
Equations? postTweetWithClient (tweetText : jsstring) (twitterClientObj : ClientObj.t)
    (config : Config) (retryCount : Z) (w : World)
  : Completion PostResult.t * World by wf (Z.to_nat retryCount) lt :=
  postTweetWithClient tweetText twitterClientObj config retryCount w
    with inspect (postTweetWithClient_body tweetText twitterClientObj config retryCount w) := {
    | exist _ (Normal (ReturnValue result), w') _ => (Normal result, w');
    | exist _ (Normal (ReturnCall text' retry'), w') _ =>
        postTweetWithClient text' twitterClientObj config retry' w';
    | exist _ (Throw e, w') _ => (Throw e, w') }.
Proof.
  match goal with
  | H : postTweetWithClient_body _ _ _ _ _ = _ |- _ =>
      apply postTweetWithClient_body_call in H; lia
  end.
Qed.

(* --------------------------------------------------------------------- *)
(** ** twitterService.js: the retry pass over the failure queue           *)
(* --------------------------------------------------------------------- *)

(** The object [tweetsByAccount].  Its property keys are the decimal
    strings of account numbers, so a key is kept as the number it prints
    ([parseInt] gives it back); properties are listed in the order of
    their creation. *)
Definition TweetsByAccount := list (Z * list FailedTweet.t).

(** [if (!obj[k]) obj[k] = []; obj[k].push(tweet)] for
    [k = tweet.accountNumber]. *)
Fixpoint pushTweet (tweetsByAccount : TweetsByAccount) (tweet : FailedTweet.t)
  : TweetsByAccount :=
  match tweetsByAccount with
  | [] => [(FailedTweet.accountNumber tweet, [tweet])]
  | (k, accountTweets) :: rest =>
      if k =? FailedTweet.accountNumber tweet
      then (k, accountTweets ++ [tweet]) :: rest
      else (k, accountTweets) :: pushTweet rest tweet
  end.

(** [obj[k]] for a key that the object has. *)
Fixpoint getTweets (tweetsByAccount : TweetsByAccount) (key : Z)
  : list FailedTweet.t :=
  match tweetsByAccount with
  | [] => []
  | (k, accountTweets) :: rest =>
      if k =? key then accountTweets else getTweets rest key
  end.

(** A key is an array index when it prints an integer from 0 to 2^32 - 2. *)
Definition isArrayIndex (key : Z) : bool := (0 <=? key) && (key <? 4294967295).

Fixpoint insertKey (key : Z) (sorted : list Z) : list Z :=
  match sorted with
  | [] => [key]
  | k :: rest => if key <=? k then key :: sorted else k :: insertKey key rest
  end.

Definition sortKeys (keys : list Z) : list Z := fold_right insertKey [] keys.

(** The keys as [for (const key in obj)] visits them: array indices in
    ascending order, then the other keys in creation order. *)
Definition forInKeys (tweetsByAccount : TweetsByAccount) : list Z :=
  let keys := map fst tweetsByAccount in
  sortKeys (filter isArrayIndex keys)
  ++ filter (fun k => negb (isArrayIndex k)) keys.

(** [twitterClients.find(c => c.accountNumber === n)]. *)
Definition findClient (twitterClients : list ClientObj.t) (n : Z)
  : option ClientObj.t :=
  find (fun c => ClientObj.accountNumber c =? n) twitterClients.

(** The body of the [for ... in] loop, for one account. *)
Definition retryAccount (twitterClients : list ClientObj.t) (config : Config)
    (tweetsByAccount : TweetsByAccount) (accountNumber : Z) : M unit :=
  let accountTweets := getTweets tweetsByAccount accountNumber in
  match findClient twitterClients accountNumber with
  | None => ret tt
  | Some clientObj =>
      forOf accountTweets (fun tweet =>
        try_catch
          (postTweetWithClient (FailedTweet.text tweet) clientObj config 1 ;;
           sleep 30000)
          (fun _ => ret tt))
  end.

(** [retryFailedTweets(twitterClients, config)]. *)
Definition retryFailedTweets (twitterClients : list ClientObj.t) (config : Config)
  : M bool :=
  try_catch
    (present <- existsSync failed_tweets_json ;;
     if negb present then ret false
     else
       failedData <- readFileSync failed_tweets_json ;;
       parsed <- try_catch (failedTweets <- JSON_parse failedData ;; ret (Some failedTweets))
                           (fun _ => ret None) ;;
       match parsed with
       | None => ret false
       | Some failedTweets =>
           if Z.of_nat (length failedTweets) =? 0 then ret false
           else
             let tweetsByAccount := fold_left pushTweet failedTweets [] in
             forOf (forInKeys tweetsByAccount)
                   (retryAccount twitterClients config tweetsByAccount) ;;
             writeFailedFile [] ;;
             ret true
       end)
    (fun _ => ret false).

(* --------------------------------------------------------------------- *)
(** ** twitterService.js: the lazy client loader                          *)
(* --------------------------------------------------------------------- *)

(** [line.trim() === '' || line.trim().startsWith('#')]. *)
Definition isBlankOrComment (line : jsstring) : bool :=
  jseqb (trim line) [] || startsWith (trim line) [HASH].

(** Truthiness of a string. *)
Definition nonEmpty (s : jsstring) : bool := negb (jseqb s []).

(** The callback of [fileContent.split('\n').forEach], on the two
    variables it updates. *)
Definition scanLine (fileContent : jsstring) (accountNumber : Z)
    (state : Z * option Account.t) (line : jsstring) : Z * option Account.t :=
  let '(lineCount, account) := state in
  let lineCount := lineCount + 1 in
  if isBlankOrComment line then (lineCount, account)
  else
    match map trim (split COMMA line) with
    | [appKey; appSecret; accessToken; accessSecret] =>
        let currentAccountNumber :=
          lineCount
          - Z.of_nat (length (filter isBlankOrComment (split LF fileContent))) in
        if currentAccountNumber =? accountNumber then
          if nonEmpty appKey && nonEmpty appSecret
             && nonEmpty accessToken && nonEmpty accessSecret
          then (lineCount,
                Some {| Account.appKey := appKey;
                        Account.appSecret := appSecret;
                        Account.accessToken := accessToken;
                        Account.accessSecret := accessSecret;
                        Account.accountNumber := accountNumber |})
          else (lineCount, account)
        else (lineCount, account)
    | _ => (lineCount, account)
    end.

(** [lazyLoadTwitterClient(accountNumber, twitterClients)], given the
    contents of [accounts.txt] ([None] when reading it fails): the client
    returned, if any, and the array of clients afterwards. *)
Definition lazyLoadTwitterClient (accounts_txt : option jsstring)
    (accountNumber : Z) (twitterClients : list ClientObj.t)
  : option ClientObj.t * list ClientObj.t :=
  match findClient twitterClients accountNumber with
  | Some existingClient => (Some existingClient, twitterClients)
  | None =>
      match accounts_txt with
      | None => (None, twitterClients)
      | Some fileContent =>
          let '(_, account) :=
            fold_left (scanLine fileContent accountNumber)
                      (split LF fileContent) (0, None) in
          match account with
          | Some account =>
              let client :=
                {| ClientObj.client :=
                     {| appKey := Account.appKey account;
                        appSecret := Account.appSecret account;
                        accessToken := Account.accessToken account;
                        accessSecret := Account.accessSecret account |};
                   ClientObj.accountNumber := Account.accountNumber account |} in
              (Some client, twitterClients ++ [client])
          | None => (None, twitterClients)
          end
      end
  end.

(* --------------------------------------------------------------------- *)
(** ** The Delay Policy as the specification words it                     *)
(* --------------------------------------------------------------------- *)

(** The outcome that a list of account outcomes holds for an account: the
    first one that carries the account's number, and none when no element
    carries it.  Nothing here refers to the code. *)
Fixpoint recordedOutcome (accountNumber : Z) (accounts : list AccountOutcome.t)
  : option AccountOutcome.t :=
  match accounts with
  | [] => None
  | outcome :: others =>
      if Z.eq_dec (AccountOutcome.accountNumber outcome) accountNumber
      then Some outcome
      else recordedOutcome accountNumber others
  end.

(** The outcomes recorded for an account, one for each history entry that
    has one, from the newest entry to the oldest. *)
Definition outcomesNewestFirst (accountNumber : Z) (history : list HistoryEntry.t)
  : list AccountOutcome.t :=
  flat_map (fun tweet =>
              match recordedOutcome accountNumber (HistoryEntry.accounts tweet) with
              | Some outcome => [outcome]
              | None => []
              end)
           (rev history).

(** At most the 10 most recent of them. *)
Definition sampledOutcomes (accountNumber : Z) (history : list HistoryEntry.t)
  : list AccountOutcome.t :=
  firstn 10 (outcomesNewestFirst accountNumber history).

Definition failedCount (sample : list AccountOutcome.t) : nat :=
  length (filter (fun t => negb (AccountOutcome.success t)) sample).

(** The ladder over an exact error rate: strict comparisons, first match
    wins. *)
Definition delayLadder (r : Q) : Z :=
  if Qlt_le_dec (1 # 2) r then 120000
  else if Qlt_le_dec (3 # 10) r then 60000
  else if Qlt_le_dec (1 # 10) r then 45000
  else 30000.

(** [computeDelay(accountNumber, history)] of the specification. *)
Definition computeDelay (accountNumber : Z) (history : option (list HistoryEntry.t)) : Z :=
  match history with
  | None => 30000
  | Some history =>
      let sample := sampledOutcomes accountNumber history in
      if (length sample <? 3)%nat then 30000
      else delayLadder (Z.of_nat (failedCount sample) # Pos.of_nat (length sample))
  end.

(* --------------------------------------------------------------------- *)
(** ** Observations on a world                                            *)
(* --------------------------------------------------------------------- *)

Definition isTweeted (e : Event) : bool :=
  match e with
  | Tweeted _ _ => true
  | _ => false
  end.

(** The number of calls made to the provider's tweet endpoint so far. *)
Definition tweetsSent (w : World) : nat := length (filter isTweeted (trace w)).

(** The failure queue that [saveFailedTweet] starts from: the stored
    array, or the empty one when the file is missing or does not parse. *)
Definition queueOf (w : World) : list FailedTweet.t :=
  match failed_tweets_json w with
  | Some (Items q) => q
  | _ => []
  end.

(** The record that [saveFailedTweet] appends in world [w]. *)
Definition failedRecord (w : World) (tweetText : jsstring) (accountNumber : Z)
  : FailedTweet.t :=
  {| FailedTweet.timestamp := toISOString (clock w (clockReads w));
     FailedTweet.text := tweetText;
     FailedTweet.accountNumber := accountNumber |}.

(** The history that [saveTweetHistory] starts from. *)
Definition historyOf (w : World) : list HistoryEntry.t :=
  match tweet_history_json w with
  | Some (Items h) => h
  | _ => []
  end.

(** The record that [saveTweetHistory] appends in world [w]. *)
Definition historyRecord (w : World) (tweetText : jsstring)
    (results : list PostResult.t) : HistoryEntry.t :=
  {| HistoryEntry.timestamp := toISOString (clock w (clockReads w));
     HistoryEntry.text := tweetText;
     HistoryEntry.accounts := map accountSummary results |}.

(** The last [n] elements of a list. *)
Definition keepLast {A} (n : nat) (xs : list A) : list A :=
  skipn (length xs - n) xs.

(** A computation that returns normally in every world. *)
Definition NoThrow {A} (m : M A) : Prop :=
  forall w, exists a w', m w = (Normal a, w').

(** The account that a line of [accounts.txt] yields for a requested
    number: none for a blank or comment line, and none unless the line
    splits into exactly four fields that are non-empty once trimmed. *)
Definition accountOfLine (line : jsstring) (accountNumber : Z) : option Account.t :=
  if isBlankOrComment line then None
  else match map trim (split COMMA line) with
       | [appKey; appSecret; accessToken; accessSecret] =>
           if nonEmpty appKey && nonEmpty appSecret
              && nonEmpty accessToken && nonEmpty accessSecret
           then Some {| Account.appKey := appKey;
                        Account.appSecret := appSecret;
                        Account.accessToken := accessToken;
                        Account.accessSecret := accessSecret;
                        Account.accountNumber := accountNumber |}
           else None
       | _ => None
       end.

(** The client object built from an account. *)
Definition clientOfAccount (account : Account.t) : ClientObj.t :=
  {| ClientObj.client :=
       {| appKey := Account.appKey account;
          appSecret := Account.appSecret account;
          accessToken := Account.accessToken account;
          accessSecret := Account.accessSecret account |};
     ClientObj.accountNumber := Account.accountNumber account |}.

(** The number of blank and comment lines of a file. *)
Definition skippedLines (fileContent : jsstring) : Z :=
  Z.of_nat (length (filter isBlankOrComment (split LF fileContent))).

(* --------------------------------------------------------------------- *)
(** ** The state machine of one post call                                 *)
(* --------------------------------------------------------------------- *)

(** The world after [saveFailedTweet(tweetText, accountNumber)]. *)
Definition afterSaveFailed (w : World) (tweetText : jsstring) (accountNumber : Z)
  : World :=
  setFailedFile (queueOf w ++ [failedRecord w tweetText accountNumber]) (tick w).

(** The ways one activation of [postTweetWithClient] can go, from a
    pending call in world [w] to what it returns and the world it leaves:
    the two validation failures, a post, a response without identifier,
    the two retries, a permanent provider failure, and a thrown [null]. *)
Inductive Activation (tweetText : jsstring) (obj : ClientObj.t) (config : Config)
    (retryCount : Z) (w : World) : Returned -> World -> Prop :=
| act_empty :
    jslength tweetText = 0 ->
    Activation tweetText obj config retryCount w
      (ReturnValue (failedResult (Error (js "Tweet text is empty"))
                                 (ClientObj.accountNumber obj)))
      (afterSaveFailed w tweetText (ClientObj.accountNumber obj))
| act_too_long :
    280 < jslength tweetText ->
    Activation tweetText obj config retryCount w
      (ReturnValue
         (failedResult
            (Error (js "Tweet text exceeds maximum length of 280 characters"))
            (ClientObj.accountNumber obj)))
      (afterSaveFailed w tweetText (ClientObj.accountNumber obj))
| act_posted response :
    0 < jslength tweetText <= 280 ->
    provider w (ClientObj.client obj) (trace w) tweetText = Resolved response ->
    hasTweetId response = true ->
    Activation tweetText obj config retryCount w
      (ReturnValue {| PostResult.success := true;
                      PostResult.response := response;
                      PostResult.error := None;
                      PostResult.accountNumber := ClientObj.accountNumber obj |})
      (logEvent (Tweeted (ClientObj.client obj) tweetText) w)
| act_no_identifier response :
    0 < jslength tweetText <= 280 ->
    provider w (ClientObj.client obj) (trace w) tweetText = Resolved response ->
    hasTweetId response = false ->
    Activation tweetText obj config retryCount w
      (ReturnValue (failedResult (Error (js "Invalid response from Twitter API"))
                                 (ClientObj.accountNumber obj)))
      (afterSaveFailed (logEvent (Tweeted (ClientObj.client obj) tweetText) w)
                       tweetText (ClientObj.accountNumber obj))
| act_rate_limited e :
    0 < jslength tweetText <= 280 ->
    provider w (ClientObj.client obj) (trace w) tweetText = Rejected (ThrownError e) ->
    codeIs (code e) 429 = true -> 0 < retryCount ->
    Activation tweetText obj config retryCount w
      (ReturnCall tweetText (retryCount - 1))
      (logEvent (Slept (retryDelayOr300 config * 1000))
                (logEvent (Tweeted (ClientObj.client obj) tweetText) w))
| act_duplicate e :
    0 < jslength tweetText <= 280 ->
    provider w (ClientObj.client obj) (trace w) tweetText = Rejected (ThrownError e) ->
    codeIs (code e) 187 = true -> 0 < retryCount ->
    Activation tweetText obj config retryCount w
      (ReturnCall
         (uniqueTweet tweetText (slice (toISOString (clock w (clockReads w))) 11 19))
         (retryCount - 1))
      (logEvent (Slept 2000)
                (tick (logEvent (Tweeted (ClientObj.client obj) tweetText) w)))
| act_rejected e :
    0 < jslength tweetText <= 280 ->
    provider w (ClientObj.client obj) (trace w) tweetText = Rejected (ThrownError e) ->
    retryCount <= 0 \/ (codeIs (code e) 429 = false /\ codeIs (code e) 187 = false) ->
    Activation tweetText obj config retryCount w
      (ReturnValue (failedResult (ThrownError e) (ClientObj.accountNumber obj)))
      (afterSaveFailed (logEvent (Tweeted (ClientObj.client obj) tweetText) w)
                       tweetText (ClientObj.accountNumber obj))
| act_rejected_nullish :
    0 < jslength tweetText <= 280 ->
    provider w (ClientObj.client obj) (trace w) tweetText = Rejected ThrownNullish ->
    Activation tweetText obj config retryCount w
      (ReturnValue (failedResult TypeError (ClientObj.accountNumber obj)))
      (logEvent (Tweeted (ClientObj.client obj) tweetText) w).

(* --------------------------------------------------------------------- *)
(** ** The retry pass as the specification words it                       *)
(* --------------------------------------------------------------------- *)

(** One queued entry goes through the posting primitive with a retry
    budget of 1, followed by the wait of 30 seconds. *)
Definition replayEntry (clientObj : ClientObj.t) (config : Config)
    (tweet : FailedTweet.t) : M unit :=
  postTweetWithClient (FailedTweet.text tweet) clientObj config 1 ;;
  sleep 30000.

(** The client that matches an account number: the first client of the
    array that carries the number, and none when no client carries it.
    Nothing here refers to the code. *)
Fixpoint matchingClient (accountNumber : Z) (twitterClients : list ClientObj.t)
  : option ClientObj.t :=
  match twitterClients with
  | [] => None
  | clientObj :: others =>
      if Z.eq_dec (ClientObj.accountNumber clientObj) accountNumber
      then Some clientObj
      else matchingClient accountNumber others
  end.

(** The group of an account: its entries of the queue, in the order of the
    queue; the group is skipped when no client has the account number. *)
Definition replayGroup (twitterClients : list ClientObj.t) (config : Config)
    (failedTweets : list FailedTweet.t) (accountNumber : Z) : M unit :=
  match matchingClient accountNumber twitterClients with
  | None => ret tt
  | Some clientObj =>
      forOf (filter (fun tweet => FailedTweet.accountNumber tweet =? accountNumber)
                    failedTweets)
            (replayEntry clientObj config)
  end.



(* --------------------------------------------------------------------- *)
(** ** Sample data                                                        *)
(* --------------------------------------------------------------------- *)

Definition sampleSession : TwitterApi :=
  {| appKey := js "key"; appSecret := js "secret";
     accessToken := js "token"; accessSecret := js "tokensecret" |}.

Definition sampleClient : ClientObj.t :=
  {| ClientObj.client := sampleSession; ClientObj.accountNumber := 1 |}.

Definition sampleConfig : Config := {| twitterConfig := None |}.

Definition duplicateError : JsError :=
  {| message := Some (js "Status is a duplicate."); code := NumericCode 187 |}.

Definition tweetPosted : ProviderOutcome :=
  Resolved (Some {| data := Some {| id := Some (js "1725") |} |}).

(** A provider that rejects the first call as duplicate content and
    accepts every later one. *)
Definition duplicateOnce (session : TwitterApi) (events : list Event)
    (text : jsstring) : ProviderOutcome :=
  if existsb isTweeted events then tweetPosted
  else Rejected (ThrownError duplicateError).

(** A world whose clock starts at 2023-11-14T22:13:20.000Z and advances
    one second per reading, with an empty history and no queue file. *)
Definition sampleWorld : World :=
  {| provider := duplicateOnce;
     clock := fun k => (1700000000000 + 1000 * N.of_nat k)%N;
     clockReads := 0;
     tweet_history_json := Some (Items []);
     failed_tweets_json := None;
     trace := [] |}.

Definition queued (tweetText : jsstring) (accountNumber : Z) : FailedTweet.t :=
  {| FailedTweet.timestamp := js "2023-11-14T22:00:00.000Z";
     FailedTweet.text := tweetText;
     FailedTweet.accountNumber := accountNumber |}.

(** The same world with three queued entries: two of account 1 around one
    of account 2, which has no client. *)
Definition queuedWorld : World :=
  {| provider := fun _ _ _ => tweetPosted;
     clock := clock sampleWorld;
     clockReads := 0;
     tweet_history_json := Some (Items []);
     failed_tweets_json :=
       Some (Items [queued (js "first") 1; queued (js "other") 2; queued (js "second") 1]);
     trace := [] |}.

(** A history of [failures] failed posts of account 1 followed by
    [successes] successful ones, one entry each. *)
Definition outcomeOf (ok : bool) : AccountOutcome.t :=
  {| AccountOutcome.accountNumber := 1;
     AccountOutcome.success := ok;
     AccountOutcome.simulated := false;
     AccountOutcome.tweetId := if ok then Some (js "1725") else None;
     AccountOutcome.error := if ok then None else Some (js "Unknown error") |}.

Definition entryOf (ok : bool) : HistoryEntry.t :=
  {| HistoryEntry.timestamp := js "2023-11-14T22:00:00.000Z";
     HistoryEntry.text := js "gm";
     HistoryEntry.accounts := [outcomeOf ok] |}.

Definition sampleHistory (failures successes : nat) : list HistoryEntry.t :=
  repeat (entryOf false) failures ++ repeat (entryOf true) successes.

(* --------------------------------------------------------------------- *)
(** ** aiService.js: the rest of the module                               *)
(* --------------------------------------------------------------------- *)

(** *** [detectLanguage] *)

Definition inRange (lo hi c : N) : bool := ((lo <=? c) && (c <=? hi))%N.

(** [/[lo-hi]/.test(text)]: some code unit of the text is in the range. *)
Definition hasCharIn (lo hi : N) (text : jsstring) : bool :=
  existsb (inRange lo hi) text.

(** The word characters of a pattern without flags: [[A-Za-z0-9_]]. *)
Definition isWordChar (c : N) : bool :=
  inRange 65 90 c || inRange 97 122 c || inRange 48 57 c || (c =? 95)%N.

(** The class [[A-Za-z0-9\s\W]]. *)
Definition englishClass (c : N) : bool :=
  inRange 65 90 c || inRange 97 122 c || inRange 48 57 c
  || isWhiteSpace c || negb (isWordChar c).

(** [/^[A-Za-z0-9\s\W]*$/.test(text)]: every code unit is in the class. *)
Definition allEnglishClass (text : jsstring) : bool := forallb englishClass text.

(** [langPatterns], in the order of its properties. *)
Definition langPatterns : list (jsstring * (jsstring -> bool)) :=
  [ (js "fa", hasCharIn 0x0600 0x06FF);
    (js "ar", hasCharIn 0x0621 0x064A);
    (js "en", allEnglishClass);
    (js "ru", hasCharIn 0x0400 0x04FF);
    (js "zh", hasCharIn 0x4E00 0x9FFF);
    (js "ja", hasCharIn 0x3040 0x30FF);
    (js "ko", hasCharIn 0xAC00 0xD7AF) ].

(** The [for ... of Object.entries(langPatterns)] loop. *)
Fixpoint firstMatching (patterns : list (jsstring * (jsstring -> bool)))
    (text : jsstring) : option jsstring :=
  match patterns with
  | [] => None
  | (lang, pattern) :: rest =>
      if pattern text then Some lang else firstMatching rest text
  end.

(** [detectLanguage(text)]. *)
Definition detectLanguage (text : jsstring) : jsstring :=
  match firstMatching langPatterns text with
  | Some lang => lang
  | None => js "unknown"
  end.

(** *** [initializeAI] *)

(** The three variables of [process.env] that the module reads. *)
Record ProcessEnv := {
  AIML_API_KEY : option jsstring;
  DEEPSEEK_API_KEY : option jsstring;
  OPENAI_API_KEY : option jsstring
}.

(** The three keys of the configuration object. *)
Record AiConfig := {
  aimlApiKey : option jsstring;
  deepseekApiKey : option jsstring;
  openaiApiKey : option jsstring
}.

(** The options an [OpenAI] client is constructed with. *)
Record OpenAI := { apiKey : jsstring; baseURL : option jsstring }.

(** [initializeAI(config)]: the client and the service name.  The module
    constant [DEFAULT_AIML_API_KEY] is a credential; its value is not
    repeated here and is an argument, the code using it only as a string
    that is empty or not. *)
Definition initializeAI (DEFAULT_AIML_API_KEY : jsstring) (env : ProcessEnv)
    (config : AiConfig) : option OpenAI * jsstring :=
  let AIML_API_KEY :=
    orElse (AIML_API_KEY env) (orElse (aimlApiKey config) DEFAULT_AIML_API_KEY) in
  let DEEPSEEK_API_KEY :=
    orElse (DEEPSEEK_API_KEY env) (orElse (deepseekApiKey config) []) in
  let OPENAI_API_KEY :=
    orElse (OPENAI_API_KEY env) (orElse (openaiApiKey config) []) in
  if nonEmpty AIML_API_KEY then (None, js "AIML")
  else if nonEmpty DEEPSEEK_API_KEY then
    (Some {| apiKey := DEEPSEEK_API_KEY;
             baseURL := Some (js "https://api.deepseek.com/v1") |},
     js "DeepSeek")
  else if nonEmpty OPENAI_API_KEY then
    (Some {| apiKey := OPENAI_API_KEY; baseURL := None |}, js "OpenAI")
  else (None, js "Fallback").

(** *** [getAlternativeAIText] *)

(** The predefined texts, as their UTF-16 code units. *)
Definition arabicText : jsstring :=
  [1605; 1588; 1585; 1608; 1593; 32; 71; 105; 118; 101; 82; 101; 112; 32;
   1593; 1604; 1609; 32; 1588; 1576; 1603; 1577; 32; 83; 117; 105; 32;
   1610; 1608; 1586; 1593; 32; 1575; 1604; 1570; 1606; 33; 32; 1575; 1606;
   1590; 1605; 32; 1608; 1588; 1575; 1585; 1603; 32; 1601; 1610; 32; 1575;
   1604; 1605; 1580; 1578; 1605; 1593; 32; 1604; 1604; 1581; 1589; 1608;
   1604; 32; 1593; 1604; 1609; 32; 1605; 1603; 1575; 1601; 1570; 1578; 46;
   32; 1587; 1575; 1585; 1593; 32; 1576; 1575; 1604; 1578; 1587; 1580;
   1610; 1604; 32; 1575; 1604; 1570; 1606; 32; 1602; 1576; 1604; 32; 1606;
   1601; 1575; 1584; 32; 1575; 1604; 1580; 1608; 1575; 1574; 1586]%N.

Definition spanishText : jsstring :=
  [161; 69; 108; 32; 97; 105; 114; 100; 114; 111; 112; 32; 100; 101; 32;
   71; 105; 118; 101; 82; 101; 112; 32; 101; 110; 32; 108; 97; 32; 114;
   101; 100; 32; 83; 117; 105; 32; 121; 97; 32; 101; 115; 116; 225; 32; 97;
   99; 116; 105; 118; 111; 33; 32; 218; 110; 101; 116; 101; 32; 121; 32;
   112; 97; 114; 116; 105; 99; 105; 112; 97; 32; 101; 110; 32; 108; 97; 32;
   99; 111; 109; 117; 110; 105; 100; 97; 100; 32; 112; 97; 114; 97; 32;
   111; 98; 116; 101; 110; 101; 114; 32; 114; 101; 99; 111; 109; 112; 101;
   110; 115; 97; 115; 46; 32; 161; 82; 101; 103; 237; 115; 116; 114; 97;
   116; 101; 32; 97; 104; 111; 114; 97; 32; 97; 110; 116; 101; 115; 32;
   100; 101; 32; 113; 117; 101; 32; 115; 101; 32; 97; 103; 111; 116; 101;
   110; 32; 108; 111; 115; 32; 112; 114; 101; 109; 105; 111; 115; 33]%N.

Definition koreanText : jsstring :=
  [71; 105; 118; 101; 82; 101; 112; 32; 54532; 47196; 51229; 53944; 44032;
   32; 83; 117; 105; 32; 45348; 53944; 50892; 53356; 50640; 49436; 32;
   50640; 50612; 46300; 47213; 51012; 32; 49884; 51089; 54664; 49845;
   45768; 45796; 33; 32; 51648; 44552; 32; 52280; 50668; 54616; 44256; 32;
   48372; 49345; 51012; 32; 48155; 51004; 49464; 50836; 46; 32; 52964;
   48036; 45768; 54000; 50640; 32; 44032; 51077; 54616; 44256; 32; 44221;
   54744; 51012; 32; 44277; 50976; 54616; 49464; 50836; 46]%N.

Definition frenchText : jsstring :=
  [80; 114; 111; 106; 101; 116; 32; 71; 105; 118; 101; 82; 101; 112; 32;
   115; 117; 114; 32; 108; 101; 32; 114; 233; 115; 101; 97; 117; 32; 83;
   117; 105; 32; 100; 105; 115; 116; 114; 105; 98; 117; 101; 32; 100; 101;
   115; 32; 116; 111; 107; 101; 110; 115; 33; 32; 82; 101; 106; 111; 105;
   103; 110; 101; 122; 32; 108; 97; 32; 99; 111; 109; 109; 117; 110; 97;
   117; 116; 233; 32; 112; 111; 117; 114; 32; 114; 101; 99; 101; 118; 111;
   105; 114; 32; 100; 101; 115; 32; 114; 233; 99; 111; 109; 112; 101; 110;
   115; 101; 115; 46; 32; 73; 110; 115; 99; 114; 105; 118; 101; 122; 45;
   118; 111; 117; 115; 32; 109; 97; 105; 110; 116; 101; 110; 97; 110; 116;
   32; 97; 118; 97; 110; 116; 32; 108; 97; 32; 102; 105; 110; 32; 100; 101;
   32; 108; 39; 97; 105; 114; 100; 114; 111; 112; 33]%N.

Definition chineseText : jsstring :=
  [71; 105; 118; 101; 82; 101; 112; 39033; 30446; 22312; 83; 117; 105;
   32593; 32476; 19978; 21457; 25918; 31354; 25237; 65281; 21152; 20837;
   31038; 21306; 24182; 21442; 19982; 20114; 21160; 26469; 33719; 21462;
   22870; 21169; 12290; 31435; 21363; 27880; 20876; 65292; 22870; 21169;
   26377; 38480; 65292; 20808; 21040; 20808; 24471; 65281]%N.

Definition japaneseText : jsstring :=
  [71; 105; 118; 101; 82; 101; 112; 12503; 12525; 12472; 12455; 12463;
   12488; 12399; 12289; 83; 117; 105; 12493; 12483; 12488; 12527; 12540;
   12463; 12391; 12456; 12450; 12489; 12525; 12483; 12503; 12434; 38283;
   22987; 12375; 12414; 12375; 12383; 65281; 20170; 12377; 12368; 21442;
   21152; 12375; 12390; 22577; 37228; 12434; 29554; 24471; 12375; 12390;
   12367; 12384; 12373; 12356; 12290; 12467; 12511; 12517; 12491; 12486;
   12451; 12395; 21442; 21152; 12375; 12390; 20307; 39443; 12434; 20849;
   26377; 12375; 12414; 12375; 12423; 12358; 12290]%N.

Definition englishText : jsstring :=
  js "GiveRep project on Sui network is now distributing airdrops! Join the community and earn rewards by participating. Register now before rewards run out!".

Definition persianText : jsstring :=
  [1662; 1585; 1608; 1688; 1607; 32; 71; 105; 118; 101; 82; 101; 112; 32;
   1583; 1585; 32; 1588; 1576; 1705; 1607; 32; 83; 117; 105; 32; 1575;
   1740; 1585; 1583; 1585; 1575; 1662; 32; 1585; 1575; 32; 1570; 1594;
   1575; 1586; 32; 1705; 1585; 1583; 1607; 32; 1575; 1587; 1578; 33; 32;
   1607; 1605; 1740; 1606; 32; 1581; 1575; 1604; 1575; 32; 1605; 1588;
   1575; 1585; 1705; 1578; 32; 1705; 1606; 1740; 1583; 32; 1608; 32; 1662;
   1575; 1583; 1575; 1588; 32; 1583; 1585; 1740; 1575; 1601; 1578; 32;
   1705; 1606; 1740; 1583; 46; 32; 1576; 1607; 32; 1580; 1575; 1605; 1593;
   1607; 32; 1576; 1662; 1740; 1608; 1606; 1583; 1740; 1583; 32; 1608; 32;
   1578; 1580; 1585; 1576; 1607; 32; 1582; 1608; 1583; 32; 1585; 1575; 32;
   1576; 1607; 32; 1575; 1588; 1578; 1585; 1575; 1705; 32; 1576; 1711;
   1584; 1575; 1585; 1740; 1583; 33]%N.

Definition languages : list jsstring :=
  [arabicText; spanishText; koreanText; frenchText; chineseText; japaneseText;
   englishText; persianText].

(** The text returned by the [catch] of [getAlternativeAIText]. *)
Definition lastResortText : jsstring :=
  js "GiveRep airdrop on Sui network is now live! Join the community and earn rewards by participating.".

(** [getAlternativeAIText()], given the value of [Math.random()].  The
    index [Math.floor(random * languages.length)] is exact, the length
    being 8; an index outside the array gives [undefined], whose
    [substring] throws into the [catch]. *)
Definition getAlternativeAIText (random : Q) : jsstring :=
  let index := Qfloor (random * inject_Z (Z.of_nat (length languages))) in
  match (if index <? 0 then None else nth_error languages (Z.to_nat index)) with
  | Some randomLang => randomLang
  | None => lastResortText
  end.

(* --------------------------------------------------------------------- *)
(** ** twitterService.js: the rest of the module                          *)
(* --------------------------------------------------------------------- *)

(** [initializeTwitterClients(accounts)]; [None] is an [accounts] that is
    [null] or [undefined]. *)
Definition initializeTwitterClients (accounts : option (list Account.t))
  : list ClientObj.t :=
  match accounts with
  | None => []
  | Some [] => []
  | Some accounts => map clientOfAccount accounts
  end.

(** An element of the array [twitterClients] as [postTweetToAllAccounts]
    sees it: the object, and the identity by which [!==] compares it. *)
Module ClientRef.
Record t := { address : nat; object : ClientObj.t }.
End ClientRef.

(** The [for ... of] loop of [postTweetToAllAccounts]: [lastAddress] is
    the identity of [twitterClients[twitterClients.length - 1]],
    [remaining] the clients still to visit and [results] the array filled
    so far. *)
Fixpoint postToClients (tweetText : jsstring) (config : Config) (lastAddress : nat)
    (remaining : list ClientRef.t) (results : list PostResult.t)
  : M (list PostResult.t) :=
  match remaining with
  | [] => ret results
  | clientObj :: rest =>
      result <- postTweetWithClient tweetText (ClientRef.object clientObj) config
                  (maxRetriesOr1 config) ;;
      let results := results ++ [result] in
      history <- saveTweetHistory tweetText results ;;
      (if negb (ClientRef.address clientObj =? lastAddress)%nat then
         let delayMs :=
           calculateSmartDelay (ClientObj.accountNumber (ClientRef.object clientObj))
                               (Some history) in
         sleep delayMs
       else ret tt) ;;
      postToClients tweetText config lastAddress rest results
  end.

(** [postTweetToAllAccounts(tweetText, twitterClients, config)]. *)
Definition postTweetToAllAccounts (tweetText : jsstring)
    (twitterClients : option (list ClientRef.t)) (config : Config)
  : M (list PostResult.t) :=
  match twitterClients with
  | None => ret []
  | Some [] => ret []
  | Some (first :: others) =>
      postToClients tweetText config (ClientRef.address (last others first))
                    (first :: others) []
  end.

(** [getTweetHistory()].  [fileExists] comes from the configuration
    module, which is not part of these sources: its call on the history
    path is an argument, a computation that answers a boolean or throws. *)
Definition getTweetHistory (fileExists : M bool) : M (list HistoryEntry.t) :=
  try_catch
    (present <- fileExists ;;
     if negb present then ret []
     else
       historyData <- readFileSync tweet_history_json ;;
       JSON_parse historyData)
    (fun _ => ret []).

(** The two posting functions as a caller reaches them, with a client
    object and a configuration that may be [null] or [undefined] ([None]).
    [postTweetWithClient] destructures [twitterClientObj] and reads
    [config.twitterConfig] on its first two lines, before its [try], and
    [postTweetToAllAccounts] reads [config.twitterConfig] in its loop and
    has no [try]: on a missing object either read is a [TypeError] that
    nothing catches.  A retry passes the same two objects on. *)
Module Nullable.

Definition postTweetWithClient (tweetText : jsstring)
    (twitterClientObj : option ClientObj.t) (config : option Config)
    (retryCount : Z) : M PostResult.t :=
  match twitterClientObj with
  | None => throw TypeError
  | Some twitterClientObj =>
      match config with
      | None => throw TypeError
      | Some config => postTweetWithClient tweetText twitterClientObj config retryCount
      end
  end.

Definition postTweetToAllAccounts (tweetText : jsstring)
    (twitterClients : option (list ClientRef.t)) (config : option Config)
  : M (list PostResult.t) :=
  match twitterClients with
  | None => ret []
  | Some [] => ret []
  | Some twitterClients =>
      match config with
      | None => throw TypeError
      | Some config => postTweetToAllAccounts tweetText (Some twitterClients) config
      end
  end.

End Nullable.

(** The calls to the provider among some events, and the session they
    were made with. *)
Definition callsIn (events : list Event) : nat := length (filter isTweeted events).

Definition calledWith (session : TwitterApi) (e : Event) : Prop :=
  match e with
  | Tweeted used _ => used = session
  | _ => True
  end.

(** The events of one client's turn in a run over all accounts: at most
    [1 + budget] calls to the provider, each with the session of that
    client. *)
Definition callsFor (budget : Z) (clientObj : ClientRef.t) (events : list Event)
  : Prop :=
  (callsIn events <= S (Z.to_nat budget))%nat
  /\ Forall (calledWith (ClientObj.client (ClientRef.object clientObj))) events.

(** The number of timed waits so far. *)
Definition isSlept (e : Event) : bool :=
  match e with
  | Slept _ => true
  | _ => false
  end.

Definition sleepsDone (w : World) : nat := length (filter isSlept (trace w)).

(** A provider that rejects every call with [reason]. *)
Definition rejecting (reason : Thrown) (session : TwitterApi) (events : list Event)
    (text : jsstring) : ProviderOutcome :=
  Rejected reason.

Definition worldWith
    (provider : TwitterApi -> list Event -> jsstring -> ProviderOutcome) : World :=
  {| provider := provider;
     clock := clock sampleWorld;
     clockReads := 0;
     tweet_history_json := None;
     failed_tweets_json := None;
     trace := [] |}.

Definition sampleAccountsFile : jsstring :=
  js "# accounts" ++ [LF] ++ js "k1,s1,t1,a1" ++ [LF] ++ js "k2, s2 ,t2,a2".

(** What a call of [postTweetWithClient] for account [accountNumber] with
    budget [retryCount] does, from world [w] to its outcome: it returns a
    result for the account; the provider, the clock and the history file
    are as before; it waits at most [retryCount] times, once before each
    further call to the provider; a success carries an identifier and
    leaves the failure queue alone; a failure carries its error and either
    has appended one record for the account to the queue or, for the
    [TypeError] of a thrown [null], has left the queue alone. *)
Definition PostEffects (accountNumber : Z) (retryCount : Z) (w : World)
    (out : Completion PostResult.t * World) : Prop :=
  exists result w',
    out = (Normal result, w')
    /\ PostResult.accountNumber result = accountNumber
    /\ provider w' = provider w /\ clock w' = clock w
    /\ tweet_history_json w' = tweet_history_json w
    /\ (sleepsDone w <= sleepsDone w' <= sleepsDone w + Z.to_nat retryCount)%nat
    /\ (tweetsSent w + (sleepsDone w' - sleepsDone w) <= tweetsSent w'
        <= tweetsSent w + (sleepsDone w' - sleepsDone w) + 1)%nat
    /\ (if PostResult.success result
        then hasTweetId (PostResult.response result) = true
             /\ PostResult.error result = None
             /\ failed_tweets_json w' = failed_tweets_json w
        else exists e,
               PostResult.error result = Some e
               /\ PostResult.response result = None
               /\ ((exists wq text',
                      failed_tweets_json w'
                      = Some (Items (queueOf w ++ [failedRecord wq text' accountNumber])))
                   \/ (e = TypeError
                       /\ failed_tweets_json w' = failed_tweets_json w))).

(* ===================================================================== *)
(** * Part II: properties                                                 *)
(* ===================================================================== *)

(** ** Strings *)

Lemma jslength_app (s t : jsstring) : jslength (s ++ t) = jslength s + jslength t.
Proof. unfold jslength. rewrite length_app. lia. Qed.

Lemma jslength_nonneg (s : jsstring) : 0 <= jslength s.
Proof. unfold jslength. lia. Qed.

(** [substring(0, n)] keeps the first [n] code units. *)
Lemma substring_prefix (s : jsstring) (n : Z) :
  0 <= n -> substring s 0 n = firstn (Z.to_nat n) s.
Proof.
  intros Hn. unfold substring, clampIndex.
  replace (Z.to_nat (Z.min (Z.max 0 0) (Z.of_nat (length s)))) with 0%nat by lia.
  rewrite Nat.min_0_l, Nat.max_0_l, Nat.sub_0_r. simpl.
  destruct (Z.le_gt_cases n (Z.of_nat (length s))).
  - f_equal. lia.
  - replace (Z.to_nat (Z.min (Z.max n 0) (Z.of_nat (length s)))) with (length s) by lia.
    rewrite !firstn_all2; trivial; lia.
Qed.

Lemma substringFrom_suffix (s : jsstring) (n : Z) :
  0 <= n -> substringFrom s n = skipn (Z.to_nat n) s.
Proof.
  intros Hn. unfold substringFrom, clampIndex.
  destruct (Z.le_gt_cases n (Z.of_nat (length s))).
  - f_equal. lia.
  - replace (Z.to_nat (Z.min (Z.max n 0) (Z.of_nat (length s)))) with (length s) by lia.
    rewrite !skipn_all2; trivial; lia.
Qed.

(** [startsWith] is the prefix relation. *)
Lemma startsWith_app (s pat : jsstring) :
  startsWith s pat = true <-> exists rest, s = pat ++ rest.
Proof.
  revert s. induction pat as [|p pat IH]; intros s; simpl.
  - split; [intros _; now exists s | trivial].
  - destruct s as [|c s].
    + split; [easy | intros [rest H]; discriminate].
    + rewrite andb_true_iff, N.eqb_eq, IH. split.
      * intros [-> [rest ->]]. now exists rest.
      * intros [rest H]. injection H as -> ->. eauto.
Qed.

(** [indexOf] finds the first position at which the pattern starts. *)
Lemma indexOfFrom_found (pat s : jsstring) (i : Z) :
  indexOfFrom pat s i <> -1 -> 0 <= i ->
  exists pre post,
    s = pre ++ pat ++ post /\ indexOfFrom pat s i = i + jslength pre
    /\ forall k, (k < length pre)%nat -> startsWith (skipn k s) pat = false.
Proof.
  revert i. induction s as [|c s IH]; intros i; simpl.
  - destruct (startsWith [] pat) eqn:E; [|easy].
    intros _ _. apply startsWith_app in E as [rest E].
    exists [], rest. split; [exact E|]. split; [unfold jslength; simpl; lia|].
    intros k Hk; simpl in Hk; lia.
  - destruct (startsWith (c :: s) pat) eqn:E.
    + intros _ _. apply startsWith_app in E as [rest E].
      exists [], rest. split; [exact E|]. split; [unfold jslength; simpl; lia|].
      intros k Hk; simpl in Hk; lia.
    + intros Hfound Hi. destruct (IH (i + 1) Hfound) as (pre & post & Hs & Hidx & Hmin); [lia|].
      exists (c :: pre), post. repeat split.
      * simpl. now rewrite Hs.
      * rewrite Hidx. unfold jslength. simpl length. lia.
      * intros [|k] Hk; simpl in *; [exact E | apply Hmin; lia].
Qed.

Lemma indexOfFrom_range (pat s : jsstring) (i : Z) :
  0 <= i -> indexOfFrom pat s i = -1 \/ i <= indexOfFrom pat s i.
Proof.
  revert i. induction s as [|c s IH]; intros i Hi; simpl.
  - destruct (startsWith [] pat); lia.
  - destruct (startsWith (c :: s) pat); [lia|].
    destruct (IH (i + 1)); lia.
Qed.

(** ** aiService.js: the length of a generated tweet *)

Lemma REQUIRED_TAGS_length : jslength REQUIRED_TAGS = 29.
Proof. reflexivity. Qed.

(** The tweet built from an AI text: the text, a space and the tags when
    that fits in 280 code units, and otherwise 250 code units of the text,
    the three dots, a space and the tags, which makes 283. *)
Lemma taggedTweet_length (generatedText : jsstring) :
  jslength (taggedTweet generatedText)
  = if jslength generatedText <=? 250 then jslength generatedText + 30 else 283.
Proof.
  unfold taggedTweet; cbv zeta. rewrite Z.gtb_ltb.
  destruct (Z.ltb_spec 280 (jslength (generatedText ++ js " " ++ REQUIRED_TAGS))) as [H|H];
    destruct (Z.leb_spec (jslength generatedText) 250) as [E|E];
    rewrite ?jslength_app, ?REQUIRED_TAGS_length in *;
    change (jslength (js " ")) with 1 in *; change (jslength (js "...")) with 3 in *;
    try lia.
  rewrite substring_prefix by lia.
  unfold jslength in *. rewrite length_firstn. lia.
Qed.

(** C1, at a failing input.  An AI reply of 251 letters [a] makes
    [generateTweet] return 283 code units: the text is cut to
    [280 - tagLength - 1 = 250] code units, but the ellipsis that is then
    appended is not counted, so the tweet is over the ceiling of 280. *)
Theorem generateTweet_exceeds_ceiling (alternativeText : jsstring) :
  let tweet := generateTweet (js "OpenAI") (AiContent (repeat 97%N 251)) alternativeText in
  jslength tweet = 283
  /\ tweet = repeat 97%N 250 ++ js "... " ++ REQUIRED_TAGS
  /\ 280 < jslength tweet.
Proof. vm_compute. repeat split. Qed.

(** ** twitterService.js: the lazy client loader *)

(** C2, at two failing inputs.  [currentAccountNumber] is the line's
    position among all lines minus the number of blank and comment lines
    of the whole file, not of the lines before it (in general, see
    [lazyLoadTwitterClient_position] below).  With a final newline (whose
    split leaves one empty last line) a file of one account has no
    account 1, and in a file of two accounts account 1 is built from the
    second data line. *)
Theorem lazyLoadTwitterClient_miscounts :
  lazyLoadTwitterClient (Some (js "k1,s1,t1,a1" ++ [LF])) 1 [] = (None, [])
  /\ fst (lazyLoadTwitterClient
            (Some (js "k1,s1,t1,a1" ++ [LF] ++ js "k2,s2,t2,a2" ++ [LF])) 1 [])
     = Some {| ClientObj.client :=
                 {| appKey := js "k2"; appSecret := js "s2";
                    accessToken := js "t2"; accessSecret := js "a2" |};
               ClientObj.accountNumber := 1 |}.
Proof. vm_compute. split; reflexivity. Qed.

(** Without the final newline the same first line is account 1. *)
Lemma lazyLoadTwitterClient_no_final_newline :
  fst (lazyLoadTwitterClient (Some (js "k1,s1,t1,a1" ++ [LF] ++ js "k2,s2,t2,a2")) 1 [])
  = Some {| ClientObj.client :=
              {| appKey := js "k1"; appSecret := js "s1";
                 accessToken := js "t1"; accessSecret := js "a1" |};
            ClientObj.accountNumber := 1 |}.
Proof. vm_compute. reflexivity. Qed.

Lemma scanLine_eq fileContent accountNumber lineCount account line :
  scanLine fileContent accountNumber (lineCount, account) line
  = (lineCount + 1,
     if lineCount + 1 - skippedLines fileContent =? accountNumber
     then match accountOfLine line accountNumber with
          | Some found => Some found
          | None => account
          end
     else account).
Proof.
  unfold scanLine, accountOfLine, skippedLines.
  destruct (isBlankOrComment line).
  - now destruct (_ =? accountNumber).
  - destruct (map trim (split COMMA line)) as [|a [|b [|c [|d [|x rest]]]]];
      try (now destruct (_ =? accountNumber)).
    destruct (_ =? accountNumber); [|reflexivity].
    now destruct (nonEmpty a && nonEmpty b && nonEmpty c && nonEmpty d).
Qed.

(** The scan keeps the account of the one line whose position, counted
    over all lines, is the requested number plus the number of blank and
    comment lines of the whole file. *)
Lemma fold_scanLine fileContent accountNumber lines lineCount account :
  fold_left (scanLine fileContent accountNumber) lines (lineCount, account)
  = (lineCount + Z.of_nat (length lines),
     let position := accountNumber + skippedLines fileContent - lineCount in
     if (1 <=? position) && (position <=? Z.of_nat (length lines))
     then match accountOfLine (nth (Z.to_nat (position - 1)) lines []) accountNumber with
          | Some found => Some found
          | None => account
          end
     else account).
Proof.
  revert lineCount account.
  induction lines as [|line rest IH]; intros lineCount account; cbv zeta.
  - cbn [fold_left length]. f_equal; [lia|].
    destruct (Z.leb_spec 1 (accountNumber + skippedLines fileContent - lineCount));
      destruct (Z.leb_spec (accountNumber + skippedLines fileContent - lineCount)
                           (Z.of_nat 0));
      cbn [andb]; trivial; lia.
  - cbn [fold_left]. rewrite scanLine_eq, IH. cbv zeta.
    cbn [length]. rewrite Nat2Z.inj_succ. f_equal; [lia|].
    set (position := accountNumber + skippedLines fileContent - lineCount).
    replace (accountNumber + skippedLines fileContent - (lineCount + 1))
      with (position - 1) by (subst position; lia).
    destruct (Z.eqb_spec (lineCount + 1 - skippedLines fileContent) accountNumber)
      as [Hhere|Hthere];
      destruct (Z.leb_spec 1 (position - 1));
      destruct (Z.leb_spec (position - 1) (Z.of_nat (length rest)));
      destruct (Z.leb_spec 1 position);
      destruct (Z.leb_spec position (Z.succ (Z.of_nat (length rest))));
      cbn [andb]; trivial; try (subst position; lia).
    + replace (Z.to_nat (position - 1)) with 0%nat by (subst position; lia).
      reflexivity.
    + replace (Z.to_nat (position - 1)) with (S (Z.to_nat (position - 1 - 1))) by lia.
      reflexivity.
Qed.

(** What the loader does for a number that no loaded client has: it looks
    at line [accountNumber + skippedLines] of the file, blank and comment
    lines included in the position. *)
Lemma lazyLoadTwitterClient_position fileContent accountNumber twitterClients :
  findClient twitterClients accountNumber = None ->
  let position := accountNumber + skippedLines fileContent in
  let lines := split LF fileContent in
  lazyLoadTwitterClient (Some fileContent) accountNumber twitterClients
  = match (if (1 <=? position) && (position <=? Z.of_nat (length lines))
           then accountOfLine (nth (Z.to_nat (position - 1)) lines []) accountNumber
           else None) with
    | Some account =>
        (Some (clientOfAccount account), twitterClients ++ [clientOfAccount account])
    | None => (None, twitterClients)
    end.
Proof.
  intros Hnone. cbv zeta. unfold lazyLoadTwitterClient. rewrite Hnone.
  rewrite fold_scanLine. cbv zeta. rewrite Z.sub_0_r.
  destruct ((1 <=? accountNumber + skippedLines fileContent)
            && (accountNumber + skippedLines fileContent
                <=? Z.of_nat (length (split LF fileContent)))); [|reflexivity].
  now destruct (accountOfLine _ accountNumber).
Qed.

(** ** twitterService.js: the delay policy *)

(** The loop keeps what it has and adds matching outcomes until it holds
    ten. *)
Lemma collectAccountHistory_firstn accountNumber newestFirst accountHistory :
  (length accountHistory <= 10)%nat ->
  collectAccountHistory accountNumber newestFirst accountHistory
  = accountHistory
    ++ firstn (10 - length accountHistory)
         (flat_map (fun tweet => match findAccount accountNumber tweet with
                                 | Some outcome => [outcome]
                                 | None => []
                                 end) newestFirst).
Proof.
  revert accountHistory.
  induction newestFirst as [|tweet older IH]; intros acc Hacc.
  - simpl. now rewrite firstn_nil, app_nil_r.
  - cbn [collectAccountHistory flat_map].
    destruct (Nat.ltb_spec (length acc) 10) as [Hlt|Hge].
    + destruct (findAccount accountNumber tweet) as [outcome|].
      * rewrite IH by (rewrite length_app; simpl; lia).
        rewrite length_app. cbn [length].
        replace (10 - length acc)%nat with (S (10 - (length acc + 1)))%nat by lia.
        rewrite <- app_assoc. reflexivity.
      * cbn [app]. now apply IH.
    + replace (10 - length acc)%nat with 0%nat by lia.
      cbn [firstn]. now rewrite app_nil_r.
Qed.

(** The float comparisons of the code decide the exact ladder: for a
    sample of 3 to 10 outcomes the quotient of the two counts, rounded to
    binary64, is above the rounded literals 0.5, 0.3 and 0.1 exactly when
    the rational error rate is above 1/2, 3/10 and 1/10. *)
Lemma float_ladder_exact (errorCount size : nat) :
  (3 <= size <= 10)%nat -> (errorCount <= size)%nat ->
  (let errorRate := PrimFloat.div (toNumber errorCount) (toNumber size) in
   if PrimFloat.ltb 0.5%float errorRate then 120000
   else if PrimFloat.ltb 0.3%float errorRate then 60000
   else if PrimFloat.ltb 0.1%float errorRate then 45000
   else 30000)
  = delayLadder (Z.of_nat errorCount # Pos.of_nat size).
Proof.
  intros Hsize Hcount.
  assert (Hall :
    forallb (fun n =>
      forallb (fun e =>
        (let errorRate := PrimFloat.div (toNumber e) (toNumber n) in
         if PrimFloat.ltb 0.5%float errorRate then 120000
         else if PrimFloat.ltb 0.3%float errorRate then 60000
         else if PrimFloat.ltb 0.1%float errorRate then 45000
         else 30000)
        =? delayLadder (Z.of_nat e # Pos.of_nat n))
        (seq 0 (S n)))
      (seq 3 8) = true) by (vm_compute; reflexivity).
  rewrite forallb_forall in Hall.
  specialize (Hall size). rewrite in_seq in Hall.
  specialize (Hall ltac:(lia)).
  rewrite forallb_forall in Hall.
  specialize (Hall errorCount). rewrite in_seq in Hall.
  specialize (Hall ltac:(lia)).
  now apply Z.eqb_eq in Hall.
Qed.

Lemma failedCount_le (sample : list AccountOutcome.t) :
  (failedCount sample <= length sample)%nat.
Proof. unfold failedCount. apply filter_length_le. Qed.

(** The code's [find] over [tweet.accounts] gives the outcome that the
    entry records for the account. *)
Lemma findAccount_recordedOutcome accountNumber tweet :
  findAccount accountNumber tweet
  = recordedOutcome accountNumber (HistoryEntry.accounts tweet).
Proof.
  unfold findAccount.
  induction (HistoryEntry.accounts tweet) as [|outcome others IH]; simpl; [reflexivity|].
  destruct (Z.eq_dec (AccountOutcome.accountNumber outcome) accountNumber) as [Heq|Hne].
  - rewrite Heq, Z.eqb_refl. reflexivity.
  - destruct (Z.eqb_spec (AccountOutcome.accountNumber outcome) accountNumber);
      [contradiction | exact IH].
Qed.

(** The loop of the code collects the recorded outcomes. *)
Lemma outcomesNewestFirst_collected accountNumber history :
  outcomesNewestFirst accountNumber history
  = flat_map (fun tweet => match findAccount accountNumber tweet with
                           | Some outcome => [outcome]
                           | None => []
                           end) (rev history).
Proof.
  unfold outcomesNewestFirst. apply flat_map_ext. intros tweet.
  now rewrite findAccount_recordedOutcome.
Qed.

(** What it is for a list of outcomes to hold one for an account. *)
Lemma recordedOutcome_spec accountNumber accounts :
  match recordedOutcome accountNumber accounts with
  | Some outcome =>
      AccountOutcome.accountNumber outcome = accountNumber
      /\ exists before after,
           accounts = before ++ outcome :: after
           /\ forall other, In other before ->
                            AccountOutcome.accountNumber other <> accountNumber
  | None =>
      forall other, In other accounts ->
                    AccountOutcome.accountNumber other <> accountNumber
  end.
Proof.
  induction accounts as [|outcome others IH]; simpl; [tauto|].
  destruct (Z.eq_dec (AccountOutcome.accountNumber outcome) accountNumber) as [Heq|Hne].
  - split; [exact Heq|]. exists [], others. split; [reflexivity | intros other []].
  - destruct (recordedOutcome accountNumber others) as [found|].
    + destruct IH as (Hfound & before & after & -> & Hbefore).
      split; [exact Hfound|]. exists (outcome :: before), after.
      split; [reflexivity|]. intros other [<-|Hin]; auto.
    + intros other [<-|Hin]; auto.
Qed.

(** C3.  [calculateSmartDelay] is the Delay Policy of the specification:
    30000 for an absent or empty history and for fewer than 3 sampled
    outcomes; otherwise the ladder over the exact error rate of at most the
    10 most recent outcomes of the account, with strict comparisons.  An
    entry holds an outcome for the account when one of its account
    outcomes carries the account's number; the outcome sampled is then the
    first that does, and an entry none of whose outcomes carries the number
    is passed over. *)
Theorem calculateSmartDelay_computeDelay
    (accountNumber : Z) (history : option (list HistoryEntry.t)) :
  calculateSmartDelay accountNumber history = computeDelay accountNumber history
  /\ forall tweet : HistoryEntry.t,
       match recordedOutcome accountNumber (HistoryEntry.accounts tweet) with
       | Some outcome =>
           AccountOutcome.accountNumber outcome = accountNumber
           /\ exists before after,
                HistoryEntry.accounts tweet = before ++ outcome :: after
                /\ forall other, In other before ->
                                 AccountOutcome.accountNumber other <> accountNumber
       | None =>
           forall other, In other (HistoryEntry.accounts tweet) ->
                         AccountOutcome.accountNumber other <> accountNumber
       end.
Proof.
  split; [|intros tweet; apply recordedOutcome_spec].
  destruct history as [[|tweet history]|]; try reflexivity.
  unfold calculateSmartDelay, computeDelay, sampledOutcomes.
  rewrite outcomesNewestFirst_collected. cbv zeta.
  rewrite collectAccountHistory_firstn by (simpl; lia).
  cbn [length app]. rewrite Nat.sub_0_r.
  set (sample := firstn 10 _).
  destruct (Nat.ltb_spec (length sample) 3) as [Hlt|Hge]; [reflexivity|].
  apply (float_ladder_exact (failedCount sample) (length sample)).
  - split; [exact Hge|]. subst sample. rewrite length_firstn. lia.
  - apply failedCount_le.
Qed.

(** The boundary rates fall to the lower tier, and the tiers are as the
    ladder lists them. *)
Lemma delayLadder_tiers :
  delayLadder (6 # 10) = 120000 /\ delayLadder (1 # 2) = 60000
  /\ delayLadder (4 # 10) = 60000 /\ delayLadder (3 # 10) = 45000
  /\ delayLadder (2 # 10) = 45000 /\ delayLadder (1 # 10) = 30000
  /\ delayLadder 0 = 30000.
Proof. repeat split. Qed.

(** The tiers of the ladder, by the exact comparisons that select them. *)
Lemma delayLadder_cases (r : Q) :
  ((1 # 2 < r)%Q /\ delayLadder r = 120000)
  \/ ((3 # 10 < r)%Q /\ (r <= 1 # 2)%Q /\ delayLadder r = 60000)
  \/ ((1 # 10 < r)%Q /\ (r <= 3 # 10)%Q /\ delayLadder r = 45000)
  \/ ((r <= 1 # 10)%Q /\ delayLadder r = 30000).
Proof.
  unfold delayLadder.
  destruct (Qlt_le_dec (1 # 2) r); [now left|].
  destruct (Qlt_le_dec (3 # 10) r); [right; now left|].
  destruct (Qlt_le_dec (1 # 10) r); [right; right; now left|].
  right; right; right. now split.
Qed.

(** ** twitterService.js: the failure queue *)

(** [saveFailedTweet] never throws: it reads the clock once and rewrites
    the file with the record appended to the queue it could read. *)
Lemma saveFailedTweet_eq (tweetText : jsstring) (accountNumber : Z) (w : World) :
  saveFailedTweet tweetText accountNumber w
  = (Normal tt, afterSaveFailed w tweetText accountNumber).
Proof.
  unfold saveFailedTweet, afterSaveFailed, queueOf, failedRecord, try_catch, bind, existsSync,
    readFileSync, JSON_parse, newDate, writeFailedFile, ret, throw.
  destruct (failed_tweets_json w) as [[|q]|] eqn:E; cbn; rewrite ?E; reflexivity.
Qed.

(** ** twitterService.js: the posting primitive *)

(** One activation, then the call it returned. *)
Lemma postTweetWithClient_step tweetText obj config retryCount w :
  postTweetWithClient tweetText obj config retryCount w
  = match postTweetWithClient_body tweetText obj config retryCount w with
    | (Normal (ReturnValue result), w') => (Normal result, w')
    | (Normal (ReturnCall text' retry'), w') =>
        postTweetWithClient text' obj config retry' w'
    | (Throw e, w') => (Throw e, w')
    end.
Proof.
  rewrite postTweetWithClient_equation_1.
  assert (H : forall b (E : postTweetWithClient_body tweetText obj config retryCount w = b),
             postTweetWithClient_unfold_clause_1 tweetText obj config retryCount w
               (exist _ b E)
             = match b with
               | (Normal (ReturnValue result), w') => (Normal result, w')
               | (Normal (ReturnCall text' retry'), w') =>
                   postTweetWithClient text' obj config retry' w'
               | (Throw e, w') => (Throw e, w')
               end).
  { intros [[[result|text' retry']|e] w'] E.
    - apply postTweetWithClient_clause_1_equation_1.
    - apply postTweetWithClient_clause_1_equation_2.
    - apply postTweetWithClient_clause_1_equation_3. }
  apply (H _ eq_refl).
Qed.

Arguments js : simpl never.
Arguments toISOString : simpl never.
Arguments saveFailedTweet : simpl never.
Arguments describeError : simpl never.
Arguments uniqueTweet : simpl never.
Arguments slice : simpl never.
Arguments jslength : simpl never.
Arguments Z.mul : simpl never.
Arguments Z.sub : simpl never.
Arguments hasTweetId : simpl never.
Arguments logEvent : simpl never.
Arguments tick : simpl never.
Arguments afterSaveFailed : simpl never.

(** What each step does to the components of the world. *)
Lemma clock_logEvent e w : clock (logEvent e w) = clock w.
Proof. reflexivity. Qed.
Lemma clockReads_logEvent e w : clockReads (logEvent e w) = clockReads w.
Proof. reflexivity. Qed.
Lemma provider_logEvent e w : provider (logEvent e w) = provider w.
Proof. reflexivity. Qed.
Lemma trace_logEvent e w : trace (logEvent e w) = trace w ++ [e].
Proof. reflexivity. Qed.
Lemma failed_logEvent e w : failed_tweets_json (logEvent e w) = failed_tweets_json w.
Proof. reflexivity. Qed.
Lemma clock_tick w : clock (tick w) = clock w.
Proof. reflexivity. Qed.
Lemma clockReads_tick w : clockReads (tick w) = S (clockReads w).
Proof. reflexivity. Qed.
Lemma provider_tick w : provider (tick w) = provider w.
Proof. reflexivity. Qed.
Lemma trace_tick w : trace (tick w) = trace w.
Proof. reflexivity. Qed.
Lemma failed_tick w : failed_tweets_json (tick w) = failed_tweets_json w.
Proof. reflexivity. Qed.
Lemma clock_afterSaveFailed w t n : clock (afterSaveFailed w t n) = clock w.
Proof. reflexivity. Qed.
Lemma clockReads_afterSaveFailed w t n :
  clockReads (afterSaveFailed w t n) = S (clockReads w).
Proof. reflexivity. Qed.
Lemma provider_afterSaveFailed w t n : provider (afterSaveFailed w t n) = provider w.
Proof. reflexivity. Qed.
Lemma trace_afterSaveFailed w t n :
  trace (afterSaveFailed w t n)
  = trace w ++ [WroteFailedTweets (queueOf w ++ [failedRecord w t n])].
Proof. reflexivity. Qed.
Lemma failed_afterSaveFailed w t n :
  failed_tweets_json (afterSaveFailed w t n)
  = Some (Items (queueOf w ++ [failedRecord w t n])).
Proof. reflexivity. Qed.

Create Rewrite HintDb world.
#[local] Hint Rewrite clock_logEvent clockReads_logEvent provider_logEvent
  trace_logEvent failed_logEvent clock_tick clockReads_tick provider_tick
  trace_tick failed_tick clock_afterSaveFailed clockReads_afterSaveFailed
  provider_afterSaveFailed trace_afterSaveFailed failed_afterSaveFailed : world.

Lemma tweetsSent_logEvent e w :
  tweetsSent (logEvent e w) = (tweetsSent w + if isTweeted e then 1 else 0)%nat.
Proof.
  unfold tweetsSent. rewrite trace_logEvent, filter_app, length_app. simpl.
  now destruct (isTweeted e).
Qed.

Lemma tweetsSent_tick w : tweetsSent (tick w) = tweetsSent w.
Proof. reflexivity. Qed.

Lemma tweetsSent_afterSaveFailed w t n : tweetsSent (afterSaveFailed w t n) = tweetsSent w.
Proof.
  unfold tweetsSent. rewrite trace_afterSaveFailed, filter_app, length_app. simpl. lia.
Qed.

#[local] Hint Rewrite tweetsSent_logEvent tweetsSent_tick tweetsSent_afterSaveFailed : world.

(** Symbolic execution of the monadic code. *)
Ltac run :=
  repeat progress (unfold bind, try_catch, ret, throw, sleep, newDate, v2_tweet,
                   thrownCode, parseTwitterError, Error, TypeError; cbn);
  rewrite ?saveFailedTweet_eq; cbn; autorewrite with world.

(** Every activation returns normally, in one of the ways of the state
    machine. *)
Lemma postTweetWithClient_body_activation tweetText obj config retryCount w :
  exists returned w',
    postTweetWithClient_body tweetText obj config retryCount w = (Normal returned, w')
    /\ Activation tweetText obj config retryCount w returned w'.
Proof.
  unfold postTweetWithClient_body. cbv zeta. rewrite Z.gtb_ltb.
  destruct (Z.eqb_spec (jslength tweetText) 0) as [H0|H0].
  { do 2 eexists. split; [run; reflexivity | now apply act_empty]. }
  destruct (Z.ltb_spec 280 (jslength tweetText)) as [Hlong|Hlong].
  { do 2 eexists. split; [run; reflexivity | now apply act_too_long]. }
  assert (Hvalid : 0 < jslength tweetText <= 280)
    by (pose proof (jslength_nonneg tweetText); lia).
  run.
  destruct (provider w (ClientObj.client obj) (trace w) tweetText)
    as [response|[|e]] eqn:Hp.
  - destruct (hasTweetId response) eqn:Hid.
    + do 2 eexists. split; [run; reflexivity | eapply act_posted; eauto].
    + do 2 eexists. split; [run; reflexivity | eapply act_no_identifier; eauto].
  - do 2 eexists. split; [run; reflexivity | eapply act_rejected_nullish; eauto].
  - rewrite Z.gtb_ltb.
    destruct (Z.ltb_spec 0 retryCount) as [Hr|Hr];
      destruct (codeIs (code e) 429) eqn:H429;
      destruct (codeIs (code e) 187) eqn:H187;
      do 2 eexists; (split; [run; reflexivity|]);
      first [ now (eapply act_rate_limited; eauto)
            | now (eapply act_duplicate; eauto)
            | eapply act_rejected; eauto; (left; lia) || tauto ].
Qed.

(** Induction over the activations of a call: a property that holds of
    every result returned, and is passed down from a returned call to the
    activation that returned it, holds of [postTweetWithClient]. *)
Lemma postTweetWithClient_induction (obj : ClientObj.t) (config : Config)
    (P : jsstring -> Z -> World -> Completion PostResult.t * World -> Prop) :
  (forall tweetText retryCount w result w',
      Activation tweetText obj config retryCount w (ReturnValue result) w' ->
      P tweetText retryCount w (Normal result, w')) ->
  (forall tweetText retryCount w text' retry' w',
      Activation tweetText obj config retryCount w (ReturnCall text' retry') w' ->
      P text' retry' w' (postTweetWithClient text' obj config retry' w') ->
      P tweetText retryCount w (postTweetWithClient text' obj config retry' w')) ->
  forall tweetText retryCount w,
    P tweetText retryCount w (postTweetWithClient tweetText obj config retryCount w).
Proof.
  intros Hvalue Hcall tweetText retryCount.
  remember (Z.to_nat retryCount) as n eqn:Hn.
  revert tweetText retryCount Hn.
  induction n as [n IH] using lt_wf_ind. intros tweetText retryCount Hn w.
  rewrite postTweetWithClient_step.
  destruct (postTweetWithClient_body_activation tweetText obj config retryCount w)
    as (returned & w' & Hbody & Hact).
  rewrite Hbody. destruct returned as [result|text' retry'].
  - now apply Hvalue.
  - apply Hcall; [exact Hact|].
    apply postTweetWithClient_body_call in Hbody as [-> Hpos].
    apply (IH (Z.to_nat (retryCount - 1))); [lia | reflexivity].
Qed.

Lemma hasTweetId_nonempty (response : option TweetResponse) :
  hasTweetId response = true <->
  exists i, responseId response = Some i /\ i <> [].
Proof.
  unfold hasTweetId. destruct (responseId response) as [[|c i]|]; split;
    try discriminate; try (intros (i' & H & Hne); congruence).
  intros _. exists (c :: i). now split.
Qed.

(** The provider and the clock are the same before and after an
    activation, which adds at most one call to the provider. *)
Lemma Activation_frame tweetText obj config retryCount w returned w' :
  Activation tweetText obj config retryCount w returned w' ->
  provider w' = provider w /\ clock w' = clock w
  /\ (tweetsSent w <= tweetsSent w' <= tweetsSent w + 1)%nat.
Proof.
  intros H; inversion H; subst; autorewrite with world; simpl; repeat split; lia.
Qed.

(** C8.  For every text, retry budget, client object and configuration
    object, in every world, [postTweetWithClient] returns a result object:
    whatever the provider does (resolve with or without an identifier,
    reject with an error object, reject with [null]), no exception reaches
    the caller.  The result is for the client's account; it has [success]
    only with a response that the provider returned and that carries a
    non-empty identifier, and otherwise it carries the error.  The client
    object and the configuration have to be objects: both are read before
    the [try], and a call with either of them [null] or [undefined] throws
    instead. *)
Theorem postTweetWithClient_always_returns
    (tweetText : jsstring) (obj : ClientObj.t) (config : Config)
    (retryCount : Z) (w : World) :
  exists result w',
    Nullable.postTweetWithClient tweetText (Some obj) (Some config) retryCount w
    = (Normal result, w')
    /\ PostResult.accountNumber result = ClientObj.accountNumber obj
    /\ (PostResult.success result = true ->
        (exists i, responseId (PostResult.response result) = Some i /\ i <> [])
        /\ exists events text,
             provider w (ClientObj.client obj) events text
             = Resolved (PostResult.response result))
    /\ (PostResult.success result = false ->
        exists e, PostResult.error result = Some e).
Proof.
  unfold Nullable.postTweetWithClient.
  revert tweetText retryCount w.
  apply (postTweetWithClient_induction obj config
           (fun _ _ w out =>
              exists result w',
                out = (Normal result, w')
                /\ PostResult.accountNumber result = ClientObj.accountNumber obj
                /\ (PostResult.success result = true ->
                    (exists i, responseId (PostResult.response result) = Some i /\ i <> [])
                    /\ exists events text,
                         provider w (ClientObj.client obj) events text
                         = Resolved (PostResult.response result))
                /\ (PostResult.success result = false ->
                    exists e, PostResult.error result = Some e))).
  - intros tweetText retryCount w result w' Hact.
    exists result, w'. split; [reflexivity|].
    inversion Hact; subst; simpl; (split; [reflexivity|]); split;
      try discriminate; eauto.
    intros _. split; [now apply hasTweetId_nonempty | eauto].
  - intros tweetText retryCount w text' retry' w' Hact (result & w'' & Hout & Hacc & Hok & Hko).
    exists result, w''. split; [exact Hout|]. split; [exact Hacc|]. split; [|exact Hko].
    intros Hs. destruct (Hok Hs) as [Hid (events & text & Hp)].
    split; [exact Hid|].
    apply Activation_frame in Hact as [Hprov _]. rewrite Hprov in Hp. eauto.
Qed.

(** A call without the client object or without the configuration throws
    the [TypeError] of the read that comes before the [try], in the world
    as it was: nothing is posted, queued or waited for. *)
Lemma postTweetWithClient_missing_object
    (tweetText : jsstring) (twitterClientObj : option ClientObj.t)
    (config : option Config) (retryCount : Z) (w : World) :
  twitterClientObj = None \/ config = None ->
  Nullable.postTweetWithClient tweetText twitterClientObj config retryCount w
  = (Throw TypeError, w).
Proof.
  unfold Nullable.postTweetWithClient.
  intros [-> | ->]; [reflexivity | now destruct twitterClientObj].
Qed.

(** The sample client with an [undefined] configuration, and no client
    object with the sample configuration, in the sample world: either call
    throws and no result is returned. *)
Lemma postTweetWithClient_null_config_throws :
  Nullable.postTweetWithClient (js "gm fam") (Some sampleClient) None 1 sampleWorld
  = (Throw TypeError, sampleWorld)
  /\ Nullable.postTweetWithClient (js "gm fam") None (Some sampleConfig) 1 sampleWorld
     = (Throw TypeError, sampleWorld)
  /\ ~ (exists result w',
          Nullable.postTweetWithClient (js "gm fam") (Some sampleClient) None 1 sampleWorld
          = (Normal result, w'))
  /\ ~ (exists result w',
          Nullable.postTweetWithClient (js "gm fam") None (Some sampleConfig) 1 sampleWorld
          = (Normal result, w')).
Proof.
  split; [reflexivity|]. split; [reflexivity|].
  split; intros (result & w' & Hreturned); discriminate Hreturned.
Qed.

(** C9.  The retry terminates within its budget.  A call is returned only
    from a positive budget and carries one unit less; with a budget
    [r >= 0] the call ends in a result (success or permanent failure)
    after at most [r + 1] calls to the provider. *)
Theorem postTweetWithClient_bounded_attempts
    (tweetText : jsstring) (obj : ClientObj.t) (config : Config)
    (retryCount : Z) (w : World) :
  0 <= retryCount ->
  (forall text' retry' w1,
      postTweetWithClient_body tweetText obj config retryCount w
      = (Normal (ReturnCall text' retry'), w1) ->
      retry' = retryCount - 1 /\ 0 < retryCount)
  /\ exists result w',
       postTweetWithClient tweetText obj config retryCount w = (Normal result, w')
       /\ Z.of_nat (tweetsSent w') - Z.of_nat (tweetsSent w) <= retryCount + 1.
Proof.
  intros Hr. split; [intros text' retry' w1; apply postTweetWithClient_body_call|].
  assert (H : exists result w',
             postTweetWithClient tweetText obj config retryCount w = (Normal result, w')
             /\ (tweetsSent w' <= tweetsSent w + Z.to_nat retryCount + 1)%nat).
  { clear Hr. revert tweetText retryCount w.
    apply (postTweetWithClient_induction obj config
             (fun _ retryCount w out =>
                exists result w',
                  out = (Normal result, w')
                  /\ (tweetsSent w' <= tweetsSent w + Z.to_nat retryCount + 1)%nat)).
    - intros tweetText retryCount w result w' Hact.
      exists result, w'. split; [reflexivity|].
      apply Activation_frame in Hact. lia.
    - intros tweetText retryCount w text' retry' w' Hact (result & w'' & Hout & Hle).
      exists result, w''. split; [exact Hout|].
      assert (retry' = retryCount - 1 /\ 0 < retryCount) as [-> Hpos]
        by (inversion Hact; subst; split; trivial).
      apply Activation_frame in Hact. lia. }
  destruct H as (result & w' & Heq & Hle). exists result, w'. split; [exact Heq | lia].
Qed.

(** C4.  A text that is empty or longer than 280 code units fails at
    once: the first activation returns a failed result carrying the
    validation error, and all it does to the world is to read the clock
    and append the text to the failure queue; the trace gains no call to
    the provider and no sleep, so nothing was retried. *)
Theorem postTweetWithClient_rejects_invalid_text
    (tweetText : jsstring) (obj : ClientObj.t) (config : Config)
    (retryCount : Z) (w : World) :
  jslength tweetText = 0 \/ 280 < jslength tweetText ->
  let accountNumber := ClientObj.accountNumber obj in
  let w' := afterSaveFailed w tweetText accountNumber in
  exists msg,
    postTweetWithClient_body tweetText obj config retryCount w
    = (Normal (ReturnValue (failedResult (Error msg) accountNumber)), w')
    /\ postTweetWithClient tweetText obj config retryCount w
       = (Normal (failedResult (Error msg) accountNumber), w')
    /\ PostResult.success (failedResult (Error msg) accountNumber) = false
    /\ msg = (if jslength tweetText =? 0 then js "Tweet text is empty"
              else js "Tweet text exceeds maximum length of 280 characters")
    /\ tweetsSent w' = tweetsSent w
    /\ trace w'
       = trace w
         ++ [WroteFailedTweets (queueOf w ++ [failedRecord w tweetText accountNumber])].
Proof.
  intros Hinvalid accountNumber w'. subst accountNumber w'.
  rewrite postTweetWithClient_step.
  destruct (postTweetWithClient_body_activation tweetText obj config retryCount w)
    as (returned & w' & Hbody & Hact).
  rewrite Hbody.
  pose proof (jslength_nonneg tweetText) as Hlen.
  inversion Hact; subst; try lia; eexists; autorewrite with world;
    (split; [reflexivity|]); (split; [reflexivity|]); (split; [reflexivity|]);
    (split; [|split; reflexivity]).
  - replace (jslength tweetText =? 0) with true by (symmetry; apply Z.eqb_eq; lia).
    reflexivity.
  - replace (jslength tweetText =? 0) with false by (symmetry; apply Z.eqb_neq; lia).
    reflexivity.
Qed.

(** ** The time marker of the duplicate-content retry *)

(** Code units 11 to 18 of an ISO string are its [HH:mm:ss] when the year
    has four digits. *)
Lemma slice_toISOString_time (t : Date) :
  (YearFromTime t <= 9999)%N -> slice (toISOString t) 11 19 = timeOfDay t.
Proof.
  intros Hy. unfold toISOString, yearString.
  apply N.leb_le in Hy. rewrite Hy. reflexivity.
Qed.

(** They are eight code units for any date. *)
Lemma slice_toISOString_length (t : Date) : jslength (slice (toISOString t) 11 19) = 8.
Proof.
  unfold toISOString, yearString.
  destruct (YearFromTime t <=? 9999)%N; reflexivity.
Qed.

Lemma indexOf_includes (s pat : jsstring) :
  includes s pat = true -> 0 <= indexOf s pat.
Proof.
  unfold includes, indexOf. intros H.
  apply negb_true_iff, Z.eqb_neq in H.
  destruct (indexOfFrom_range pat s 0); lia.
Qed.

(** With the token in the text, the marker and a space go in front of its
    first occurrence. *)
Lemma uniqueTweet_with_token (tweetText timestamp : jsstring) :
  includes tweetText (js "@giverep") = true ->
  exists pre post,
    tweetText = pre ++ js "@giverep" ++ post
    /\ jslength pre = indexOf tweetText (js "@giverep")
    /\ (forall k, (k < length pre)%nat ->
                  startsWith (skipn k tweetText) (js "@giverep") = false)
    /\ uniqueTweet tweetText timestamp
       = pre ++ (js "[" ++ timestamp ++ js "]") ++ js " " ++ js "@giverep" ++ post.
Proof.
  intros Hinc. unfold uniqueTweet. rewrite Hinc.
  pose proof (indexOf_includes _ _ Hinc) as Hge.
  unfold includes in Hinc. apply negb_true_iff, Z.eqb_neq in Hinc.
  destruct (indexOfFrom_found (js "@giverep") tweetText 0 Hinc) as (pre & post & Htext & Hidx & Hfirst);
    [lia|].
  fold (indexOf tweetText (js "@giverep")) in Hidx.
  exists pre, post. repeat split; trivial; [lia|].
  rewrite substring_prefix, substringFrom_suffix by lia.
  rewrite Hidx. unfold jslength. rewrite Z.add_0_l, Nat2Z.id.
  rewrite Htext at 1 2.
  rewrite firstn_app, firstn_all, Nat.sub_diag, firstn_O, app_nil_r.
  rewrite skipn_app, skipn_all, Nat.sub_diag, skipn_O. cbn [app].
  now rewrite <- !app_assoc.
Qed.

(** Without the token, a space and the marker go at the end. *)
Lemma uniqueTweet_without_token (tweetText timestamp : jsstring) :
  includes tweetText (js "@giverep") = false ->
  uniqueTweet tweetText timestamp
  = tweetText ++ js " " ++ (js "[" ++ timestamp ++ js "]").
Proof.
  intros Hinc. unfold uniqueTweet. rewrite Hinc. reflexivity.
Qed.

(** Either way the text grows by the marker and one space. *)
Lemma uniqueTweet_length (tweetText timestamp : jsstring) :
  jslength (uniqueTweet tweetText timestamp)
  = jslength tweetText + jslength timestamp + 3.
Proof.
  destruct (includes tweetText (js "@giverep")) eqn:Hinc.
  - destruct (uniqueTweet_with_token tweetText timestamp Hinc)
      as (pre & post & Htext & _ & _ & ->).
    rewrite Htext at 1. rewrite !jslength_app.
    change (jslength (js "[")) with 1. change (jslength (js "]")) with 1.
    change (jslength (js " ")) with 1. lia.
  - rewrite uniqueTweet_without_token by exact Hinc. rewrite !jslength_app.
    change (jslength (js "[")) with 1. change (jslength (js "]")) with 1.
    change (jslength (js " ")) with 1. lia.
Qed.

Lemma codeIs_numeric (c : ErrorCode) (n : Z) :
  codeIs c n = true <-> c = NumericCode n.
Proof.
  destruct c as [|m|s]; simpl; split; try discriminate.
  - intros H. apply Z.eqb_eq in H. now subst.
  - intros H. injection H as ->. apply Z.eqb_refl.
Qed.

(** What a duplicate-content rejection with budget left does. *)
Lemma postTweetWithClient_body_duplicate tweetText obj config retryCount w e :
  0 < jslength tweetText <= 280 -> 0 < retryCount ->
  provider w (ClientObj.client obj) (trace w) tweetText = Rejected (ThrownError e) ->
  code e = NumericCode 187 ->
  postTweetWithClient_body tweetText obj config retryCount w
  = (Normal (ReturnCall
               (uniqueTweet tweetText (slice (toISOString (clock w (clockReads w))) 11 19))
               (retryCount - 1)),
     logEvent (Slept 2000)
              (tick (logEvent (Tweeted (ClientObj.client obj) tweetText) w))).
Proof.
  intros Hvalid Hr Hp Hcode.
  destruct (postTweetWithClient_body_activation tweetText obj config retryCount w)
    as (returned & w' & Hbody & Hact).
  rewrite Hbody.
  inversion Hact; subst; try lia; try congruence;
    match goal with
    | H1 : provider _ _ _ _ = Rejected (ThrownError ?e1),
      H2 : provider _ _ _ _ = Rejected (ThrownError ?e2) |- _ =>
        rewrite H1 in H2; injection H2 as ->
    end;
    first [ reflexivity
          | exfalso;
            match goal with
            | H : codeIs _ 429 = true |- _ => apply codeIs_numeric in H; congruence
            end
          | exfalso;
            match goal with
            | H : _ \/ _ |- _ =>
                destruct H as [H|[_ H]]; [lia | rewrite Hcode in H; discriminate]
            end ].
Qed.

Lemma postTweetWithClient_too_long tweetText obj config retryCount w :
  280 < jslength tweetText ->
  postTweetWithClient tweetText obj config retryCount w
  = (Normal (failedResult
               (Error (js "Tweet text exceeds maximum length of 280 characters"))
               (ClientObj.accountNumber obj)),
     afterSaveFailed w tweetText (ClientObj.accountNumber obj)).
Proof.
  intros Hlong. rewrite postTweetWithClient_step.
  destruct (postTweetWithClient_body_activation tweetText obj config retryCount w)
    as (returned & w' & Hbody & Hact).
  rewrite Hbody. inversion Hact; subst; try lia. reflexivity.
Qed.

(** A field below 100 prints as its two decimal digits. *)
Lemma twoDigits_decimal (n : N) :
  (n < 100)%N ->
  exists tens units,
    twoDigits n = [digit tens; digit units]
    /\ (tens < 10)%N /\ (units < 10)%N /\ n = (10 * tens + units)%N.
Proof.
  intros Hn. exists (n / 10)%N, (n mod 10)%N. split; [reflexivity|].
  split; [apply N.Div0.div_lt_upper_bound; exact Hn|].
  split; [apply N.mod_lt; discriminate | apply N.div_mod; discriminate].
Qed.

Lemma time_fields_in_range (t : Date) :
  (HourFromTime t < 24 /\ MinFromTime t < 60 /\ SecFromTime t < 60)%N.
Proof.
  unfold HourFromTime, MinFromTime, SecFromTime.
  repeat split; apply N.mod_lt; discriminate.
Qed.

(** C5.  A valid text that the provider rejects with code 187 while the
    budget is positive is retried, after a sleep of two seconds and with
    one unit less, as the text with the marker [[HH:MM:SS]] of the current
    UTC time: when the text contains [@giverep], the marker and a space
    stand immediately before the first occurrence of the token and
    everything else is as it was; otherwise a space and the marker are
    appended. *)
Theorem duplicate_retry_inserts_time_marker
    (tweetText : jsstring) (obj : ClientObj.t) (config : Config)
    (retryCount : Z) (w : World) (e : JsError) :
  0 < jslength tweetText <= 280 -> 0 < retryCount ->
  provider w (ClientObj.client obj) (trace w) tweetText = Rejected (ThrownError e) ->
  code e = NumericCode 187 ->
  (YearFromTime (clock w (clockReads w)) <= 9999)%N ->
  let now := clock w (clockReads w) in
  let marker :=
    js "[" ++ twoDigits (HourFromTime now) ++ js ":" ++ twoDigits (MinFromTime now)
    ++ js ":" ++ twoDigits (SecFromTime now) ++ js "]" in
  let w1 := logEvent (Slept 2000)
                     (tick (logEvent (Tweeted (ClientObj.client obj) tweetText) w)) in
  exists retried,
    postTweetWithClient_body tweetText obj config retryCount w
    = (Normal (ReturnCall retried (retryCount - 1)), w1)
    /\ postTweetWithClient tweetText obj config retryCount w
       = postTweetWithClient retried obj config (retryCount - 1) w1
    /\ (includes tweetText (js "@giverep") = true ->
        exists pre post,
          tweetText = pre ++ js "@giverep" ++ post
          /\ (forall k, (k < length pre)%nat ->
                        startsWith (skipn k tweetText) (js "@giverep") = false)
          /\ retried = pre ++ marker ++ js " " ++ js "@giverep" ++ post)
    /\ (includes tweetText (js "@giverep") = false ->
        retried = tweetText ++ js " " ++ marker).
Proof.
  intros Hvalid Hr Hp Hcode Hyear now marker w1.
  exists (uniqueTweet tweetText (slice (toISOString now) 11 19)).
  pose proof (postTweetWithClient_body_duplicate _ obj config _ _ _ Hvalid Hr Hp Hcode)
    as Hbody.
  split; [exact Hbody|]. split.
  - rewrite postTweetWithClient_step, Hbody. reflexivity.
  - assert (Hmarker : js "[" ++ slice (toISOString now) 11 19 ++ js "]" = marker).
    { rewrite slice_toISOString_time by exact Hyear.
      unfold marker, timeOfDay. now rewrite <- !app_assoc. }
    split; intros Hinc.
    + destruct (uniqueTweet_with_token tweetText (slice (toISOString now) 11 19) Hinc)
        as (pre & post & Htext & _ & Hfirst & Hunique).
      exists pre, post. rewrite Hunique, Hmarker. now repeat split.
    + rewrite uniqueTweet_without_token by exact Hinc. now rewrite Hmarker.
Qed.

(** C10.  The mutation lengthens any text by 11 code units, whichever way
    the marker goes in.  So for a valid text of 270 to 280 code units that
    is rejected with code 187 while the budget is positive, the retried
    text is over 280: the retry fails validation, the provider has been
    called once only, and the record appended to the failure queue holds
    the mutated text, which is not the text the caller passed. *)
Theorem duplicate_retry_overflows
    (tweetText : jsstring) (obj : ClientObj.t) (config : Config)
    (retryCount : Z) (w : World) (e : JsError) :
  270 <= jslength tweetText <= 280 -> 0 < retryCount ->
  provider w (ClientObj.client obj) (trace w) tweetText = Rejected (ThrownError e) ->
  code e = NumericCode 187 ->
  let accountNumber := ClientObj.accountNumber obj in
  let mutated :=
    uniqueTweet tweetText (slice (toISOString (clock w (clockReads w))) 11 19) in
  let w1 := logEvent (Slept 2000)
                     (tick (logEvent (Tweeted (ClientObj.client obj) tweetText) w)) in
  let w' := afterSaveFailed w1 mutated accountNumber in
  (forall text t,
      jslength (uniqueTweet text (slice (toISOString t) 11 19)) = jslength text + 11)
  /\ 280 < jslength mutated
  /\ postTweetWithClient tweetText obj config retryCount w
     = (Normal (failedResult
                  (Error (js "Tweet text exceeds maximum length of 280 characters"))
                  accountNumber), w')
  /\ tweetsSent w' = (tweetsSent w + 1)%nat
  /\ failed_tweets_json w'
     = Some (Items (queueOf w ++ [failedRecord w1 mutated accountNumber]))
  /\ FailedTweet.text (failedRecord w1 mutated accountNumber) = mutated
  /\ mutated <> tweetText.
Proof.
  intros Hlen Hr Hp Hcode accountNumber mutated w1 w'.
  assert (Hgrow : forall text t,
             jslength (uniqueTweet text (slice (toISOString t) 11 19))
             = jslength text + 11).
  { intros text t. rewrite uniqueTweet_length, slice_toISOString_length. lia. }
  assert (Hlong : 280 < jslength mutated) by (unfold mutated; rewrite Hgrow; lia).
  split; [exact Hgrow|]. split; [exact Hlong|]. split.
  - rewrite postTweetWithClient_step.
    rewrite (postTweetWithClient_body_duplicate _ obj config _ _ e) by (trivial; lia).
    now apply postTweetWithClient_too_long.
  - split; [|split; [|split]].
    + subst w' w1. autorewrite with world. simpl. lia.
    + reflexivity.
    + reflexivity.
    + intros Heq. rewrite Heq in Hlong. lia.
Qed.

(** ** twitterService.js: the history store *)

Lemma keepLast_length {A} (n : nat) (xs : list A) : (length (keepLast n xs) <= n)%nat.
Proof. unfold keepLast. rewrite length_skipn. lia. Qed.

Lemma keepLast_split {A} (n : nat) (xs : list A) :
  xs = firstn (length xs - n) xs ++ keepLast n xs.
Proof. unfold keepLast. now rewrite firstn_skipn. Qed.

(** The last element stays last. *)
Lemma keepLast_snoc {A} (n : nat) (xs : list A) (x : A) :
  keepLast (S n) (xs ++ [x]) = keepLast n xs ++ [x].
Proof.
  unfold keepLast. rewrite length_app. simpl length.
  replace (length xs + 1 - S n)%nat with (length xs - n)%nat by lia.
  rewrite skipn_app.
  replace (length xs - n - length xs)%nat with 0%nat by lia.
  reflexivity.
Qed.

(** [saveTweetHistory] never throws: it reads the clock once and rewrites
    the file with the last 100 entries of the history it could read
    followed by the new record, which it also returns. *)
Lemma saveTweetHistory_eq (tweetText : jsstring) (results : list PostResult.t)
    (w : World) :
  let stored := keepLast 100 (historyOf w ++ [historyRecord w tweetText results]) in
  saveTweetHistory tweetText results w = (Normal stored, setHistoryFile stored (tick w)).
Proof.
  cbv zeta.
  unfold saveTweetHistory, historyOf, historyRecord, try_catch, bind, existsSync,
    readFileSync, JSON_parse, newDate, writeHistoryFile, ret, throw.
  set (record := {| HistoryEntry.timestamp := _ |}).
  assert (Hslice : forall h : list HistoryEntry.t,
             (if Z.of_nat (length (h ++ [record])) >? 100
              then arraySlice (h ++ [record]) (Z.of_nat (length (h ++ [record])) - 100)
              else h ++ [record])
             = keepLast 100 (h ++ [record])).
  { intros h. unfold keepLast, arraySlice. rewrite Z.gtb_ltb.
    destruct (Z.ltb_spec 100 (Z.of_nat (length (h ++ [record])))) as [Hgt|Hle].
    - destruct (Z.ltb_spec (Z.of_nat (length (h ++ [record])) - 100) 0); [lia|].
      f_equal. lia.
    - replace (length (h ++ [record]) - 100)%nat with 0%nat by lia. reflexivity. }
  destruct (tweet_history_json w) as [[|h]|] eqn:E; cbn; rewrite ?E; cbn;
    fold record; rewrite ?Hslice; reflexivity.
Qed.

(** C6.  An append to a stored history list leaves at most 100 entries in
    the file, the new entry last; what is dropped is a front segment of the
    old list, the oldest entries by insertion, and all of the rest is kept
    in order.  Appending to a list of exactly 100 drops exactly its first
    entry. *)
Theorem saveTweetHistory_keeps_last_100
    (tweetText : jsstring) (results : list PostResult.t) (w : World)
    (history : list HistoryEntry.t) :
  tweet_history_json w = Some (Items history) ->
  let record := historyRecord w tweetText results in
  exists stored evicted kept w',
    saveTweetHistory tweetText results w = (Normal stored, w')
    /\ tweet_history_json w' = Some (Items stored)
    /\ (length stored <= 100)%nat
    /\ stored = kept ++ [record]
    /\ history = evicted ++ kept
    /\ length evicted = (length history + 1 - 100)%nat
    /\ (length history = 100%nat ->
        exists oldest, history = oldest :: kept /\ evicted = [oldest]).
Proof.
  intros Hfile record.
  pose proof (saveTweetHistory_eq tweetText results w) as Hsave. cbv zeta in Hsave.
  unfold historyOf in Hsave. rewrite Hfile in Hsave. fold record in Hsave.
  change 100%nat with (S 99) in Hsave at 1 2. rewrite keepLast_snoc in Hsave.
  exists (keepLast 99 history ++ [record]), (firstn (length history - 99) history),
         (keepLast 99 history), (setHistoryFile (keepLast 99 history ++ [record]) (tick w)).
  split; [exact Hsave|]. split; [reflexivity|].
  pose proof (keepLast_length 99 history) as Hkept.
  split; [rewrite length_app; simpl; lia|]. split; [reflexivity|].
  split; [apply keepLast_split|].
  split; [rewrite length_firstn; lia|].
  intros H100. unfold keepLast. rewrite H100. simpl Nat.sub.
  destruct history as [|oldest rest]; [discriminate|].
  exists oldest. split; reflexivity.
Qed.

(** ** twitterService.js: the retry pass *)

(** *** Grouping *)

Lemma getTweets_pushTweet (obj : TweetsByAccount) (tweet : FailedTweet.t) (key : Z) :
  getTweets (pushTweet obj tweet) key
  = getTweets obj key
    ++ (if FailedTweet.accountNumber tweet =? key then [tweet] else []).
Proof.
  induction obj as [|[k accountTweets] rest IH]; simpl.
  - now destruct (FailedTweet.accountNumber tweet =? key).
  - destruct (Z.eqb_spec k (FailedTweet.accountNumber tweet)) as [Hk|Hk]; simpl.
    + subst k. destruct (FailedTweet.accountNumber tweet =? key).
      * reflexivity.
      * now rewrite app_nil_r.
    + destruct (Z.eqb_spec k key) as [Hkey|Hkey].
      * subst k.
        replace (FailedTweet.accountNumber tweet =? key) with false
          by (symmetry; apply Z.eqb_neq; congruence).
        now rewrite app_nil_r.
      * exact IH.
Qed.

(** The array under a key holds the entries of that account, in the order
    of the queue. *)
Lemma getTweets_fold (failedTweets : list FailedTweet.t) (obj : TweetsByAccount)
    (key : Z) :
  getTweets (fold_left pushTweet failedTweets obj) key
  = getTweets obj key
    ++ filter (fun tweet => FailedTweet.accountNumber tweet =? key) failedTweets.
Proof.
  revert obj. induction failedTweets as [|tweet rest IH]; intros obj; simpl.
  - now rewrite app_nil_r.
  - rewrite IH, getTweets_pushTweet, <- app_assoc.
    now destruct (FailedTweet.accountNumber tweet =? key).
Qed.

Lemma keys_pushTweet (obj : TweetsByAccount) (tweet : FailedTweet.t) :
  (In (FailedTweet.accountNumber tweet) (map fst obj)
   /\ map fst (pushTweet obj tweet) = map fst obj)
  \/ (~ In (FailedTweet.accountNumber tweet) (map fst obj)
      /\ map fst (pushTweet obj tweet) = map fst obj ++ [FailedTweet.accountNumber tweet]).
Proof.
  induction obj as [|[k accountTweets] rest IH]; simpl.
  - right. split; [tauto | reflexivity].
  - destruct (Z.eqb_spec k (FailedTweet.accountNumber tweet)) as [Hk|Hk]; simpl.
    + left. split; [now left | reflexivity].
    + destruct IH as [[Hin Heq]|[Hnin Heq]]; rewrite Heq.
      * left. split; [now right | reflexivity].
      * right. split; [tauto | reflexivity].
Qed.

(** The keys of the object are the account numbers of the queue, each
    once. *)
Lemma keys_fold (failedTweets : list FailedTweet.t) (obj : TweetsByAccount) :
  NoDup (map fst obj) ->
  NoDup (map fst (fold_left pushTweet failedTweets obj))
  /\ forall k, In k (map fst (fold_left pushTweet failedTweets obj))
               <-> In k (map fst obj)
                   \/ In k (map FailedTweet.accountNumber failedTweets).
Proof.
  revert obj. induction failedTweets as [|tweet rest IH]; intros obj Hnd; simpl.
  - split; [exact Hnd | tauto].
  - destruct (keys_pushTweet obj tweet) as [[Hin Heq]|[Hnin Heq]].
    + destruct (IH (pushTweet obj tweet)) as [Hnd' Hiff]; [now rewrite Heq|].
      split; [exact Hnd'|]. intros k. rewrite Hiff, Heq.
      split; [tauto|]. intros [H|[H|H]]; subst; tauto.
    + assert (Hnd1 : NoDup (map fst (pushTweet obj tweet))).
      { rewrite Heq. apply NoDup_app; trivial.
        - constructor; [tauto | constructor].
        - intros a Ha [Hb|[]]. subst. tauto. }
      destruct (IH (pushTweet obj tweet) Hnd1) as [Hnd' Hiff].
      split; [exact Hnd'|]. intros k. rewrite Hiff, Heq, in_app_iff. simpl. tauto.
Qed.

Lemma In_insertKey (key x : Z) (sorted : list Z) :
  In x (insertKey key sorted) <-> x = key \/ In x sorted.
Proof.
  induction sorted as [|k rest IH]; simpl.
  - intuition.
  - destruct (key <=? k); simpl; rewrite ?IH; intuition.
Qed.

Lemma NoDup_insertKey (key : Z) (sorted : list Z) :
  ~ In key sorted -> NoDup sorted -> NoDup (insertKey key sorted).
Proof.
  induction sorted as [|k rest IH]; simpl; intros Hnin Hnd.
  - constructor; [tauto | constructor].
  - inversion Hnd; subst. destruct (key <=? k).
    + constructor; [simpl; tauto | exact Hnd].
    + constructor.
      * rewrite In_insertKey. intuition.
      * apply IH; tauto.
Qed.

Lemma sortKeys_perm (keys : list Z) :
  (forall x, In x (sortKeys keys) <-> In x keys)
  /\ (NoDup keys -> NoDup (sortKeys keys)).
Proof.
  induction keys as [|k rest [IHin IHnd]]; simpl.
  - split; [tauto | trivial].
  - split.
    + intros x. rewrite In_insertKey, IHin. intuition.
    + intros Hnd. inversion Hnd; subst.
      apply NoDup_insertKey; [now rewrite IHin | now apply IHnd].
Qed.

(** [for ... in] visits every key once. *)
Lemma forInKeys_perm (obj : TweetsByAccount) :
  (forall k, In k (forInKeys obj) <-> In k (map fst obj))
  /\ (NoDup (map fst obj) -> NoDup (forInKeys obj)).
Proof.
  unfold forInKeys. split.
  - intros k. rewrite in_app_iff.
    rewrite (proj1 (sortKeys_perm _)), !filter_In.
    destruct (isArrayIndex k); simpl; intuition congruence.
  - intros Hnd. apply NoDup_app.
    + apply sortKeys_perm. now apply NoDup_filter.
    + now apply NoDup_filter.
    + intros a Ha Hb. apply (proj1 (proj1 (sortKeys_perm _) a)) in Ha.
      apply filter_In in Ha as [_ Ha]. apply filter_In in Hb as [_ Hb].
      rewrite Ha in Hb. discriminate.
Qed.


(** *** Nothing in the pass throws *)

Lemma postTweetWithClient_NoThrow tweetText obj config retryCount :
  NoThrow (postTweetWithClient tweetText obj config retryCount).
Proof.
  intros w. revert tweetText retryCount w.
  apply (postTweetWithClient_induction obj config
           (fun _ _ _ out => exists result w', out = (Normal result, w'))); eauto.
Qed.

Lemma bind_NoThrow {A B} (m : M A) (k : A -> M B) :
  NoThrow m -> (forall a, NoThrow (k a)) -> NoThrow (bind m k).
Proof.
  intros Hm Hk w. unfold bind. destruct (Hm w) as (a & w' & ->). apply Hk.
Qed.

Lemma sleep_NoThrow (ms : Z) : NoThrow (sleep ms).
Proof. intros w. unfold sleep. eauto. Qed.


Lemma forOf_ext {A} (xs : list A) (body body' : A -> M unit) :
  (forall x w, body x w = body' x w) ->
  forall w, forOf xs body w = forOf xs body' w.
Proof.
  intros Hext. induction xs as [|x xs IH]; intros w; simpl; [reflexivity|].
  unfold bind. rewrite Hext. destruct (body' x w) as [[[]|e] w']; [apply IH | reflexivity].
Qed.

(** A [try] around a body that does not throw is the body. *)
Lemma try_catch_NoThrow {A} (body : M A) (handler : Thrown -> M A) :
  NoThrow body -> forall w, try_catch body handler w = body w.
Proof.
  intros Hbody w. unfold try_catch. now destruct (Hbody w) as (a & w' & ->).
Qed.

Lemma replayEntry_NoThrow clientObj config tweet :
  NoThrow (replayEntry clientObj config tweet).
Proof.
  unfold replayEntry. apply bind_NoThrow.
  - apply postTweetWithClient_NoThrow.
  - intros _. apply sleep_NoThrow.
Qed.


(** The code's [find] over [twitterClients] gives the matching client. *)
Lemma findClient_matchingClient twitterClients accountNumber :
  findClient twitterClients accountNumber = matchingClient accountNumber twitterClients.
Proof.
  unfold findClient.
  induction twitterClients as [|clientObj others IH]; simpl; [reflexivity|].
  destruct (Z.eq_dec (ClientObj.accountNumber clientObj) accountNumber) as [Heq|Hne].
  - rewrite Heq, Z.eqb_refl. reflexivity.
  - destruct (Z.eqb_spec (ClientObj.accountNumber clientObj) accountNumber);
      [contradiction | exact IH].
Qed.


(** The loop body of the code, on the object that the code builds, is the
    group of the specification. *)
Lemma retryAccount_replayGroup twitterClients config failedTweets accountNumber w :
  retryAccount twitterClients config (fold_left pushTweet failedTweets []) accountNumber w
  = replayGroup twitterClients config failedTweets accountNumber w.
Proof.
  unfold retryAccount, replayGroup. rewrite getTweets_fold. simpl app.
  rewrite findClient_matchingClient.
  destruct (matchingClient accountNumber twitterClients) as [clientObj|]; [|reflexivity].
  apply forOf_ext. intros tweet w0.
  apply (try_catch_NoThrow (replayEntry clientObj config tweet)).
  apply replayEntry_NoThrow.
Qed.


(* ===================================================================== *)
(** * Part III: the properties at sample inputs                           *)
(* ===================================================================== *)

(** The empty text is refused in the sample world without a call to the
    provider. *)
Lemma postTweetWithClient_rejects_invalid_text_witness :
  exists msg w',
    postTweetWithClient [] sampleClient sampleConfig 1 sampleWorld
    = (Normal (failedResult (Error msg) 1), w')
    /\ tweetsSent w' = tweetsSent sampleWorld.
Proof.
  destruct (postTweetWithClient_rejects_invalid_text [] sampleClient sampleConfig 1
              sampleWorld (or_introl eq_refl))
    as (msg & _ & Hpost & _ & _ & Hsent & _).
  exists msg, (afterSaveFailed sampleWorld [] 1). split; [exact Hpost | exact Hsent].
Defined.

(** The duplicate-content retry in the sample world. *)
Lemma duplicate_retry_inserts_time_marker_witness :
  exists retried w1,
    postTweetWithClient_body (js "gm @giverep fam") sampleClient sampleConfig 1 sampleWorld
    = (Normal (ReturnCall retried 0), w1).
Proof.
  destruct (duplicate_retry_inserts_time_marker (js "gm @giverep fam") sampleClient
              sampleConfig 1 sampleWorld duplicateError)
    as (retried & Hbody & _).
  - vm_compute. split; [reflexivity | discriminate].
  - reflexivity.
  - reflexivity.
  - reflexivity.
  - vm_compute. discriminate.
  - exists retried. eexists. exact Hbody.
Defined.

Example duplicate_retry_with_token :
  fst (postTweetWithClient_body (js "gm @giverep fam") sampleClient sampleConfig 1
         sampleWorld)
  = Normal (ReturnCall (js "gm [22:13:20] @giverep fam") 0).
Proof. vm_compute. reflexivity. Qed.

Example duplicate_retry_without_token :
  fst (postTweetWithClient_body (js "gm fam") sampleClient sampleConfig 1 sampleWorld)
  = Normal (ReturnCall (js "gm fam [22:13:20]") 0).
Proof. vm_compute. reflexivity. Qed.

(** An append to the empty stored history of the sample world. *)
Lemma saveTweetHistory_keeps_last_100_witness :
  exists stored w',
    saveTweetHistory (js "gm") [] sampleWorld = (Normal stored, w')
    /\ (length stored <= 100)%nat.
Proof.
  destruct (saveTweetHistory_keeps_last_100 (js "gm") [] sampleWorld [] eq_refl)
    as (stored & _ & _ & w' & Hsave & _ & Hlen & _).
  exists stored, w'. split; [exact Hsave | exact Hlen].
Defined.

(** A budget of one in the sample world: at most two calls. *)
Lemma postTweetWithClient_bounded_attempts_witness :
  exists result w',
    postTweetWithClient (js "gm fam") sampleClient sampleConfig 1 sampleWorld
    = (Normal result, w')
    /\ Z.of_nat (tweetsSent w') - Z.of_nat (tweetsSent sampleWorld) <= 1 + 1.
Proof.
  refine (proj2 (postTweetWithClient_bounded_attempts (js "gm fam") sampleClient
                   sampleConfig 1 sampleWorld _)).
  discriminate.
Defined.

Example retry_succeeds_on_second_attempt :
  let '(result, w') :=
    postTweetWithClient (js "gm fam") sampleClient sampleConfig 1 sampleWorld in
  result = Normal {| PostResult.success := true;
                     PostResult.response := Some {| data := Some {| id := Some (js "1725") |} |};
                     PostResult.error := None;
                     PostResult.accountNumber := 1 |}
  /\ trace w' = [Tweeted sampleSession (js "gm fam"); Slept 2000;
                 Tweeted sampleSession (js "gm fam [22:13:20]")].
Proof. vm_compute. split; reflexivity. Qed.

(** A text of 275 letters in the sample world: the retried text is too
    long and it is what the queue receives. *)
Lemma duplicate_retry_overflows_witness :
  exists mutated result w',
    postTweetWithClient (repeat 97%N 275) sampleClient sampleConfig 1 sampleWorld
    = (Normal result, w')
    /\ PostResult.success result = false
    /\ jslength mutated = 286
    /\ tweetsSent w' = 1%nat
    /\ exists record, failed_tweets_json w' = Some (Items [record])
                      /\ FailedTweet.text record = mutated.
Proof.
  destruct (duplicate_retry_overflows (repeat 97%N 275) sampleClient sampleConfig 1
              sampleWorld duplicateError)
    as (Hgrow & _ & Hpost & Hsent & Hqueue & Htext & _).
  - vm_compute. split; discriminate.
  - reflexivity.
  - reflexivity.
  - reflexivity.
  - do 3 eexists. split; [exact Hpost|]. split; [reflexivity|].
    split; [apply (Hgrow (repeat 97%N 275))|]. split; [exact Hsent|].
    eexists. split; [exact Hqueue | exact Htext].
Defined.

(** The retry pass over the queued world: the entry of account 2 is
    skipped, the two entries of account 1 are posted in their order, and
    the file ends empty. *)
Example retryFailedTweets_skips_unmatched :
  let '(result, w') := retryFailedTweets [sampleClient] sampleConfig queuedWorld in
  result = Normal true
  /\ failed_tweets_json w' = Some (Items [])
  /\ trace w' = [Tweeted sampleSession (js "first"); Slept 30000;
                 Tweeted sampleSession (js "second"); Slept 30000;
                 WroteFailedTweets []].
Proof. vm_compute. repeat split. Qed.

(** A failed replay is queued again by the posting primitive and then
    lost when the pass clears the file. *)
Example retryFailedTweets_drops_failed_again :
  let w := {| provider := fun _ _ _ => Rejected (ThrownError duplicateError);
              clock := clock sampleWorld; clockReads := 0;
              tweet_history_json := None;
              failed_tweets_json := Some (Items [queued (repeat 97%N 280) 1]);
              trace := [] |} in
  let '(result, w') := retryFailedTweets [sampleClient] sampleConfig w in
  result = Normal true
  /\ failed_tweets_json w' = Some (Items [])
  /\ tweetsSent w' = 1%nat.
Proof. vm_compute. repeat split. Qed.

(** The delay policy at the boundaries: error rates of exactly 0.5, 0.3
    and 0.1 over ten outcomes fall to the lower tier, fewer than three
    outcomes and another account's history give the default, and only the
    ten most recent outcomes count. *)
Example calculateSmartDelay_boundaries :
  calculateSmartDelay 1 (Some (sampleHistory 6 4)) = 120000
  /\ calculateSmartDelay 1 (Some (sampleHistory 5 5)) = 60000
  /\ calculateSmartDelay 1 (Some (sampleHistory 4 6)) = 60000
  /\ calculateSmartDelay 1 (Some (sampleHistory 3 7)) = 45000
  /\ calculateSmartDelay 1 (Some (sampleHistory 2 8)) = 45000
  /\ calculateSmartDelay 1 (Some (sampleHistory 1 9)) = 30000
  /\ calculateSmartDelay 1 (Some (sampleHistory 2 0)) = 30000
  /\ calculateSmartDelay 2 (Some (sampleHistory 6 4)) = 30000
  /\ calculateSmartDelay 1 (Some (sampleHistory 20 10)) = 30000
  /\ calculateSmartDelay 1 None = 30000.
Proof. vm_compute. repeat split. Qed.

(* ===================================================================== *)
(** * Part IV: further properties of the code                             *)
(* ===================================================================== *)

(** ** aiService.js: [detectLanguage] *)

(** The Arabic range of the second pattern lies inside the range of the
    first. *)
Lemma arabic_range_in_persian_range (text : jsstring) :
  hasCharIn 0x0600 0x06FF text = false -> hasCharIn 0x0621 0x064A text = false.
Proof.
  unfold hasCharIn. induction text as [|c text IH]; simpl; [trivial|].
  intros H. apply orb_false_iff in H as [Hc Htext].
  rewrite (IH Htext), orb_false_r.
  unfold inRange in *.
  destruct (N.leb_spec 0x0621 c); destruct (N.leb_spec c 0x064A); trivial.
  destruct (N.leb_spec 0x0600 c); destruct (N.leb_spec c 0x06FF); simpl in *;
    try discriminate; lia.
Qed.

(** The class of the third pattern holds every code unit but the
    underscore. *)
Lemma englishClass_not_underscore (c : N) : englishClass c = negb (c =? 95)%N.
Proof.
  unfold englishClass, isWordChar.
  destruct (N.eqb_spec c 95) as [->|Hc]; [reflexivity|].
  destruct (inRange 65 90 c); destruct (inRange 97 122 c);
    destruct (inRange 48 57 c); simpl; trivial.
  now rewrite orb_true_r.
Qed.

Lemma allEnglishClass_no_underscore (text : jsstring) :
  allEnglishClass text = negb (existsb (fun c => c =? 95)%N text).
Proof.
  unfold allEnglishClass. induction text as [|c text IH]; simpl; [trivial|].
  rewrite IH, englishClass_not_underscore. now rewrite negb_orb.
Qed.

Lemma firstMatching_langPatterns (text : jsstring) :
  firstMatching langPatterns text
  = if hasCharIn 0x0600 0x06FF text then Some (js "fa")
    else if negb (existsb (fun c => c =? 95)%N text) then Some (js "en")
    else if hasCharIn 0x0400 0x04FF text then Some (js "ru")
    else if hasCharIn 0x4E00 0x9FFF text then Some (js "zh")
    else if hasCharIn 0x3040 0x30FF text then Some (js "ja")
    else if hasCharIn 0xAC00 0xD7AF text then Some (js "ko")
    else None.
Proof.
  unfold langPatterns. cbn [firstMatching].
  destruct (hasCharIn 0x0600 0x06FF text) eqn:Hfa; [reflexivity|].
  rewrite (arabic_range_in_persian_range text Hfa), allEnglishClass_no_underscore.
  reflexivity.
Qed.

(** The decision that [detectLanguage] takes: Persian for any code unit of
    the Arabic block; otherwise English for any text without underscore,
    whatever its script; only a text with an underscore reaches the
    Cyrillic, Chinese, Japanese and Korean patterns, in that order. *)
Theorem detectLanguage_decision (text : jsstring) :
  detectLanguage text
  = if hasCharIn 0x0600 0x06FF text then js "fa"
    else if negb (existsb (fun c => c =? 95)%N text) then js "en"
    else if hasCharIn 0x0400 0x04FF text then js "ru"
    else if hasCharIn 0x4E00 0x9FFF text then js "zh"
    else if hasCharIn 0x3040 0x30FF text then js "ja"
    else if hasCharIn 0xAC00 0xD7AF text then js "ko"
    else js "unknown".
Proof.
  unfold detectLanguage. rewrite firstMatching_langPatterns.
  repeat match goal with
         | |- context [if ?b then _ else _] => destruct b
         end; reflexivity.
Qed.

(** [detectLanguage] never answers ['ar']: a text that the Arabic pattern
    matches is matched by the Persian pattern, which comes first. *)
Theorem detectLanguage_never_arabic (text : jsstring) :
  detectLanguage text <> js "ar".
Proof.
  unfold detectLanguage. rewrite firstMatching_langPatterns.
  repeat match goal with
         | |- context [if ?b then _ else _] => destruct b
         end; discriminate.
Qed.

Example detectLanguage_samples :
  detectLanguage arabicText = js "fa"
  /\ detectLanguage persianText = js "fa"
  /\ detectLanguage koreanText = js "en"
  /\ detectLanguage chineseText = js "en"
  /\ detectLanguage [] = js "en"
  /\ detectLanguage (js "snake_case") = js "unknown".
Proof. vm_compute. repeat split. Qed.

(** ** aiService.js: [initializeAI] *)

Lemma orElse_nonEmpty (s : option jsstring) (fallback : jsstring) :
  nonEmpty fallback = true -> nonEmpty (orElse s fallback) = true.
Proof. intros H. destruct s as [[|c s]|]; simpl; trivial. Qed.

(** With a default key that is not empty, [initializeAI] selects the AIML
    service and builds no client, whatever the environment and the
    configuration hold: the DeepSeek, OpenAI and fallback branches are
    never taken. *)
Theorem initializeAI_always_AIML
    (DEFAULT_AIML_API_KEY : jsstring) (env : ProcessEnv) (config : AiConfig) :
  DEFAULT_AIML_API_KEY <> [] ->
  initializeAI DEFAULT_AIML_API_KEY env config = (None, js "AIML").
Proof.
  intros Hkey. unfold initializeAI. cbv zeta.
  rewrite orElse_nonEmpty; [reflexivity|].
  apply orElse_nonEmpty. now destruct DEFAULT_AIML_API_KEY.
Qed.

(** ** aiService.js: [getAlternativeAIText] and the fallback tweet *)

Lemma alternativeTweet_short (alternativeText : jsstring) :
  jslength alternativeText <= 250 ->
  alternativeTweet alternativeText = alternativeText ++ js " " ++ REQUIRED_TAGS.
Proof.
  intros Hlen. unfold alternativeTweet. rewrite Z.gtb_ltb.
  destruct (Z.ltb_spec 280 (jslength (alternativeText ++ js " " ++ REQUIRED_TAGS)))
    as [H|H]; [|reflexivity].
  rewrite !jslength_app, REQUIRED_TAGS_length in H.
  change (jslength (js " ")) with 1 in H. lia.
Qed.

Lemma getAlternativeAIText_candidates (random : Q) :
  In (getAlternativeAIText random) (lastResortText :: languages).
Proof.
  unfold getAlternativeAIText. cbv zeta.
  destruct (Qfloor _ <? 0); [now left|].
  destruct (nth_error languages _) as [t|] eqn:E; [|now left].
  right. eapply nth_error_In; eauto.
Qed.

(** Whatever [Math.random] gives, the tweet built from the alternative
    text (the branch without API key and the branch after an AI failure)
    is the text, a space and the tags, uncut, of at most 280 code units
    and not empty. *)
Theorem generateTweet_fallback_fits (random : Q) (reply : AiReply) :
  let alternativeText := getAlternativeAIText random in
  let tweet := generateTweet (js "Fallback") reply alternativeText in
  tweet = alternativeText ++ js " " ++ REQUIRED_TAGS
  /\ generateTweet (js "AIML") AiFailure alternativeText = tweet
  /\ 0 < jslength tweet <= 280.
Proof.
  cbv zeta.
  assert (Hshort : forall t, In t (lastResortText :: languages) -> jslength t <= 250).
  { assert (Hall : forallb (fun t => jslength t <=? 250) (lastResortText :: languages)
                   = true) by (vm_compute; reflexivity).
    rewrite forallb_forall in Hall. intros t Ht. apply Z.leb_le. now apply Hall. }
  pose proof (Hshort _ (getAlternativeAIText_candidates random)) as Hlen.
  change (generateTweet (js "Fallback") reply (getAlternativeAIText random))
    with (alternativeTweet (getAlternativeAIText random)).
  change (generateTweet (js "AIML") AiFailure (getAlternativeAIText random))
    with (alternativeTweet (getAlternativeAIText random)).
  rewrite alternativeTweet_short by exact Hlen.
  split; [reflexivity|]. split; [reflexivity|].
  rewrite !jslength_app, REQUIRED_TAGS_length. change (jslength (js " ")) with 1.
  pose proof (jslength_nonneg (getAlternativeAIText random)). lia.
Qed.

(** ** aiService.js: [generateTweet] *)

Lemma indexOfFrom_app (pat pre post : jsstring) (i : Z) :
  0 <= i -> 0 <= indexOfFrom pat (pre ++ pat ++ post) i.
Proof.
  revert i. induction pre as [|c pre IH]; intros i Hi.
  - assert (H : startsWith ([] ++ pat ++ post) pat = true)
      by (apply startsWith_app; now exists post).
    destruct pat as [|p pat]; simpl in *.
    + destruct post; simpl; lia.
    + rewrite H. lia.
  - simpl. destruct (startsWith (c :: pre ++ pat ++ post) pat); [lia|].
    specialize (IH (i + 1)). lia.
Qed.

Lemma includes_app (pat pre post : jsstring) :
  includes (pre ++ pat ++ post) pat = true.
Proof.
  unfold includes, indexOf. apply negb_true_iff, Z.eqb_neq.
  pose proof (indexOfFrom_app pat pre post 0). lia.
Qed.

Lemma taggedTweet_suffix (generatedText : jsstring) :
  exists body, taggedTweet generatedText = body ++ js " " ++ REQUIRED_TAGS.
Proof.
  unfold taggedTweet. destruct (_ >? 280); eexists; reflexivity.
Qed.

Lemma alternativeTweet_suffix (alternativeText : jsstring) :
  exists body, alternativeTweet alternativeText = body ++ js " " ++ REQUIRED_TAGS.
Proof.
  unfold alternativeTweet. destruct (_ >? 280).
  - exists (substring alternativeText 0 (280 - jslength REQUIRED_TAGS - 1) ++ js "...").
    now rewrite <- app_assoc.
  - eexists; reflexivity.
Qed.

(** Every tweet that [generateTweet] returns ends with a space and the
    required tags, cut or not, and so contains the mention [@giverep]:
    on a duplicate-content rejection of a generated tweet the time marker
    is inserted before a mention, never appended. *)
Theorem generateTweet_ends_with_tags
    (aiServiceName : jsstring) (reply : AiReply) (alternativeText : jsstring) :
  let tweet := generateTweet aiServiceName reply alternativeText in
  (exists body, tweet = body ++ js " " ++ REQUIRED_TAGS)
  /\ includes tweet (js "@giverep") = true
  /\ forall timestamp,
       exists pre post,
         tweet = pre ++ js "@giverep" ++ post
         /\ uniqueTweet tweet timestamp
            = pre ++ (js "[" ++ timestamp ++ js "]") ++ js " " ++ js "@giverep" ++ post.
Proof.
  cbv zeta.
  assert (Hsuffix : exists body,
             generateTweet aiServiceName reply alternativeText
             = body ++ js " " ++ REQUIRED_TAGS).
  { unfold generateTweet. destruct (jseqb aiServiceName (js "Fallback"));
      [apply alternativeTweet_suffix|].
    destruct reply; [apply taggedTweet_suffix | apply alternativeTweet_suffix]. }
  assert (Hinc : includes (generateTweet aiServiceName reply alternativeText)
                          (js "@giverep") = true).
  { destruct Hsuffix as [body ->].
    change (body ++ js " " ++ REQUIRED_TAGS)
      with (body ++ js " " ++ js "@giverep" ++ js " @PawtatoFinance $REP").
    rewrite app_assoc. apply includes_app. }
  split; [exact Hsuffix|]. split; [exact Hinc|].
  intros timestamp.
  destruct (uniqueTweet_with_token _ timestamp Hinc) as (pre & post & Ht & _ & _ & Hu).
  exists pre, post. split; [exact Ht | exact Hu].
Qed.

(** An AI text that is short enough is kept whole: with at most 250 code
    units after trimming, the tweet is the trimmed text, a space and the
    tags, and it has at most 280 code units. *)
Theorem generateTweet_keeps_short_text
    (aiServiceName content alternativeText : jsstring) :
  jseqb aiServiceName (js "Fallback") = false ->
  jslength (trim content) <= 250 ->
  generateTweet aiServiceName (AiContent content) alternativeText
  = trim content ++ js " " ++ REQUIRED_TAGS
  /\ jslength (generateTweet aiServiceName (AiContent content) alternativeText) <= 280.
Proof.
  intros Hname Hlen. unfold generateTweet. rewrite Hname.
  pose proof (taggedTweet_length (trim content)) as Htl.
  replace (jslength (trim content) <=? 250) with true in Htl
    by (symmetry; now apply Z.leb_le).
  split; [|lia].
  unfold taggedTweet. rewrite Z.gtb_ltb.
  destruct (Z.ltb_spec 280 (jslength (trim content ++ js " " ++ REQUIRED_TAGS)))
    as [H|H]; [|reflexivity].
  rewrite !jslength_app, REQUIRED_TAGS_length in H.
  change (jslength (js " ")) with 1 in H. lia.
Qed.

(** An AI text of more than 250 code units after trimming gives a tweet
    that cannot be posted: [postTweetWithClient] refuses it as longer than
    280 without calling the provider, whatever the budget, and queues it
    as failed. *)
Theorem truncated_tweet_is_never_posted
    (aiServiceName content alternativeText : jsstring)
    (obj : ClientObj.t) (config : Config) (retryCount : Z) (w : World) :
  jseqb aiServiceName (js "Fallback") = false ->
  250 < jslength (trim content) ->
  let tweet := generateTweet aiServiceName (AiContent content) alternativeText in
  let w' := afterSaveFailed w tweet (ClientObj.accountNumber obj) in
  postTweetWithClient tweet obj config retryCount w
  = (Normal (failedResult
               (Error (js "Tweet text exceeds maximum length of 280 characters"))
               (ClientObj.accountNumber obj)), w')
  /\ tweetsSent w' = tweetsSent w
  /\ queueOf w' = queueOf w ++ [failedRecord w tweet (ClientObj.accountNumber obj)].
Proof.
  intros Hname Hlen. cbv zeta.
  assert (Hlong : 280 < jslength (generateTweet aiServiceName (AiContent content)
                                                alternativeText)).
  { unfold generateTweet. rewrite Hname. rewrite taggedTweet_length.
    replace (jslength (trim content) <=? 250) with false
      by (symmetry; apply Z.leb_gt; lia). lia. }
  split; [now apply postTweetWithClient_too_long|].
  split; [now autorewrite with world | reflexivity].
Qed.

(** ** twitterService.js: what a post call does to the world *)

Lemma history_logEvent e w : tweet_history_json (logEvent e w) = tweet_history_json w.
Proof. reflexivity. Qed.
Lemma history_tick w : tweet_history_json (tick w) = tweet_history_json w.
Proof. reflexivity. Qed.
Lemma history_afterSaveFailed w t n :
  tweet_history_json (afterSaveFailed w t n) = tweet_history_json w.
Proof. reflexivity. Qed.

Lemma sleepsDone_logEvent e w :
  sleepsDone (logEvent e w) = (sleepsDone w + if isSlept e then 1 else 0)%nat.
Proof.
  unfold sleepsDone. rewrite trace_logEvent, filter_app, length_app. simpl.
  now destruct (isSlept e).
Qed.

Lemma sleepsDone_tick w : sleepsDone (tick w) = sleepsDone w.
Proof. reflexivity. Qed.

Lemma sleepsDone_afterSaveFailed w t n : sleepsDone (afterSaveFailed w t n) = sleepsDone w.
Proof.
  unfold sleepsDone. rewrite trace_afterSaveFailed, filter_app, length_app. simpl. lia.
Qed.

#[local] Hint Rewrite history_logEvent history_tick history_afterSaveFailed
  sleepsDone_logEvent sleepsDone_tick sleepsDone_afterSaveFailed : world.

(** An activation that returns a call has waited once after one call to
    the provider and has not touched the files. *)
Lemma Activation_call_effects tweetText obj config retryCount w text' retry' w' :
  Activation tweetText obj config retryCount w (ReturnCall text' retry') w' ->
  retry' = retryCount - 1 /\ 0 < retryCount
  /\ provider w' = provider w /\ clock w' = clock w
  /\ tweet_history_json w' = tweet_history_json w
  /\ failed_tweets_json w' = failed_tweets_json w
  /\ sleepsDone w' = (sleepsDone w + 1)%nat
  /\ tweetsSent w' = (tweetsSent w + 1)%nat.
Proof.
  intros H; inversion H; subst; autorewrite with world; simpl;
    repeat split; trivial; lia.
Qed.

Lemma postTweetWithClient_effects tweetText obj config retryCount w :
  PostEffects (ClientObj.accountNumber obj) retryCount w
              (postTweetWithClient tweetText obj config retryCount w).
Proof.
  revert tweetText retryCount w.
  apply (postTweetWithClient_induction obj config
           (fun _ retryCount w out =>
              PostEffects (ClientObj.accountNumber obj) retryCount w out)).
  - intros tweetText retryCount w result w' Hact.
    exists result, w'. split; [reflexivity|].
    inversion Hact; subst; autorewrite with world; simpl;
      (split; [reflexivity|]); (split; [reflexivity|]); (split; [reflexivity|]);
      (split; [reflexivity|]); (split; [lia|]); (split; [lia|]).
    + eexists. split; [reflexivity|]. split; [reflexivity|]. left. eauto.
    + eexists. split; [reflexivity|]. split; [reflexivity|]. left. eauto.
    + auto.
    + eexists. split; [reflexivity|]. split; [reflexivity|]. left.
      exists (logEvent (Tweeted (ClientObj.client obj) tweetText) w), tweetText.
      reflexivity.
    + eexists. split; [reflexivity|]. split; [reflexivity|]. left.
      exists (logEvent (Tweeted (ClientObj.client obj) tweetText) w), tweetText.
      reflexivity.
    + eexists. split; [reflexivity|]. split; [reflexivity|]. right. auto.
  - intros tweetText retryCount w text' retry' w1 Hact
      (result & w' & Hout & Hacc & Hprov & Hclock & Hhist & Hsleep & Htweet & Hres).
    apply Activation_call_effects in Hact
      as (-> & Hpos & Hprov1 & Hclock1 & Hhist1 & Hfail1 & Hsleep1 & Htweet1).
    exists result, w'. split; [exact Hout|]. split; [exact Hacc|].
    split; [congruence|]. split; [congruence|]. split; [congruence|].
    split; [lia|]. split; [lia|].
    assert (Hq : queueOf w1 = queueOf w) by (unfold queueOf; now rewrite Hfail1).
    destruct (PostResult.success result).
    + destruct Hres as (Hid & Herr & Hfail). repeat split; congruence.
    + destruct Hres as (e & Herr & Hresp & Hqueue). exists e.
      split; [exact Herr|]. split; [exact Hresp|].
      destruct Hqueue as [(wq & t & Hfile)|[He Hfile]].
      * left. exists wq, t. now rewrite <- Hq.
      * right. split; [exact He | congruence].
Qed.

(** A call never touches the history file.  A success leaves the failure
    queue as it was; a failure appends exactly one record, for the
    client's account, after the entries that the queue held, except when
    the provider threw [null] or [undefined]: that failure is returned
    with a [TypeError] and is not queued. *)
Theorem postTweetWithClient_queue_effect
    (tweetText : jsstring) (obj : ClientObj.t) (config : Config)
    (retryCount : Z) (w : World) :
  exists result w',
    postTweetWithClient tweetText obj config retryCount w = (Normal result, w')
    /\ tweet_history_json w' = tweet_history_json w
    /\ (PostResult.success result = true ->
        failed_tweets_json w' = failed_tweets_json w)
    /\ (PostResult.success result = false ->
        (exists record,
            failed_tweets_json w' = Some (Items (queueOf w ++ [record]))
            /\ FailedTweet.accountNumber record = ClientObj.accountNumber obj)
        \/ (PostResult.error result = Some TypeError
            /\ failed_tweets_json w' = failed_tweets_json w)).
Proof.
  destruct (postTweetWithClient_effects tweetText obj config retryCount w)
    as (result & w' & Hout & _ & _ & _ & Hhist & _ & _ & Hres).
  exists result, w'. split; [exact Hout|]. split; [exact Hhist|].
  destruct (PostResult.success result); split; try discriminate.
  - intros _. apply Hres.
  - intros _. destruct Hres as (e & Herr & _ & [(wq & t & Hfile)|[-> Hfile]]).
    + left. eexists. split; [exact Hfile | reflexivity].
    + right. split; [exact Herr | exact Hfile].
Qed.

(** A call waits once before each further call to the provider and never
    otherwise: the waits are at most the budget (none for a budget of zero
    or less), and the calls to the provider are the waits or one more. *)
Theorem postTweetWithClient_waits_between_attempts
    (tweetText : jsstring) (obj : ClientObj.t) (config : Config)
    (retryCount : Z) (w : World) :
  exists result w' waits attempts,
    postTweetWithClient tweetText obj config retryCount w = (Normal result, w')
    /\ sleepsDone w' = (sleepsDone w + waits)%nat
    /\ tweetsSent w' = (tweetsSent w + attempts)%nat
    /\ Z.of_nat waits <= Z.max retryCount 0
    /\ (attempts = waits \/ attempts = S waits).
Proof.
  destruct (postTweetWithClient_effects tweetText obj config retryCount w)
    as (result & w' & Hout & _ & _ & _ & _ & Hsleep & Htweet & _).
  exists result, w', (sleepsDone w' - sleepsDone w)%nat, (tweetsSent w' - tweetsSent w)%nat.
  split; [exact Hout|]. repeat split; lia.
Qed.

(** The history summary of a result that [postTweetWithClient] returned:
    for a success, the identifier of the provider's response, which is
    not empty (the placeholder ['unknown'] never appears), and no error;
    for a failure, no identifier and an error text that is not empty. *)
Theorem accountSummary_of_post_result
    (tweetText : jsstring) (obj : ClientObj.t) (config : Config)
    (retryCount : Z) (w : World) :
  exists result w',
    postTweetWithClient tweetText obj config retryCount w = (Normal result, w')
    /\ AccountOutcome.accountNumber (accountSummary result) = ClientObj.accountNumber obj
    /\ AccountOutcome.success (accountSummary result) = PostResult.success result
    /\ (if PostResult.success result
        then AccountOutcome.error (accountSummary result) = None
             /\ exists i, i <> []
                          /\ responseId (PostResult.response result) = Some i
                          /\ AccountOutcome.tweetId (accountSummary result) = Some i
        else AccountOutcome.tweetId (accountSummary result) = None
             /\ exists text, text <> []
                             /\ AccountOutcome.error (accountSummary result) = Some text).
Proof.
  destruct (postTweetWithClient_effects tweetText obj config retryCount w)
    as (result & w' & Hout & Hacc & _ & _ & _ & _ & _ & Hres).
  exists result, w'. split; [exact Hout|]. split; [exact Hacc|]. split; [reflexivity|].
  unfold accountSummary. simpl.
  destruct (PostResult.success result); simpl.
  - destruct Hres as (Hid & _ & _). split; [reflexivity|].
    apply hasTweetId_nonempty in Hid as (i & Hi & Hne).
    exists i. rewrite Hi. split; [exact Hne|]. split; [reflexivity|].
    destruct i; [contradiction | reflexivity].
  - split; [reflexivity|].
    eexists. split; [|reflexivity].
    destruct (thrownMessage (PostResult.error result)) as [[|c m]|]; discriminate.
Qed.

(** Picks the case of the state machine that the hypotheses leave. *)
Ltac activation_case Hact Hp :=
  inversion Hact; subst; try lia; try congruence;
  try match goal with
      | H : provider _ _ _ _ = Rejected (ThrownError ?e1) |- _ =>
          rewrite Hp in H; injection H as <-
      end.

(** A provider that throws [null] or [undefined] is tried once: the
    failure is returned with the [TypeError] raised while reading the
    thrown value, without retry and without a record in the queue. *)
Theorem postTweetWithClient_thrown_null
    (tweetText : jsstring) (obj : ClientObj.t) (config : Config)
    (retryCount : Z) (w : World) :
  0 < jslength tweetText <= 280 ->
  provider w (ClientObj.client obj) (trace w) tweetText = Rejected ThrownNullish ->
  postTweetWithClient tweetText obj config retryCount w
  = (Normal (failedResult TypeError (ClientObj.accountNumber obj)),
     logEvent (Tweeted (ClientObj.client obj) tweetText) w).
Proof.
  intros Hvalid Hp. rewrite postTweetWithClient_step.
  destruct (postTweetWithClient_body_activation tweetText obj config retryCount w)
    as (returned & w' & Hbody & Hact).
  rewrite Hbody. activation_case Hact Hp; reflexivity.
Qed.

(** Only the numbers 429 and 187 are retried.  A rejection with any other
    code, with a code that is a string (['429'] included) or with none is
    permanent whatever the budget: one call to the provider, no wait, the
    error returned as it was thrown and the text queued unchanged. *)
Theorem postTweetWithClient_permanent_failure
    (tweetText : jsstring) (obj : ClientObj.t) (config : Config)
    (retryCount : Z) (w : World) (e : JsError) :
  0 < jslength tweetText <= 280 ->
  provider w (ClientObj.client obj) (trace w) tweetText = Rejected (ThrownError e) ->
  code e <> NumericCode 429 -> code e <> NumericCode 187 ->
  let sent := logEvent (Tweeted (ClientObj.client obj) tweetText) w in
  postTweetWithClient tweetText obj config retryCount w
  = (Normal (failedResult (ThrownError e) (ClientObj.accountNumber obj)),
     afterSaveFailed sent tweetText (ClientObj.accountNumber obj))
  /\ trace (afterSaveFailed sent tweetText (ClientObj.accountNumber obj))
     = trace w ++ [Tweeted (ClientObj.client obj) tweetText;
                   WroteFailedTweets
                     (queueOf w ++ [failedRecord w tweetText (ClientObj.accountNumber obj)])].
Proof.
  intros Hvalid Hp H429 H187 sent. subst sent. split.
  - rewrite postTweetWithClient_step.
    destruct (postTweetWithClient_body_activation tweetText obj config retryCount w)
      as (returned & w' & Hbody & Hact).
    rewrite Hbody. activation_case Hact Hp;
      try (exfalso;
           match goal with
           | H : codeIs _ _ = true |- _ => apply codeIs_numeric in H; congruence
           end);
      reflexivity.
  - autorewrite with world. rewrite <- app_assoc. reflexivity.
Qed.

(** A rate-limit rejection with budget left waits the configured number
    of seconds, 300 when none or zero is configured, and then tries the
    same text again with one unit less. *)
Theorem postTweetWithClient_rate_limit_retry
    (tweetText : jsstring) (obj : ClientObj.t) (config : Config)
    (retryCount : Z) (w : World) (e : JsError) :
  0 < jslength tweetText <= 280 -> 0 < retryCount ->
  provider w (ClientObj.client obj) (trace w) tweetText = Rejected (ThrownError e) ->
  code e = NumericCode 429 ->
  let seconds := match twitterConfig config with
                 | Some {| retryDelay := Some d |} => if d =? 0 then 300 else d
                 | _ => 300
                 end in
  postTweetWithClient tweetText obj config retryCount w
  = postTweetWithClient tweetText obj config (retryCount - 1)
      (logEvent (Slept (seconds * 1000))
                (logEvent (Tweeted (ClientObj.client obj) tweetText) w)).
Proof.
  intros Hvalid Hr Hp Hcode seconds. subst seconds.
  rewrite postTweetWithClient_step.
  destruct (postTweetWithClient_body_activation tweetText obj config retryCount w)
    as (returned & w' & Hbody & Hact).
  rewrite Hbody. activation_case Hact Hp;
    try (exfalso;
         match goal with
         | H : codeIs _ 187 = true |- _ => apply codeIs_numeric in H; congruence
         | H : _ \/ _ |- _ =>
             destruct H as [H|[H _]]; [lia | rewrite Hcode in H; discriminate]
         end);
    reflexivity.
Qed.

(** ** twitterService.js: the two files *)

(** [saveFailedTweet] never throws and has no cap: the queue afterwards
    is the queue it could read, in order, followed by one new record with
    the text and the account number it was given.  A missing file and a
    file that does not parse both count as an empty queue, so the write
    replaces them.  The history file is not touched. *)
Theorem saveFailedTweet_appends_one
    (tweetText : jsstring) (accountNumber : Z) (w : World) :
  exists w' record,
    saveFailedTweet tweetText accountNumber w = (Normal tt, w')
    /\ failed_tweets_json w' = Some (Items (queueOf w ++ [record]))
    /\ FailedTweet.text record = tweetText
    /\ FailedTweet.accountNumber record = accountNumber
    /\ FailedTweet.timestamp record = toISOString (clock w (clockReads w))
    /\ length (queueOf w') = S (length (queueOf w))
    /\ tweet_history_json w' = tweet_history_json w
    /\ trace w' = trace w ++ [WroteFailedTweets (queueOf w ++ [record])].
Proof.
  exists (afterSaveFailed w tweetText accountNumber),
         (failedRecord w tweetText accountNumber).
  split; [apply saveFailedTweet_eq|].
  unfold afterSaveFailed, setFailedFile, queueOf. simpl.

  rewrite length_app. simpl. repeat split; lia.
Qed.

(** A history file that is missing or does not parse is started afresh:
    the write leaves a history of one entry, the new record, and that is
    what the call returns. *)
Theorem saveTweetHistory_fresh_start
    (tweetText : jsstring) (results : list PostResult.t) (w : World) :
  tweet_history_json w = None \/ tweet_history_json w = Some Malformed ->
  let record := historyRecord w tweetText results in
  exists w',
    saveTweetHistory tweetText results w = (Normal [record], w')
    /\ tweet_history_json w' = Some (Items [record])
    /\ failed_tweets_json w' = failed_tweets_json w
    /\ trace w' = trace w ++ [WroteHistory [record]].
Proof.
  intros Hfile record.
  pose proof (saveTweetHistory_eq tweetText results w) as Hsave. cbv zeta in Hsave.
  assert (Hnone : historyOf w = []).
  { unfold historyOf. destruct Hfile as [-> | ->]; reflexivity. }
  rewrite Hnone in Hsave. change (keepLast 100 ([] ++ [historyRecord w tweetText results]))
    with [record] in Hsave.
  eexists. split; [exact Hsave|]. repeat split.
Qed.

(** ** twitterService.js: the delay between accounts *)

Lemma calculateSmartDelay_eq (accountNumber : Z) (history : list HistoryEntry.t) :
  calculateSmartDelay accountNumber (Some history)
  = let accountHistory := collectAccountHistory accountNumber (rev history) [] in
    if (length accountHistory <? 3)%nat then 30000
    else
      let errorRate := PrimFloat.div (toNumber (failedCount accountHistory))
                                     (toNumber (length accountHistory)) in
      if PrimFloat.ltb 0.5%float errorRate then 120000
      else if PrimFloat.ltb 0.3%float errorRate then 60000
      else if PrimFloat.ltb 0.1%float errorRate then 45000
      else 30000.
Proof. destruct history; reflexivity. Qed.

(** The delay is one of four values, from 30 seconds to 2 minutes, and it
    is 30 seconds without a history. *)
Theorem calculateSmartDelay_range
    (accountNumber : Z) (history : option (list HistoryEntry.t)) :
  In (calculateSmartDelay accountNumber history) [30000; 45000; 60000; 120000]
  /\ calculateSmartDelay accountNumber None = 30000
  /\ calculateSmartDelay accountNumber (Some []) = 30000.
Proof.
  split; [|split; reflexivity].
  destruct history as [history|]; [|simpl; tauto].
  rewrite calculateSmartDelay_eq. cbv zeta.
  destruct (_ <? 3)%nat; [simpl; tauto|].
  destruct (PrimFloat.ltb 0.5 _); [simpl; tauto|].
  destruct (PrimFloat.ltb 0.3 _); [simpl; tauto|].
  destruct (PrimFloat.ltb 0.1 _); simpl; tauto.
Qed.

(** Only the ten most recent entries that name the account count: once
    the recent part of a history holds ten of them, whatever came before
    does not change the delay. *)
Theorem calculateSmartDelay_recent_only
    (accountNumber : Z) (older recent : list HistoryEntry.t) :
  (10 <= length (outcomesNewestFirst accountNumber recent))%nat ->
  calculateSmartDelay accountNumber (Some (older ++ recent))
  = calculateSmartDelay accountNumber (Some recent).
Proof.
  intros Hten. rewrite !calculateSmartDelay_eq.
  rewrite !collectAccountHistory_firstn by (simpl; lia).
  cbn [app length Nat.sub]. rewrite rev_app_distr, flat_map_app.
  rewrite outcomesNewestFirst_collected in Hten.
  rewrite firstn_app.
  replace (10 - length _)%nat with 0%nat by lia.
  cbn [firstn]. rewrite app_nil_r. reflexivity.
Qed.

(** ** twitterService.js: the error classifier *)

(** A truthy [error.code] decides the message alone: neither the text of
    the error nor the account number appears in it.  (The account number
    is only named when the error has no code and its text holds none of
    the three known phrases.) *)
Theorem describeError_code_alone
    (error : JsError) (accountNumber : Z)
    (otherMessage : option jsstring) (otherAccount : Z) :
  codeIsTruthy (code error) = true ->
  describeError error accountNumber
  = describeError {| message := otherMessage; code := code error |} otherAccount.
Proof.
  intros Htruthy. unfold describeError. cbv zeta. simpl code.
  rewrite Htruthy. reflexivity.
Qed.

(** ** twitterService.js: the retry pass *)

Lemma forOf_skipped {A} (xs : list A) (body : A -> M unit) (w : World) :
  (forall x, In x xs -> body x w = (Normal tt, w)) ->
  forOf xs body w = (Normal tt, w).
Proof.
  induction xs as [|x xs IH]; intros Hbody; simpl; [reflexivity|].
  unfold bind. rewrite Hbody by now left. apply IH. intros y Hy. apply Hbody. now right.
Qed.

(** Queued entries whose account has no client are lost: the pass calls
    neither the provider nor the timer for them, yet it empties the file
    and reports [true]. *)
Theorem retryFailedTweets_drops_unmatched
    (twitterClients : list ClientObj.t) (config : Config) (w : World)
    (tweet : FailedTweet.t) (rest : list FailedTweet.t) :
  failed_tweets_json w = Some (Items (tweet :: rest)) ->
  (forall t, In t (tweet :: rest) ->
             findClient twitterClients (FailedTweet.accountNumber t) = None) ->
  retryFailedTweets twitterClients config w = (Normal true, setFailedFile [] w)
  /\ trace (setFailedFile [] w) = trace w ++ [WroteFailedTweets []]
  /\ queueOf (setFailedFile [] w) = [].
Proof.
  intros Hfile Hnone. split; [|split; reflexivity].
  assert (Hloop : forOf (forInKeys (fold_left pushTweet (tweet :: rest) []))
                        (retryAccount twitterClients config
                           (fold_left pushTweet (tweet :: rest) [])) w
                  = (Normal tt, w)).
  { apply forOf_skipped. intros k Hk.
    apply (proj1 (forInKeys_perm _)) in Hk.
    apply (proj2 (keys_fold (tweet :: rest) [] (NoDup_nil _))) in Hk as [[]|Hk].
    apply in_map_iff in Hk as (t & <- & Ht).
    unfold retryAccount. now rewrite (Hnone t Ht). }
  unfold retryFailedTweets, try_catch, bind, existsSync, readFileSync,
    JSON_parse, writeFailedFile, ret, throw.
  repeat (cbv beta iota delta [negb]; rewrite ?Hfile).
  replace (Z.of_nat (length (tweet :: rest)) =? 0) with false by reflexivity.
  cbv beta iota. rewrite Hloop. reflexivity.
Qed.

Lemma tweetsSent_setFailedFile q w : tweetsSent (setFailedFile q w) = tweetsSent w.
Proof.
  unfold tweetsSent, setFailedFile. simpl. rewrite filter_app, length_app. simpl. lia.
Qed.

Lemma sleepsDone_setFailedFile q w : sleepsDone (setFailedFile q w) = sleepsDone w.
Proof.
  unfold sleepsDone, setFailedFile. simpl. rewrite filter_app, length_app. simpl. lia.
Qed.

Lemma tweetsSent_setHistoryFile h w : tweetsSent (setHistoryFile h w) = tweetsSent w.
Proof.
  unfold tweetsSent, setHistoryFile. simpl. rewrite filter_app, length_app. simpl. lia.
Qed.

Lemma sleepsDone_setHistoryFile h w : sleepsDone (setHistoryFile h w) = sleepsDone w.
Proof.
  unfold sleepsDone, setHistoryFile. simpl. rewrite filter_app, length_app. simpl. lia.
Qed.

(** A loop whose body never throws and adds at most its cost to two
    counters adds at most the sum of the costs. *)
Lemma forOf_cost {A} (calls waits : World -> nat) (cost : A -> nat)
    (xs : list A) (body : A -> M unit) :
  (forall x w, exists w', body x w = (Normal tt, w')
                          /\ (calls w' <= calls w + cost x)%nat
                          /\ (waits w' <= waits w + cost x)%nat) ->
  forall w, exists w', forOf xs body w = (Normal tt, w')
                       /\ (calls w' <= calls w + list_sum (map cost xs))%nat
                       /\ (waits w' <= waits w + list_sum (map cost xs))%nat.
Proof.
  intros Hbody. induction xs as [|x xs IH]; intros w; simpl.
  - exists w. unfold ret. repeat split; lia.
  - unfold bind. destruct (Hbody x w) as (w1 & -> & Hc1 & Hw1).
    destruct (IH w1) as (w2 & -> & Hc2 & Hw2).
    exists w2. repeat split; lia.
Qed.

Lemma list_sum_constant {A} (c : nat) (xs : list A) :
  list_sum (map (fun _ => c) xs) = (c * length xs)%nat.
Proof. induction xs as [|x xs IH]; simpl; lia. Qed.

Lemma replayEntry_cost clientObj config tweet w :
  exists w', replayEntry clientObj config tweet w = (Normal tt, w')
             /\ (tweetsSent w' <= tweetsSent w + 2)%nat
             /\ (sleepsDone w' <= sleepsDone w + 2)%nat.
Proof.
  unfold replayEntry, bind, sleep.
  destruct (postTweetWithClient_effects (FailedTweet.text tweet) clientObj config 1 w)
    as (result & w' & -> & _ & _ & _ & _ & Hsleep & Htweet & _).
  eexists. split; [reflexivity|].
  autorewrite with world. simpl. change (Z.to_nat 1) with 1%nat in Hsleep. lia.
Qed.

(** The groups of distinct accounts do not overlap. *)
Lemma group_sizes (failedTweets : list FailedTweet.t) (keys : list Z) :
  NoDup keys ->
  (list_sum (map (fun k => 2 * length (filter (fun t => (FailedTweet.accountNumber t =? k)%Z)
                                              failedTweets)) keys)
   <= 2 * length (filter (fun t => existsb (Z.eqb (FailedTweet.accountNumber t)) keys)
                         failedTweets))%nat.
Proof.
  assert (Hcons : forall a l, list_sum (a :: l) = (a + list_sum l)%nat) by reflexivity.
  induction 1 as [|k keys Hk Hnd IH]; cbn [map existsb]; [simpl; lia|].
  rewrite Hcons.
  enough (length (filter (fun t => (FailedTweet.accountNumber t =? k)%Z) failedTweets)
          + length (filter (fun t => existsb (Z.eqb (FailedTweet.accountNumber t)) keys)
                           failedTweets)
          <= length (filter (fun t => (FailedTweet.accountNumber t =? k)%Z
                                      || existsb (Z.eqb (FailedTweet.accountNumber t)) keys)
                            failedTweets))%nat by lia.
  clear IH. induction failedTweets as [|t q IHq]; simpl; [lia|].
  destruct (Z.eqb_spec (FailedTweet.accountNumber t) k) as [->|Hne]; simpl.
  - replace (existsb (Z.eqb k) keys) with false; [simpl; lia|].
    symmetry. apply not_true_is_false. intros Hex.
    apply existsb_exists in Hex as (k' & Hin & Heq).
    apply Z.eqb_eq in Heq. now subst.
  - destruct (existsb _ keys); simpl; lia.
Qed.

(** A pass never throws, and it makes at most two calls to the provider
    and two waits for each entry that the queue held. *)
Theorem retryFailedTweets_bounded
    (twitterClients : list ClientObj.t) (config : Config) (w : World) :
  exists answer w',
    retryFailedTweets twitterClients config w = (Normal answer, w')
    /\ (tweetsSent w' <= tweetsSent w + 2 * length (queueOf w))%nat
    /\ (sleepsDone w' <= sleepsDone w + 2 * length (queueOf w))%nat.
Proof.
  unfold queueOf.
  destruct (failed_tweets_json w) as [[|[|tweet rest]]|] eqn:E;
    try (exists false, w; split; [|split; lia];
         unfold retryFailedTweets, try_catch, bind, existsSync, readFileSync,
           JSON_parse, ret, throw;
         repeat (cbv beta iota delta [negb]; rewrite ?E); reflexivity).
  set (failedTweets := tweet :: rest) in *.
  assert (Hgroup : forall k w0, exists w',
             retryAccount twitterClients config (fold_left pushTweet failedTweets []) k w0
             = (Normal tt, w')
             /\ (tweetsSent w' <= tweetsSent w0
                 + 2 * length (filter (fun t => (FailedTweet.accountNumber t =? k)%Z)
                                      failedTweets))%nat
             /\ (sleepsDone w' <= sleepsDone w0
                 + 2 * length (filter (fun t => (FailedTweet.accountNumber t =? k)%Z)
                                      failedTweets))%nat).
  { intros k w0. rewrite retryAccount_replayGroup. unfold replayGroup.
    destruct (matchingClient k twitterClients) as [clientObj|].
    - rewrite <- (list_sum_constant 2).
      apply (forOf_cost tweetsSent sleepsDone). intros t w1. apply replayEntry_cost.
    - exists w0. unfold ret. repeat split; lia. }
  destruct (forOf_cost tweetsSent sleepsDone _
              (forInKeys (fold_left pushTweet failedTweets [])) _ Hgroup w)
    as (w1 & Hloop & Hcalls & Hwaits).
  pose proof (group_sizes failedTweets (forInKeys (fold_left pushTweet failedTweets [])))
    as Hsizes.
  specialize (Hsizes (proj2 (forInKeys_perm _)
                            (proj1 (keys_fold failedTweets [] (NoDup_nil _))))).
  pose proof (filter_length_le
                (fun t => existsb (Z.eqb (FailedTweet.accountNumber t))
                                  (forInKeys (fold_left pushTweet failedTweets [])))
                failedTweets) as Hall.
  exists true, (setFailedFile [] w1). split.
  - unfold retryFailedTweets, try_catch, bind, existsSync, readFileSync,
      JSON_parse, writeFailedFile, ret, throw.
    repeat (cbv beta iota delta [negb]; rewrite ?E).
    replace (Z.of_nat (length failedTweets) =? 0) with false by reflexivity.
    cbv beta iota. rewrite Hloop. reflexivity.
  - rewrite tweetsSent_setFailedFile, sleepsDone_setFailedFile. lia.
Qed.

(** ** twitterService.js: loading clients *)

Lemma accountOfLine_account line accountNumber account :
  accountOfLine line accountNumber = Some account ->
  Account.accountNumber account = accountNumber
  /\ Account.appKey account <> [] /\ Account.appSecret account <> []
  /\ Account.accessToken account <> [] /\ Account.accessSecret account <> [].
Proof.
  unfold accountOfLine. destruct (isBlankOrComment line); [discriminate|].
  destruct (map trim (split COMMA line)) as [|a [|b [|c [|d [|x rest]]]]];
    try discriminate.
  destruct a, b, c, d; try discriminate.
  intros [= <-]. simpl. repeat split; discriminate.
Qed.

Lemma findClient_accountNumber twitterClients n client :
  findClient twitterClients n = Some client ->
  ClientObj.accountNumber client = n /\ In client twitterClients.
Proof.
  unfold findClient. intros Hfind. apply find_some in Hfind as [Hin Heq].
  split; [now apply Z.eqb_eq | exact Hin].
Qed.

Lemma findClient_snoc twitterClients client :
  findClient twitterClients (ClientObj.accountNumber client) = None ->
  findClient (twitterClients ++ [client]) (ClientObj.accountNumber client) = Some client.
Proof.
  unfold findClient. induction twitterClients as [|c rest IH]; simpl.
  - now rewrite Z.eqb_refl.
  - destruct (ClientObj.accountNumber c =? ClientObj.accountNumber client);
      [discriminate | exact IH].
Qed.

(** The three ways a request can go: served from the array, loaded from
    the file and appended, or refused. *)
Lemma lazyLoadTwitterClient_cases accounts_txt accountNumber twitterClients :
  (exists client,
      findClient twitterClients accountNumber = Some client
      /\ lazyLoadTwitterClient accounts_txt accountNumber twitterClients
         = (Some client, twitterClients))
  \/ (exists account,
         findClient twitterClients accountNumber = None
         /\ Account.accountNumber account = accountNumber
         /\ Account.appKey account <> [] /\ Account.appSecret account <> []
         /\ Account.accessToken account <> [] /\ Account.accessSecret account <> []
         /\ lazyLoadTwitterClient accounts_txt accountNumber twitterClients
            = (Some (clientOfAccount account), twitterClients ++ [clientOfAccount account]))
  \/ (findClient twitterClients accountNumber = None
      /\ lazyLoadTwitterClient accounts_txt accountNumber twitterClients
         = (None, twitterClients)).
Proof.
  unfold lazyLoadTwitterClient.
  destruct (findClient twitterClients accountNumber) as [client|] eqn:Hfind.
  - left. eauto.
  - right. destruct accounts_txt as [fileContent|]; [|now right].
    rewrite fold_scanLine. cbv zeta.
    destruct (_ && _); [|now right].
    destruct (accountOfLine _ accountNumber) as [account|] eqn:Hline; [|now right].
    left. exists account.
    destruct (accountOfLine_account _ _ _ Hline) as (? & ? & ? & ? & ?).
    repeat (split; trivial).
Qed.

(** Whatever the file holds, a client that the loader returns has the
    requested number and is, afterwards, the client that the array gives
    for that number; the array is unchanged or longer by that one client,
    whose four credentials are then not empty.  A refusal leaves the array
    as it was. *)
Theorem lazyLoadTwitterClient_outcome
    (accounts_txt : option jsstring) (accountNumber : Z)
    (twitterClients : list ClientObj.t) :
  let '(answer, clients) :=
    lazyLoadTwitterClient accounts_txt accountNumber twitterClients in
  match answer with
  | None => clients = twitterClients
            /\ findClient twitterClients accountNumber = None
  | Some client =>
      ClientObj.accountNumber client = accountNumber
      /\ findClient clients accountNumber = Some client
      /\ (clients = twitterClients
          \/ (clients = twitterClients ++ [client]
              /\ findClient twitterClients accountNumber = None
              /\ appKey (ClientObj.client client) <> []
              /\ appSecret (ClientObj.client client) <> []
              /\ accessToken (ClientObj.client client) <> []
              /\ accessSecret (ClientObj.client client) <> []))
  end.
Proof.
  destruct (lazyLoadTwitterClient_cases accounts_txt accountNumber twitterClients)
    as [(client & Hfind & ->)
       |[(account & Hfind & Hn & Hk & Hs & Ht & Ha & ->)|[Hfind ->]]].
  - destruct (findClient_accountNumber _ _ _ Hfind) as [Hn _]. auto.
  - split; [exact Hn|]. split.
    + rewrite <- Hn in *. now apply (findClient_snoc twitterClients (clientOfAccount account)).
    + right. repeat (split; trivial).
  - auto.
Qed.

(** A number is loaded once: after a request that returned a client, the
    same request returns the same client and leaves the array alone,
    whatever [accounts.txt] has become in between. *)
Theorem lazyLoadTwitterClient_loads_once
    (accounts_txt later_txt : option jsstring) (accountNumber : Z)
    (twitterClients clients : list ClientObj.t) (client : ClientObj.t) :
  lazyLoadTwitterClient accounts_txt accountNumber twitterClients
  = (Some client, clients) ->
  lazyLoadTwitterClient later_txt accountNumber clients = (Some client, clients).
Proof.
  intros Hfirst.
  assert (Hfind : findClient clients accountNumber = Some client).
  { destruct (lazyLoadTwitterClient_cases accounts_txt accountNumber twitterClients)
      as [(c & Hfind & Heq)|[(account & Hfind & Hn & _ & _ & _ & _ & Heq)|[_ Heq]]];
      rewrite Heq in Hfirst; try discriminate; injection Hfirst as <- <-.
    - exact Hfind.
    - rewrite <- Hn in *.
      now apply (findClient_snoc twitterClients (clientOfAccount account)). }
  unfold lazyLoadTwitterClient. now rewrite Hfind.
Qed.

(** [initializeTwitterClients] builds one client for each account, in
    order and unchecked: the numbers are those of the accounts, repeated
    or not, and a lookup by number gives the client of the first account
    that has it.  Without accounts the array is empty. *)
Theorem initializeTwitterClients_one_per_account
    (accounts : list Account.t) (accountNumber : Z) :
  let clients := initializeTwitterClients (Some accounts) in
  clients = map clientOfAccount accounts
  /\ map ClientObj.accountNumber clients = map Account.accountNumber accounts
  /\ findClient clients accountNumber
     = option_map clientOfAccount
         (find (fun a => Account.accountNumber a =? accountNumber) accounts)
  /\ initializeTwitterClients None = [].
Proof.
  cbv zeta.
  assert (Hmap : initializeTwitterClients (Some accounts) = map clientOfAccount accounts)
    by now destruct accounts.
  rewrite Hmap. split; [reflexivity|]. split; [|split; [|reflexivity]].
  - rewrite map_map. reflexivity.
  - unfold findClient. induction accounts as [|a rest IH]; simpl; [reflexivity|].
    destruct (Account.accountNumber a =? accountNumber); [reflexivity|].
    apply IH. now destruct rest.
Qed.

(** ** twitterService.js: posting to all accounts *)

Lemma keepLast_length_min {A} (n : nat) (xs : list A) :
  length (keepLast n xs) = Nat.min n (length xs).
Proof. unfold keepLast. rewrite length_skipn. lia. Qed.

Lemma historyOf_eq w w' :
  tweet_history_json w' = tweet_history_json w -> historyOf w' = historyOf w.
Proof. unfold historyOf. now intros ->. Qed.

(** The loop from any point: it returns the results it was given followed
    by one result for each remaining client, in order; the provider is
    called at most [1 + budget] times for each; the history holds one more
    entry for each, up to 100, and its last entry lists all results; and
    when the last remaining client is the last of the array, the last
    thing done is a write of the history. *)
Lemma postToClients_run tweetText config lastAddress remaining :
  forall results w,
  exists added w',
    postToClients tweetText config lastAddress remaining results w
    = (Normal (results ++ added), w')
    /\ map PostResult.accountNumber added
       = map (fun c => ClientObj.accountNumber (ClientRef.object c)) remaining
    /\ provider w' = provider w
    /\ (tweetsSent w' <= tweetsSent w
        + length remaining * S (Z.to_nat (maxRetriesOr1 config)))%nat
    /\ length (historyOf w')
       = match remaining with
         | [] => length (historyOf w)
         | _ => Nat.min 100 (length (historyOf w) + length remaining)
         end
    /\ (remaining <> [] ->
        exists earlier stamp,
          tweet_history_json w'
          = Some (Items (earlier
                         ++ [{| HistoryEntry.timestamp := stamp;
                                HistoryEntry.text := tweetText;
                                HistoryEntry.accounts :=
                                  map accountSummary (results ++ added) |}])))
    /\ (forall first,
          remaining <> [] ->
          ClientRef.address (last remaining first) = lastAddress ->
          exists before history, trace w' = before ++ [WroteHistory history]).
Proof.
  induction remaining as [|clientObj rest IH]; intros results w.
  - exists [], w. rewrite app_nil_r. simpl.
    repeat split; try reflexivity; try lia; try congruence.
  - cbn [postToClients]. unfold bind at 1.
    destruct (postTweetWithClient_effects tweetText (ClientRef.object clientObj) config
                (maxRetriesOr1 config) w)
      as (result & w1 & -> & Hacc & Hprov1 & Hclock1 & Hhist1 & Hsleep1 & Htweet1 & _).
    unfold bind at 1. rewrite saveTweetHistory_eq. cbv zeta.
    rewrite (historyOf_eq _ _ Hhist1).
    set (record := historyRecord w1 tweetText (results ++ [result])).
    set (stored := keepLast 100 (historyOf w ++ [record])).
    set (w2 := setHistoryFile stored (tick w1)).
    set (pause := if negb (ClientRef.address clientObj =? lastAddress)%nat
                  then sleep (calculateSmartDelay
                                (ClientObj.accountNumber (ClientRef.object clientObj))
                                (Some stored))
                  else ret tt).
    assert (Hpause : exists w3,
               pause w2 = (Normal tt, w3)
               /\ provider w3 = provider w2
               /\ tweet_history_json w3 = tweet_history_json w2
               /\ tweetsSent w3 = tweetsSent w2
               /\ ((ClientRef.address clientObj =? lastAddress)%nat = true -> w3 = w2)).
    { subst pause. destruct (ClientRef.address clientObj =? lastAddress)%nat; simpl.
      - exists w2. unfold ret. repeat split.
      - eexists. unfold sleep. split; [reflexivity|].
        autorewrite with world. simpl. repeat split; try lia; discriminate. }
    destruct Hpause as (w3 & Hw3 & Hprov3 & Hhist3 & Htweet3 & Hsame).
    unfold bind at 1. rewrite Hw3.
    destruct (IH (results ++ [result]) w3)
      as (added & w' & Hrun & Hnumbers & Hprov & Htweets & Hlen & Hlast & Hend).
    exists (result :: added), w'.
    assert (Hstored : historyOf w3 = stored).
    { unfold historyOf. rewrite Hhist3. reflexivity. }
    assert (Hstored_len : length stored = Nat.min 100 (S (length (historyOf w)))).
    { subst stored. rewrite keepLast_length_min, length_app. cbn [length]. lia. }
    split; [rewrite Hrun, <- app_assoc; reflexivity|].
    split; [simpl; now rewrite Hacc, Hnumbers|].
    split; [rewrite Hprov, Hprov3; exact Hprov1|].
    split.
    { rewrite Htweet3 in Htweets. subst w2.
      rewrite tweetsSent_setHistoryFile, tweetsSent_tick in Htweets.
      cbn [length]. lia. }
    split.
    { rewrite Hlen, Hstored, Hstored_len. cbn [length].
      destruct rest; cbn [length]; lia. }
    split.
    { intros _. destruct rest as [|next rest'].
      - destruct (IH (results ++ [result]) w3) as (a0 & w0 & Hrun0 & _).
        simpl in Hrun, Hrun0. unfold ret in Hrun.
        injection Hrun as Hadded <-.
        apply (f_equal (@length _)) in Hadded. rewrite !length_app in Hadded.
        destruct added; [|simpl in Hadded; lia].
        rewrite Hhist3. subst w2 stored. simpl tweet_history_json.
        change 100%nat with (S 99). rewrite keepLast_snoc.
        exists (keepLast 99 (historyOf w)), (toISOString (clock w1 (clockReads w1))).
        reflexivity.
      - destruct Hlast as (earlier & stamp & Hfile); [discriminate|].
        exists earlier, stamp. rewrite Hfile, <- app_assoc. reflexivity. }
    intros first _ Haddr. destruct rest as [|next rest'].
    + simpl in Haddr, Hrun. unfold ret in Hrun. injection Hrun as _ <-.
      rewrite Hsame by now apply Nat.eqb_eq.
      subst w2. simpl trace. eauto.
    + apply (Hend first); [discriminate | exact Haddr].
Qed.

Lemma last_cons_default {A} (l : list A) (a d : A) : last (a :: l) d = last l a.
Proof.
  revert a d. induction l as [|b l IH]; intros a d; [reflexivity|].
  change (last (a :: b :: l) d) with (last (b :: l) d).
  rewrite (IH b d), (IH b a). reflexivity.
Qed.

Lemma callsIn_app (xs ys : list Event) :
  callsIn (xs ++ ys) = (callsIn xs + callsIn ys)%nat.
Proof. unfold callsIn. now rewrite filter_app, length_app. Qed.

(** What a call adds to the trace: at most [1 + budget] calls to the
    provider, all with the session of the client. *)
Lemma postTweetWithClient_calls tweetText obj config retryCount w :
  exists result w' events,
    postTweetWithClient tweetText obj config retryCount w = (Normal result, w')
    /\ PostResult.accountNumber result = ClientObj.accountNumber obj
    /\ tweet_history_json w' = tweet_history_json w
    /\ trace w' = trace w ++ events
    /\ (callsIn events <= S (Z.to_nat retryCount))%nat
    /\ Forall (calledWith (ClientObj.client obj)) events.
Proof.
  revert tweetText retryCount w.
  apply (postTweetWithClient_induction obj config
           (fun _ retryCount w out =>
              exists result w' events,
                out = (Normal result, w')
                /\ PostResult.accountNumber result = ClientObj.accountNumber obj
                /\ tweet_history_json w' = tweet_history_json w
                /\ trace w' = trace w ++ events
                /\ (callsIn events <= S (Z.to_nat retryCount))%nat
                /\ Forall (calledWith (ClientObj.client obj)) events)).
  - intros tweetText retryCount w result w' Hact.
    exists result, w'.
    inversion Hact; subst; autorewrite with world; rewrite <- ?app_assoc;
      eexists; (split; [reflexivity|]); (split; [reflexivity|]);
      (split; [reflexivity|]); (split; [reflexivity|]);
      (split; [unfold callsIn; simpl; lia|]);
      repeat constructor.
  - intros tweetText retryCount w text' retry' w' Hact
           (result & w'' & events & Hout & Hacc & Hhist & Htrace & Hcalls & Hsession).
    assert (Hstep : exists step,
               trace w' = trace w ++ step /\ callsIn step = 1%nat
               /\ Forall (calledWith (ClientObj.client obj)) step
               /\ tweet_history_json w' = tweet_history_json w
               /\ 0 < retryCount /\ retry' = retryCount - 1).
    { inversion Hact; subst; autorewrite with world; rewrite <- ?app_assoc;
        eexists; (split; [reflexivity|]); (split; [reflexivity|]);
        (split; [repeat constructor|]); (split; [reflexivity|]); split; trivial. }
    destruct Hstep as (step & Hstep & Hone & Hstep_session & Hhist' & Hpos & ->).
    exists result, w'', (step ++ events).
    split; [exact Hout|]. split; [exact Hacc|].
    split; [now rewrite Hhist|].
    split; [rewrite Htrace, Hstep, app_assoc; reflexivity|].
    split; [rewrite callsIn_app; lia|].
    apply Forall_app. now split.
Qed.

(** The loop from any point, on the trace: each remaining client has a
    turn, and the turns follow one another. *)
Lemma postToClients_turns tweetText config lastAddress remaining :
  forall results w,
  exists added w' turns,
    postToClients tweetText config lastAddress remaining results w
    = (Normal (results ++ added), w')
    /\ trace w' = trace w ++ concat turns
    /\ Forall2 (callsFor (maxRetriesOr1 config)) remaining turns.
Proof.
  induction remaining as [|clientObj rest IH]; intros results w.
  - exists [], w, []. rewrite !app_nil_r. simpl. repeat split. constructor.
  - cbn [postToClients]. unfold bind at 1.
    destruct (postTweetWithClient_calls tweetText (ClientRef.object clientObj) config
                (maxRetriesOr1 config) w)
      as (result & w1 & events & -> & _ & _ & Htrace1 & Hcalls & Hsession).
    unfold bind at 1. rewrite saveTweetHistory_eq. cbv zeta.
    set (stored := keepLast 100 _).
    set (w2 := setHistoryFile stored (tick w1)).
    set (pause := if negb (ClientRef.address clientObj =? lastAddress)%nat
                  then sleep (calculateSmartDelay
                                (ClientObj.accountNumber (ClientRef.object clientObj))
                                (Some stored))
                  else ret tt).
    assert (Hpause : exists w3 waited,
               pause w2 = (Normal tt, w3)
               /\ trace w3 = trace w2 ++ waited /\ callsIn waited = 0%nat
               /\ Forall (calledWith (ClientObj.client (ClientRef.object clientObj)))
                         waited).
    { subst pause. destruct (ClientRef.address clientObj =? lastAddress)%nat; simpl.
      - exists w2, []. unfold ret. rewrite app_nil_r. repeat split. constructor.
      - eexists. eexists. unfold sleep. split; [reflexivity|].
        rewrite trace_logEvent. split; [reflexivity|].
        split; [reflexivity | repeat constructor]. }
    destruct Hpause as (w3 & waited & Hw3 & Htrace3 & Hnone & Hwaited).
    unfold bind at 1. rewrite Hw3.
    destruct (IH (results ++ [result]) w3) as (added & w' & turns & Hrun & Htrace & Hturns).
    exists (result :: added), w', ((events ++ [WroteHistory stored] ++ waited) :: turns).
    split; [rewrite Hrun, <- app_assoc; reflexivity|].
    split.
    { rewrite Htrace, Htrace3. subst w2. simpl trace. rewrite Htrace1.
      cbn [concat]. rewrite <- !app_assoc. reflexivity. }
    constructor; [|exact Hturns].
    split.
    + rewrite !callsIn_app, Hnone. unfold callsIn at 2. simpl. lia.
    + apply Forall_app. split; [exact Hsession|].
      apply Forall_app. split; [repeat constructor | exact Hwaited].
Qed.

(** With a configuration object, [postTweetToAllAccounts] never throws
    and returns one result for each client, in the order of the array, for
    the account of that client; what it does is one turn after the other,
    one for each client, and in the turn of a client the provider is
    called at most [1 + maxRetries] times (twice when no budget is
    configured), always with the session of that client.  Without clients
    it returns the empty array and does nothing, whatever the
    configuration is.  With clients and a configuration that is [null] or
    [undefined] it throws the [TypeError] of its first read of
    [config.twitterConfig], before anything is done. *)
Theorem postTweetToAllAccounts_one_result_each
    (tweetText : jsstring) (twitterClients : option (list ClientRef.t))
    (config : option Config) (w : World) :
  match twitterClients with
  | None | Some [] =>
      Nullable.postTweetToAllAccounts tweetText twitterClients config w
      = (Normal [], w)
  | Some (first :: others) =>
      match config with
      | None =>
          Nullable.postTweetToAllAccounts tweetText twitterClients config w
          = (Throw TypeError, w)
      | Some present =>
          exists results w' turns,
            Nullable.postTweetToAllAccounts tweetText twitterClients config w
            = (Normal results, w')
            /\ map PostResult.accountNumber results
               = map (fun c => ClientObj.accountNumber (ClientRef.object c))
                     (first :: others)
            /\ trace w' = trace w ++ concat turns
            /\ Forall2 (callsFor (maxRetriesOr1 present)) (first :: others) turns
            /\ (tweetsSent w' <= tweetsSent w
                + length (first :: others) * S (Z.to_nat (maxRetriesOr1 present)))%nat
      end
  end.
Proof.
  destruct twitterClients as [[|first others]|]; try reflexivity.
  destruct config as [present|]; [|reflexivity].
  unfold Nullable.postTweetToAllAccounts, postTweetToAllAccounts.
  destruct (postToClients_run tweetText present
              (ClientRef.address (last others first)) (first :: others) [] w)
    as (added & w' & Hrun & Hnumbers & _ & Htweets & _).
  destruct (postToClients_turns tweetText present
              (ClientRef.address (last others first)) (first :: others) [] w)
    as (added' & w'' & turns & Hrun' & Htrace & Hturns).
  rewrite Hrun in Hrun'. injection Hrun' as _ <-.
  exists added, w', turns. split; [exact Hrun|]. split; [exact Hnumbers|].
  split; [exact Htrace|]. split; [exact Hturns | exact Htweets].
Qed.

(** The history gets one entry for each client, not one for the tweet:
    after a run over [n] clients it holds [n] more entries (up to the cap
    of 100), and the last one lists the outcome of every account. *)
Theorem postTweetToAllAccounts_history
    (tweetText : jsstring) (first : ClientRef.t) (others : list ClientRef.t)
    (config : Config) (w : World) :
  exists results w' earlier stamp,
    postTweetToAllAccounts tweetText (Some (first :: others)) config w
    = (Normal results, w')
    /\ tweet_history_json w'
       = Some (Items (earlier
                      ++ [{| HistoryEntry.timestamp := stamp;
                             HistoryEntry.text := tweetText;
                             HistoryEntry.accounts := map accountSummary results |}]))
    /\ length (historyOf w')
       = Nat.min 100 (length (historyOf w) + S (length others)).
Proof.
  unfold postTweetToAllAccounts.
  destruct (postToClients_run tweetText config
              (ClientRef.address (last others first)) (first :: others) [] w)
    as (added & w' & Hrun & _ & _ & _ & Hlen & Hlast & _).
  destruct Hlast as (earlier & stamp & Hfile); [discriminate|].
  exists added, w', earlier, stamp.
  split; [exact Hrun|]. split; [exact Hfile | exact Hlen].
Qed.

(** No wait follows the last account: the last thing a run over at least
    one client does is the write of the history. *)
Theorem postTweetToAllAccounts_no_wait_at_end
    (tweetText : jsstring) (first : ClientRef.t) (others : list ClientRef.t)
    (config : Config) (w : World) :
  exists results w' before history,
    postTweetToAllAccounts tweetText (Some (first :: others)) config w
    = (Normal results, w')
    /\ trace w' = before ++ [WroteHistory history].
Proof.
  unfold postTweetToAllAccounts.
  destruct (postToClients_run tweetText config
              (ClientRef.address (last others first)) (first :: others) [] w)
    as (added & w' & Hrun & _ & _ & _ & _ & _ & Hend).
  destruct (Hend first) as (before & history & Htrace);
    [discriminate | now rewrite last_cons_default|].
  exists added, w', before, history. split; [exact Hrun | exact Htrace].
Qed.

(** ** twitterService.js: reading the history *)

(** [getTweetHistory] never throws, whatever the existence check does:
    without a file, with a file that does not parse, or when the check
    itself throws, it returns the empty array. *)
Theorem getTweetHistory_never_throws (fileExists : M bool) (w : World) :
  exists history w',
    getTweetHistory fileExists w = (Normal history, w')
    /\ (forall answer, fileExists w = (Normal answer, w) ->
        w' = w
        /\ history = (if answer then historyOf w else []))
    /\ (forall e, fileExists w = (Throw e, w) -> w' = w /\ history = []).
Proof.
  unfold getTweetHistory, try_catch, bind, readFileSync, JSON_parse, historyOf, ret, throw.
  destruct (fileExists w) as [[[|]|e] w1] eqn:Hexists; simpl.
  - destruct (tweet_history_json w1) as [[|h]|] eqn:Hfile; simpl;
      eexists; eexists; (split; [reflexivity|]); split;
        intros ? [= <- <-] || intros ? [=]; rewrite ?Hfile; auto.
  - eexists; eexists; (split; [reflexivity|]); split;
      intros ? [= <- <-] || intros ? [=]; auto.
  - eexists; eexists; (split; [reflexivity|]); split;
      intros ? [= <- <-] || intros ? [=]; subst; auto.
Qed.

(** What [saveTweetHistory] returns is what [getTweetHistory] reads back
    right after, when the existence check answers for the history file. *)
Theorem getTweetHistory_after_save
    (fileExists : M bool) (tweetText : jsstring) (results : list PostResult.t)
    (w : World) :
  (forall w0, fileExists w0 = existsSync tweet_history_json w0) ->
  exists history w',
    saveTweetHistory tweetText results w = (Normal history, w')
    /\ getTweetHistory fileExists w' = (Normal history, w')
    /\ history <> [].
Proof.
  intros Hexists. rewrite saveTweetHistory_eq. cbv zeta.
  eexists. eexists. split; [reflexivity|]. split.
  - unfold getTweetHistory, try_catch, bind. rewrite Hexists. reflexivity.
  - change 100%nat with (S 99). rewrite keepLast_snoc.
    intros Hnil. now apply app_eq_nil in Hnil as [_ [=]].
Qed.

(* ===================================================================== *)
(** * Part V: the further properties at sample inputs                     *)
(* ===================================================================== *)

(** An environment and a configuration that only hold an OpenAI key. *)
Lemma initializeAI_always_AIML_witness :
  initializeAI (js "default-key")
    {| AIML_API_KEY := None; DEEPSEEK_API_KEY := None;
       OPENAI_API_KEY := Some (js "sk-openai") |}
    {| aimlApiKey := Some []; deepseekApiKey := None;
       openaiApiKey := Some (js "sk-openai") |}
  = (None, js "AIML").
Proof.
  apply (initializeAI_always_AIML (js "default-key")). discriminate.
Defined.

(** A short AI text with spaces around it. *)
Lemma generateTweet_keeps_short_text_witness :
  generateTweet (js "AIML") (AiContent (js "  gm fam  ")) []
  = js "gm fam @giverep @PawtatoFinance $REP".
Proof.
  apply (generateTweet_keeps_short_text (js "AIML") (js "  gm fam  ") []).
  - reflexivity.
  - vm_compute. discriminate.
Defined.

(** An AI text of 251 letters in the sample world. *)
Lemma truncated_tweet_is_never_posted_witness :
  exists result w',
    postTweetWithClient
      (generateTweet (js "AIML") (AiContent (repeat 97%N 251)) [])
      sampleClient sampleConfig 1 sampleWorld
    = (Normal result, w')
    /\ PostResult.success result = false
    /\ tweetsSent w' = tweetsSent sampleWorld.
Proof.
  destruct (truncated_tweet_is_never_posted (js "AIML") (repeat 97%N 251) []
              sampleClient sampleConfig 1 sampleWorld)
    as (Hpost & Hsent & _).
  - reflexivity.
  - vm_compute. reflexivity.
  - do 2 eexists. split; [exact Hpost|]. split; [reflexivity | exact Hsent].
Defined.

(** A provider that throws [null]. *)
Lemma postTweetWithClient_thrown_null_witness :
  postTweetWithClient (js "gm") sampleClient sampleConfig 3
    (worldWith (rejecting ThrownNullish))
  = (Normal (failedResult TypeError 1),
     logEvent (Tweeted sampleSession (js "gm")) (worldWith (rejecting ThrownNullish))).
Proof.
  apply (postTweetWithClient_thrown_null (js "gm") sampleClient sampleConfig 3
           (worldWith (rejecting ThrownNullish))).
  - vm_compute. split; [reflexivity | discriminate].
  - reflexivity.
Defined.

(** A rejection whose code is the string ['429'], with a budget of 3. *)
Lemma postTweetWithClient_permanent_failure_witness :
  let e := {| message := Some (js "Too Many Requests"); code := TextCode (js "429") |} in
  let w := worldWith (rejecting (ThrownError e)) in
  exists w',
    postTweetWithClient (js "gm") sampleClient sampleConfig 3 w
    = (Normal (failedResult (ThrownError e) 1), w')
    /\ tweetsSent w' = 1%nat /\ sleepsDone w' = 0%nat.
Proof.
  cbv zeta.
  destruct (postTweetWithClient_permanent_failure (js "gm") sampleClient sampleConfig 3
              (worldWith (rejecting
                 (ThrownError {| message := Some (js "Too Many Requests");
                                 code := TextCode (js "429") |})))
              {| message := Some (js "Too Many Requests"); code := TextCode (js "429") |})
    as (Hpost & Htrace).
  - vm_compute. split; [reflexivity | discriminate].
  - reflexivity.
  - discriminate.
  - discriminate.
  - eexists. split; [exact Hpost|].
    unfold tweetsSent, sleepsDone. rewrite Htrace. split; reflexivity.
Defined.

(** A rate-limit rejection with a budget of 2 and no configured delay. *)
Lemma postTweetWithClient_rate_limit_retry_witness :
  let e := {| message := Some (js "Too Many Requests"); code := NumericCode 429 |} in
  let w := worldWith (rejecting (ThrownError e)) in
  postTweetWithClient (js "gm") sampleClient sampleConfig 2 w
  = postTweetWithClient (js "gm") sampleClient sampleConfig (2 - 1)
      (logEvent (Slept (300 * 1000)) (logEvent (Tweeted sampleSession (js "gm")) w)).
Proof.
  cbv zeta.
  apply (postTweetWithClient_rate_limit_retry (js "gm") sampleClient sampleConfig 2
           (worldWith (rejecting
              (ThrownError {| message := Some (js "Too Many Requests");
                              code := NumericCode 429 |})))
           {| message := Some (js "Too Many Requests"); code := NumericCode 429 |}).
  - vm_compute. split; [reflexivity | discriminate].
  - reflexivity.
  - reflexivity.
  - reflexivity.
Defined.

(** A world without history file. *)
Lemma saveTweetHistory_fresh_start_witness :
  exists record w',
    saveTweetHistory (js "gm") [] (worldWith (rejecting ThrownNullish))
    = (Normal [record], w')
    /\ tweet_history_json w' = Some (Items [record]).
Proof.
  destruct (saveTweetHistory_fresh_start (js "gm") []
              (worldWith (rejecting ThrownNullish)) (or_introl eq_refl))
    as (w' & Hsave & Hfile & _).
  do 2 eexists. split; [exact Hsave | exact Hfile].
Defined.

(** Two failures before ten successes do not count. *)
Lemma calculateSmartDelay_recent_only_witness :
  calculateSmartDelay 1 (Some ([entryOf false; entryOf false] ++ repeat (entryOf true) 10))
  = calculateSmartDelay 1 (Some (repeat (entryOf true) 10)).
Proof.
  apply (calculateSmartDelay_recent_only 1 [entryOf false; entryOf false]
           (repeat (entryOf true) 10)).
  vm_compute. reflexivity.
Defined.

(** The duplicate-content error, for two accounts and two texts. *)
Lemma describeError_code_alone_witness :
  describeError duplicateError 1
  = describeError {| message := None; code := code duplicateError |} 2.
Proof.
  apply (describeError_code_alone duplicateError 1 None 2). reflexivity.
Defined.

(** The queued world without any client. *)
Lemma retryFailedTweets_drops_unmatched_witness :
  retryFailedTweets [] sampleConfig queuedWorld = (Normal true, setFailedFile [] queuedWorld).
Proof.
  refine (proj1 (retryFailedTweets_drops_unmatched [] sampleConfig queuedWorld
                   (queued (js "first") 1)
                   [queued (js "other") 2; queued (js "second") 1] eq_refl _)).
  intros t _. reflexivity.
Defined.

(** Account 1 of the sample file, asked for again once the file is gone. *)
Lemma lazyLoadTwitterClient_loads_once_witness :
  let client := {| ClientObj.client :=
                     {| appKey := js "k1"; appSecret := js "s1";
                        accessToken := js "t1"; accessSecret := js "a1" |};
                   ClientObj.accountNumber := 1 |} in
  lazyLoadTwitterClient None 1 [client] = (Some client, [client]).
Proof.
  cbv zeta.
  apply (lazyLoadTwitterClient_loads_once (Some sampleAccountsFile) None 1 []).
  vm_compute. reflexivity.
Defined.

(** Account 2 of the sample file, which opens with a comment line, is
    looked for on line 3. *)
Lemma lazyLoadTwitterClient_position_witness :
  lazyLoadTwitterClient (Some sampleAccountsFile) 2 []
  = match accountOfLine (nth 2 (split LF sampleAccountsFile) []) 2 with
    | Some account => (Some (clientOfAccount account), [clientOfAccount account])
    | None => (None, [])
    end.
Proof.
  exact (lazyLoadTwitterClient_position sampleAccountsFile 2 [] eq_refl).
Defined.

(** The existence check of [fs] itself. *)
Lemma getTweetHistory_after_save_witness :
  exists history w',
    saveTweetHistory (js "gm") [] sampleWorld = (Normal history, w')
    /\ getTweetHistory (existsSync tweet_history_json) w' = (Normal history, w')
    /\ history <> [].
Proof.
  apply (getTweetHistory_after_save (existsSync tweet_history_json) (js "gm") []
           sampleWorld).
  intros w0. reflexivity.
Defined.
